(** * clean_build_cache.py: a verified model of the cache cleaner

    The script walks a fixed catalogue of build and package-manager cache
    directories, measures each one ([get_size]), erases it bottom-up
    ([delete_path_verbose]) and reports the space freed
    ([clean_all_verbose]).

    The development follows the script top to bottom:

    - [Py]      Python exceptions, results, strings and floats;
    - [Report]  [sizeof_fmt] and [progress_bar];
    - [PosixFs] paths, the directory tree, the state-and-exception monad
                in which the script's effects (file system, console) run,
                and the [pathlib] / [os] / [shutil] primitives the script
                calls, with POSIX behaviour;
    - [Cleaner] [CACHE_LOCATIONS], [get_size], [delete_path_verbose] and
                [clean_all_verbose];
    - [Outcome] what a run leaves, counts and prints, as functions of the
                directory tree;
    - the theorems: the script computes these functions, and what follows
      for erasing, measuring and reporting.

    Python integers are [Z].  Python floats are IEEE 754 binary64 numbers,
    the Standard Library's [spec_float] at precision 53.  [progress_bar]
    is modelled on them, for its divisions round.  [sizeof_fmt] only
    divides by 1024, which is exact in binary64 as long as its argument is
    below [2^53] in magnitude (every size the script meets): it is
    modelled on rationals, and [sizeof_fmt64], the same loop on floats, is
    there to compare. *)

From Stdlib Require Import ZArith NArith QArith Qabs Qround.
From Stdlib Require Import Bool List String Ascii Lia.
From Stdlib Require Import Floats DecimalString.
Import ListNotations.

Open Scope string_scope.
Open Scope list_scope.
Open Scope Z_scope.

(* ================================================================== *)
(** * Python values and exceptions *)
(* ================================================================== *)

Module Py.

(** The exception classes the script can meet.  The first five are
    [OSError] and four of its subclasses; the others are not [OSError]s. *)
Inductive exn : Set :=
| OSError
| FileNotFoundError
| PermissionError
| NotADirectoryError
| IsADirectoryError
| RecursionError
| ZeroDivisionError
| OverflowError
| ValueError.

Definition exn_eqb (a b : exn) : bool :=
  match a, b with
  | OSError, OSError
  | FileNotFoundError, FileNotFoundError
  | PermissionError, PermissionError
  | NotADirectoryError, NotADirectoryError
  | IsADirectoryError, IsADirectoryError
  | RecursionError, RecursionError
  | ZeroDivisionError, ZeroDivisionError
  | OverflowError, OverflowError
  | ValueError, ValueError => true
  | _, _ => false
  end.

(** [is_os_error e]: [e] is an instance of [OSError]. *)
Definition is_os_error (e : exn) : bool :=
  match e with
  | OSError | FileNotFoundError | PermissionError
  | NotADirectoryError | IsADirectoryError => true
  | _ => false
  end.

(** [isinstance e c]: an exception of class [e] is an instance of class [c]. *)
Definition isinstance (e c : exn) : bool :=
  match c with
  | OSError => is_os_error e
  | _ => exn_eqb e c
  end.

(** [except (c1, c2, ...)] catches [e] when [e] is an instance of one of the
    listed classes. *)
Definition caught (e : exn) (classes : list exn) : bool :=
  existsb (isinstance e) classes.

(** The outcome of evaluating an expression: a value or a raised exception. *)
Inductive result (A : Type) : Type :=
| Ok (a : A)
| Raise (e : exn).
Arguments Ok {A} a.
Arguments Raise {A} e.

(** Sequencing of fallible pure computations. *)
Definition bindR {A B : Type} (r : result A) (k : A -> result B) : result B :=
  match r with
  | Ok a => k a
  | Raise e => Raise e
  end.

(** [str(n)] for an integer. *)
Definition str_of_int (n : Z) : string := NilZero.string_of_int (Z.to_int n).

(** [s * n] for a string: [n] copies of [s], none when [n <= 0]. *)
Definition str_repeat (s : string) (n : Z) : string :=
  String.concat "" (repeat s (Z.to_nat n)).

(** An f-string is the concatenation of its pieces. *)
Definition fstr (pieces : list string) : string := String.concat "" pieces.

(** ** Floats: IEEE 754 binary64 *)

Definition float : Set := spec_float.

(** [float(n)], correctly rounded. *)
Definition float_of_int (n : Z) : float := binary_normalize prec emax n 0 false.

Definition fdiv (x y : float) : float := SFdiv prec emax x y.
Definition fmul (x y : float) : float := SFmul prec emax x y.

(** [a / b] on integers (true division).  CPython returns the correctly
    rounded quotient; for [|a|, |b| < 2^53] both operands are floats
    exactly, and that is the IEEE quotient of the two. *)
Definition truediv (a b : Z) : result float :=
  if b =? 0 then Raise ZeroDivisionError
  else Ok (fdiv (float_of_int a) (float_of_int b)).

(** [int(x)] on a float: truncation toward zero. *)
Definition int_of_float (x : float) : result Z :=
  match x with
  | S754_zero _ => Ok 0
  | S754_finite s m e =>
      let a := if 0 <=? e then Z.pos m * 2 ^ e else Z.pos m / 2 ^ (- e) in
      Ok (if s then - a else a)
  | S754_infinity _ => Raise OverflowError
  | S754_nan => Raise ValueError
  end.

End Py.
Import Py.

Notation "x <-? r ;; k" := (bindR r (fun x => k))
  (at level 61, r at next level, right associativity).

(* ================================================================== *)
(** * Report formatting: [sizeof_fmt] and [progress_bar] *)
(* ================================================================== *)

Module Report.

(** Rounding to the nearest integer, ties to even: what the [f]
    presentation type does to the digit after the last one kept. *)
Definition round_half_even (q : Q) : Z :=
  let f := Qfloor q in
  match (q - inject_Z f ?= 1 # 2)%Q with
  | Lt => f
  | Gt => f + 1
  | Eq => if Z.even f then f else f + 1
  end.

(** [f"{num:3.1f}"] and [f"{num:.1f}"]: one digit after the point.  The
    minimum width 3 never pads, the shortest output being ["0.0"]; a
    negative number that rounds to zero keeps its sign. *)
Definition format_1f (num : Q) : string :=
  let tenths := Z.abs (round_half_even (num * 10)) in
  fstr [ match (num ?= 0)%Q with Lt => "-" | _ => "" end;
         str_of_int (tenths / 10); "."; str_of_int (tenths mod 10) ].

(** The [for unit in ...] loop of [sizeof_fmt]. *)
Fixpoint sizeof_fmt_units (units : list string) (num : Q) (suffix : string)
  : string :=
  match units with
  | [] => fstr [format_1f num; "P"; suffix]
  | unit :: units' =>
      if negb (Qle_bool 1024 (Qabs num))
      then fstr [format_1f num; unit; suffix]
      else sizeof_fmt_units units' (num / 1024)%Q suffix
  end.

(** [sizeof_fmt(num, suffix)].  The script always leaves [suffix] at its
    default, ["B"]. *)
Definition sizeof_fmt (num : Q) (suffix : string) : string :=
  sizeof_fmt_units [""; "K"; "M"; "G"; "T"] num suffix.

(** [progress_bar(current, total)]. *)
Definition progress_bar (current total : Z) : result string :=
  let width := 30 in
  x <-? truediv (width * current) total ;;
  filled <-? int_of_float x ;;
  let bar := (str_repeat "#" filled ++ str_repeat "-" (width - filled))%string in
  r <-? truediv current total ;;
  pct <-? int_of_float (fmul r (float_of_int 100)) ;;
  Ok (fstr ["["; bar; "] "; str_of_int pct; "%"]).

(** The value of a finite float. *)
Definition Q_of_float (x : float) : Q :=
  match x with
  | S754_finite s m e =>
      let v := if 0 <=? e then inject_Z (Z.pos m * 2 ^ e)
               else (Z.pos m # Z.to_pos (2 ^ (- e))) in
      if s then (- v)%Q else v
  | _ => 0%Q
  end.

(** The loop of [sizeof_fmt] on binary64 floats. *)
Fixpoint sizeof_fmt_units64 (units : list string) (num : float)
    (suffix : string) : string :=
  match units with
  | [] => fstr [format_1f (Q_of_float num); "P"; suffix]
  | unit :: units' =>
      if SFltb (SFabs num) (float_of_int 1024)
      then fstr [format_1f (Q_of_float num); unit; suffix]
      else sizeof_fmt_units64 units' (fdiv num (float_of_int 1024)) suffix
  end.

Definition sizeof_fmt64 (num : Z) (suffix : string) : string :=
  sizeof_fmt_units64 [""; "K"; "M"; "G"; "T"] (float_of_int num) suffix.

(** [num] after [k] divisions by 1024, as the loop of [sizeof_fmt]
    computes it. *)
Fixpoint shrink (k : nat) (num : Q) : Q :=
  match k with
  | O => num
  | S k' => shrink k' (num / 1024)%Q
  end.

(** The progress bar as the specification words it: of the 30 cells,
    the integer part of [30 * current / total] are filled, and the label is
    the integer part of [current / total * 100], both in exact
    arithmetic. *)
Definition progress_bar_spec (current total : Z) : string :=
  let filled := 30 * current / total in
  fstr ["["; str_repeat "#" filled; str_repeat "-" (30 - filled); "] ";
        str_of_int (100 * current / total); "%"].

(** The pairs [(current, total)] with [1 <= current <= total <= n]. *)
Definition progress_calls (n : nat) : list (Z * Z) :=
  flat_map (fun t => map (fun c => (Z.of_nat c, Z.of_nat t)) (seq 1 t))
           (seq 1 n).

End Report.
Import Report.


(* ================================================================== *)
(** * The file system: paths, the directory tree, [pathlib], [os], [shutil] *)
(* ================================================================== *)

Module PosixFs.

(** The file system is a tree of named entries, regular files and
    directories; there are no links and no devices.  What the operating
    system can refuse is recorded on the entries, as the error with which
    the next [stat], [unlink] or [rmdir] on them fails.  Listing a
    directory and printing never fail. *)

(** ** Paths

    A [pathlib.PosixPath]: whether it starts at the root, and its
    components.  [Path("")] and [Path(".")] are the relative path with no
    component. *)
Record Path : Set := mkPath { anchored : bool; parts : list string }.

(** Splitting a string at each ["/"]. *)
Fixpoint split_slash (s : string) : list string :=
  match s with
  | EmptyString => [EmptyString]
  | String c s' =>
      if Ascii.eqb c "/" then EmptyString :: split_slash s'
      else match split_slash s' with
           | [] => [String c EmptyString]
           | p :: ps => String c p :: ps
           end
  end.

(** [Path(s)]: empty components and ["."] components are dropped. *)
Definition Path_of_str (s : string) : Path :=
  mkPath (String.prefix "/" s)
         (filter (fun c => negb (String.eqb c "" || String.eqb c "."))
                 (split_slash s)).

(** [p / name], for a [name] that is a single component. *)
Definition joinpath (p : Path) (name : string) : Path :=
  mkPath (anchored p) (parts p ++ [name]).

(** [str(p)]. *)
Definition str (p : Path) : string :=
  if anchored p then String.append "/" (String.concat "/" (parts p))
  else match parts p with
       | [] => "."
       | _ => String.concat "/" (parts p)
       end.

(** [bool(p)]: [Path] defines neither [__bool__] nor [__len__], so every
    path object is truthy, the empty one included. *)
Definition truthy (p : Path) : bool := true.

(** ** The directory tree

    The failures of the operating system are part of the tree: an entry
    records the error, if any, with which [stat], [unlink] or [rmdir] on it
    fails (a lock, a missing permission, a dangling link, a vanished
    file). *)
Inductive errno : Set :=
| ENOENT | EACCES | EPERM | EBUSY | EIO | EINVAL | ENOTEMPTY | ENOTDIR | EISDIR.

(** The exception class Python raises for an error number (PEP 3151). *)
Definition OSError_of (e : errno) : exn :=
  match e with
  | ENOENT => FileNotFoundError
  | EACCES | EPERM => PermissionError
  | ENOTDIR => NotADirectoryError
  | EISDIR => IsADirectoryError
  | EBUSY | EIO | EINVAL | ENOTEMPTY => OSError
  end.

#[warnings="-register-all"]
Inductive node : Set :=
| File (st_size : N) (stat_fault unlink_fault : option errno)
| Dir (rmdir_fault : option errno) (entries : list (string * node)).

Definition is_dir_node (n : node) : bool :=
  match n with Dir _ _ => true | File _ _ _ => false end.

Fixpoint find_entry (name : string) (es : list (string * node)) : option node :=
  match es with
  | [] => None
  | (n, c) :: es' => if String.eqb n name then Some c else find_entry name es'
  end.

(** [put_entry name v es]: the entry called [name] is replaced by [v], or
    removed when [v] is [None]. *)
Fixpoint put_entry (name : string) (v : option node) (es : list (string * node))
  : list (string * node) :=
  match es with
  | [] => []
  | (n, c) :: es' =>
      if String.eqb n name
      then match v with Some c' => (n, c') :: es' | None => es' end
      else (n, c) :: put_entry name v es'
  end.

(** The node a list of components leads to, from [n]. *)
Fixpoint lookup (ps : list string) (n : node) : option node :=
  match ps with
  | [] => Some n
  | name :: ps' =>
      match n with
      | File _ _ _ => None
      | Dir _ es =>
          match find_entry name es with
          | Some c => lookup ps' c
          | None => None
          end
      end
  end.

(** [put ps v n]: the tree [n] with the node at [ps] replaced by [v], or
    removed when [v] is [None].  The root itself cannot be removed. *)
Fixpoint put (ps : list string) (v : option node) (n : node) : node :=
  match ps with
  | [] => match v with Some n' => n' | None => n end
  | name :: ps' =>
      match n with
      | File _ _ _ => n
      | Dir flt es =>
          match ps' with
          | [] => Dir flt (put_entry name v es)
          | _ :: _ =>
              match find_entry name es with
              | Some c => Dir flt (put_entry name (Some (put ps' v c)) es)
              | None => n
              end
          end
      end
  end.

(** The number of nested directory levels. *)
Fixpoint height (n : node) : nat :=
  match n with
  | File _ _ _ => O
  | Dir _ es =>
      S ((fix heights (es : list (string * node)) : nat :=
            match es with
            | [] => O
            | (_, c) :: es' => Nat.max (height c) (heights es')
            end) es)
  end.

(** A directory lists each name once. *)
Fixpoint names_unique (es : list (string * node)) : bool :=
  match es with
  | [] => true
  | (n, _) :: es' =>
      match find_entry n es' with
      | Some _ => false
      | None => names_unique es'
      end
  end.

Fixpoint wf (n : node) : bool :=
  match n with
  | File _ _ _ => true
  | Dir _ es => names_unique es && forallb (fun e => wf (snd e)) es
  end.

(** ** The process: file system, working directory, console *)
Record world : Set := mkWorld {
  fs : node;
  cwd : list string;
  stdout : list string
}.

Definition set_fs (w : world) (n : node) : world :=
  mkWorld n (cwd w) (stdout w).

(** The components from the root that a path denotes in [w]. *)
Definition resolve (w : world) (p : Path) : list string :=
  if anchored p then parts p else cwd w ++ parts p.

Definition node_at (w : world) (p : Path) : option node :=
  lookup (resolve w p) (fs w).

(** ** Computations: state and exceptions

    A computation runs in a [world] and returns a value or raises; the
    world it leaves is kept in both cases, so what a [try] body did before
    it raised stays done. *)
Definition M (A : Type) : Type := world -> result A * world.

Definition ret {A : Type} (a : A) : M A := fun w => (Ok a, w).

Definition raise {A : Type} (e : exn) : M A := fun w => (Raise e, w).

Definition bind {A B : Type} (m : M A) (k : A -> M B) : M B :=
  fun w =>
    match m w with
    | (Ok a, w') => k a w'
    | (Raise e, w') => (Raise e, w')
    end.

Definition lift {A : Type} (r : result A) : M A := fun w => (r, w).

(** [try: body  except classes: handler]. *)
Definition try_except {A : Type} (body : M A) (classes : list exn)
    (handler : M A) : M A :=
  fun w =>
    match body w with
    | (Ok a, w') => (Ok a, w')
    | (Raise e, w') => if caught e classes then handler w' else (Raise e, w')
    end.

(** [for x in xs: acc = body x acc], the loop's variables threaded
    through [acc]. *)
Fixpoint for_ {A B : Type} (xs : list A) (body : A -> B -> M B) (acc : B)
  : M B :=
  match xs with
  | [] => ret acc
  | x :: xs' => bind (body x acc) (for_ xs' body)
  end.

(** [print(line)]. *)
Definition print (line : string) : M unit :=
  fun w => (Ok tt, mkWorld (fs w) (cwd w) (stdout w ++ [line])).

(** ** [pathlib]: queries

    [p.stat()] fails with the error recorded on the entry, if any, and
    with "not found" where there is no entry. *)

(** What the script reads of a [stat] result: [S_ISDIR(st_mode)] and
    [st_size].  A directory reports one block. *)
Definition stat (p : Path) : M (bool * Z) :=
  fun w =>
    match node_at w p with
    | None => (Raise FileNotFoundError, w)
    | Some (File _ (Some e) _) => (Raise (OSError_of e), w)
    | Some (File sz None _) => (Ok (false, Z.of_N sz), w)
    | Some (Dir _ _) => (Ok (true, 4096), w)
    end.

(** [_ignore_error(e)]: the errors [pathlib] takes for "not there",
    [ENOENT] and [ENOTDIR] (and [EBADF] and [ELOOP], which no entry
    records here). *)
Definition ignore_error (e : exn) : bool :=
  match e with
  | FileNotFoundError | NotADirectoryError => true
  | _ => false
  end.

(** The [try] statement [exists], [is_file] and [is_dir] share (Python
    3.11): the answer is read off [self.stat()]; an [OSError] that
    [_ignore_error] accepts, or a [ValueError], makes it [False]; any
    other error is raised again. *)
Definition stat_query (answer : bool * Z -> bool) (p : Path) : M bool :=
  fun w =>
    match stat p w with
    | (Ok st, w') => (Ok (answer st), w')
    | (Raise e, w') =>
        if caught e [OSError]
        then (if ignore_error e then (Ok false, w') else (Raise e, w'))
        else if caught e [ValueError] then (Ok false, w') else (Raise e, w')
    end.

Definition exists_ (p : Path) : M bool := stat_query (fun _ => true) p.

Definition is_file (p : Path) : M bool := stat_query (fun st => negb (fst st)) p.

Definition is_dir (p : Path) : M bool := stat_query fst p.

(** [p.stat().st_size].  The script only asks it of regular files; a
    directory reports one block. *)
Definition stat_st_size (p : Path) : M Z :=
  fun w =>
    match node_at w p with
    | None => (Raise FileNotFoundError, w)
    | Some (File _ (Some e) _) => (Raise (OSError_of e), w)
    | Some (File sz None _) => (Ok (Z.of_N sz), w)
    | Some (Dir _ _) => (Ok 4096, w)
    end.

(** ** [pathlib]: removal *)

(** [p.unlink()]. *)
Definition unlink (p : Path) : M unit :=
  fun w =>
    match node_at w p with
    | None => (Raise FileNotFoundError, w)
    | Some (Dir _ _) => (Raise IsADirectoryError, w)
    | Some (File _ _ (Some e)) => (Raise (OSError_of e), w)
    | Some (File _ _ None) => (Ok tt, set_fs w (put (resolve w p) None (fs w)))
    end.

(** The error, if any, with which removing a directory with fault [flt]
    and entries [es] fails. *)
Definition rmdir_error (flt : option errno) (es : list (string * node))
  : option errno :=
  match flt, es with
  | Some e, _ => Some e
  | None, _ :: _ => Some ENOTEMPTY
  | None, [] => None
  end.

(** [p.rmdir()].  A path with no component is ["/"] or ["."]: the first
    is busy, and the system refuses to remove the second under that name. *)
Definition rmdir (p : Path) : M unit :=
  fun w =>
    match node_at w p with
    | None => (Raise FileNotFoundError, w)
    | Some (File _ _ _) => (Raise NotADirectoryError, w)
    | Some (Dir flt es) =>
        match parts p with
        | [] => (Raise (OSError_of (if anchored p then EBUSY else EINVAL)), w)
        | _ :: _ =>
            match rmdir_error flt es with
            | Some e => (Raise (OSError_of e), w)
            | None => (Ok tt, set_fs w (put (resolve w p) None (fs w)))
            end
        end
    end.

(** ** [os.scandir] and [os.walk] *)

(** The entries of a directory, each with its [is_dir()]. *)
Definition scandir (p : Path) : M (list (string * bool)) :=
  fun w =>
    match node_at w p with
    | None => (Raise FileNotFoundError, w)
    | Some (File _ _ _) => (Raise NotADirectoryError, w)
    | Some (Dir _ es) =>
        (Ok (map (fun e => (fst e, is_dir_node (snd e))) es), w)
    end.

(** [for root, dirs, files in os.walk(top, topdown): acc = body ...].

    [os.walk] scans [top], and yields [(top, dirs, nondirs)] before
    (top-down) or after (bottom-up) walking into each of [dirs]; each
    directory is scanned when the walk reaches it, in the world the loop
    body has left.  A directory that cannot be scanned is passed over
    ([onerror] is [None]).  [fuel] bounds the depth of the recursion. *)
Fixpoint os_walk_rec {A : Type} (fuel : nat) (top : Path) (topdown : bool)
    (body : Path -> list string -> list string -> A -> M A) (acc : A) : M A :=
  match fuel with
  | O => raise RecursionError
  | S fuel' =>
      fun w =>
        match scandir top w with
        | (Raise _, w') => (Ok acc, w')
        | (Ok entries, w') =>
            let dirs := map fst (filter snd entries) in
            let nondirs := map fst (filter (fun e => negb (snd e)) entries) in
            let walk_into d := os_walk_rec fuel' (joinpath top d) topdown body in
            if topdown
            then bind (body top dirs nondirs acc) (for_ dirs walk_into) w'
            else bind (for_ dirs walk_into acc) (body top dirs nondirs) w'
        end
  end.

(** The walk never nests deeper than the tree it walks. *)
Definition os_walk {A : Type} (top : Path) (topdown : bool)
    (body : Path -> list string -> list string -> A -> M A) (acc : A) : M A :=
  fun w => os_walk_rec (S (height (fs w))) top topdown body acc w.

(** ** [shutil.rmtree] *)

(** What [rmtree] leaves of a node, and the first error it raised.  With
    [ignore_errors] no error is raised and the traversal goes on; without,
    the first error ends it. *)
Fixpoint rmtree_node (ignore_errors : bool) (n : node)
  : option errno * option node :=
  match n with
  | File _ _ None => (None, None)
  | File _ _ (Some e) => (if ignore_errors then None else Some e, Some n)
  | Dir flt es =>
      match
        (fix rmtree_entries (es : list (string * node))
           : option errno * list (string * node) :=
           match es with
           | [] => (None, [])
           | (name, c) :: es' =>
               match rmtree_node ignore_errors c with
               | (Some e, Some c') => (Some e, (name, c') :: es')
               | (Some e, None) => (Some e, es')
               | (None, kept) =>
                   let (err, rest) := rmtree_entries es' in
                   (err, match kept with
                         | Some c' => (name, c') :: rest
                         | None => rest
                         end)
               end
           end) es
      with
      | (Some e, es') => (Some e, Some (Dir flt es'))
      | (None, es') =>
          match rmdir_error flt es' with
          | None => (None, None)
          | Some e =>
              (if ignore_errors then None else Some e, Some (Dir flt es'))
          end
      end
  end.

(** The same, for the entries of the directory [rmtree] is called on. *)
Definition rmtree_entries (ignore_errors : bool)
  : list (string * node) -> option errno * list (string * node) :=
  fix rmtree_entries (es : list (string * node))
    : option errno * list (string * node) :=
    match es with
    | [] => (None, [])
    | (name, c) :: es' =>
        match rmtree_node ignore_errors c with
        | (Some e, Some c') => (Some e, (name, c') :: es')
        | (Some e, None) => (Some e, es')
        | (None, kept) =>
            let (err, rest) := rmtree_entries es' in
            (err, match kept with
                  | Some c' => (name, c') :: rest
                  | None => rest
                  end)
        end
    end.

(** [shutil.rmtree(path, ignore_errors)]: the contents go first, then the
    directory itself. *)
Definition rmtree (path : Path) (ignore_errors : bool) : M unit :=
  fun w =>
    match node_at w path with
    | None => (if ignore_errors then Ok tt else Raise FileNotFoundError, w)
    | Some (File _ _ _) =>
        (if ignore_errors then Ok tt else Raise NotADirectoryError, w)
    | Some (Dir flt es) =>
        let (err, es') := rmtree_entries ignore_errors es in
        let w' := set_fs w (put (resolve w path) (Some (Dir flt es')) (fs w)) in
        match err with
        | Some e => (Raise (OSError_of e), w')
        | None =>
            if ignore_errors
            then try_except (rmdir path) [OSError] (ret tt) w'
            else rmdir path w'
        end
    end.

End PosixFs.
Import PosixFs.

Notation "x <- m ;; k" := (bind m (fun x => k))
  (at level 61, m at next level, right associativity).
Notation "m ;;; k" := (bind m (fun _ => k))
  (at level 61, right associativity).
Notation "p // name" := (joinpath p name) (at level 40, left associativity).

(* ================================================================== *)
(** * The cleaner *)
(* ================================================================== *)

Module Cleaner.

(** What the script reads of its environment when it is loaded: the home
    directory, the environment variables, and [os.path.expanduser]. *)
Record environ : Type := mkEnviron {
  home : list string;
  getenv : string -> option string;
  expanduser : string -> string
}.

(** [x or ""] for an optional string: [None] and the empty string are
    both falsy. *)
Definition or_empty (x : option string) : string :=
  match x with
  | Some s => s
  | None => ""
  end.

Definition bs : string := String (Ascii.ascii_of_nat 92) "".

(** [CACHE_LOCATIONS], built when the module is loaded, with
    [Path.home()] and [Path.cwd()] as they are then. *)
Definition CACHE_LOCATIONS (env : environ) (cwd : list string)
  : list (string * list Path) :=
  let Path_home := mkPath true (home env) in
  let Path_cwd := mkPath true cwd in
  let user s := Path_of_str (expanduser env s) in
  [ ("Android / Gradle",
     [ Path_home // ".gradle" // "caches";
       Path_home // ".gradle" // "daemon";
       Path_cwd // "build";
       Path_cwd // "app" // "build";
       Path_cwd // ".gradle";
       Path_cwd // ".idea" // "caches";
       Path_cwd // ".idea" // "libraries";
       Path_home // ".android" // "build-cache";
       user (fstr ["~"; bs; "AppData"; bs; "Local"; bs; "Gradle"; bs; "caches"]);
       user (fstr ["~"; bs; "AppData"; bs; "Local"; bs; "Gradle"; bs; "daemon"]) ]);
    ("Node.js",
     [ Path_home // ".npm";
       user (fstr ["~"; bs; "AppData"; bs; "Roaming"; bs; "npm-cache"]);
       Path_home // ".cache" // "yarn";
       user (fstr ["~"; bs; "AppData"; bs; "Local"; bs; "Yarn"; bs; "Cache"]);
       Path_home // ".pnpm-store";
       user (fstr ["~"; bs; "AppData"; bs; "Local"; bs; "pnpm-store"]);
       Path_cwd // "node_modules";
       Path_cwd // "dist";
       Path_cwd // "build";
       Path_cwd // ".next";
       Path_cwd // ".nuxt";
       Path_cwd // ".svelte-kit";
       Path_cwd // ".angular" ]);
    ("Maven / Kotlin",
     [ Path_home // ".m2" // "repository";
       user (fstr ["~"; bs; ".m2"; bs; "repository"]);
       Path_cwd // "target";
       Path_cwd // "build";
       Path_cwd // ".gradle" ]);
    ("Python",
     [ Path_home // ".cache" // "pip";
       user (fstr ["~"; bs; "AppData"; bs; "Local"; bs; "pip"; bs; "cache"]);
       Path_cwd // "venv";
       Path_cwd // ".venv";
       Path_cwd // "build";
       Path_cwd // "dist" ]);
    ("Rust (Cargo)",
     [ Path_home // ".cargo" // "registry";
       Path_home // ".cargo" // "git";
       user (fstr ["~"; bs; ".cargo"; bs; "registry"]);
       user (fstr ["~"; bs; ".cargo"; bs; "git"]);
       Path_cwd // "target" ]);
    ("Go",
     [ Path_home // "go" // "pkg" // "mod";
       user (fstr ["~"; bs; "go"; bs; "pkg"; bs; "mod"]);
       Path_cwd // "bin" ]);
    ("System Temp",
     [ Path_of_str "/tmp";
       Path_of_str "/var/tmp";
       Path_of_str (or_empty (getenv env "TEMP"));
       Path_of_str (or_empty (getenv env "TMP")) ]) ].

(** The [try] statement of [get_size]: the size of one file is added,
    unless the file is not found. *)
Definition add_size (fpath : Path) (total : Z) : M Z :=
  try_except
    (size <- stat_st_size fpath ;; ret (total + size))
    [FileNotFoundError]
    (ret total).

(** The body of the [for root, _, files in os.walk(...)] loop. *)
Definition get_size_body (root : Path) (dirs files : list string) (total : Z)
  : M Z :=
  for_ files (fun f total => add_size (root // f) total) total.

(** [get_size(path)]: the size of a file or of a folder, in bytes. *)
Definition get_size (path : Path) : M Z :=
  e <- exists_ path ;;
  if negb e then ret 0 else
  f <- is_file path ;;
  if f then stat_st_size path else
  let total := 0 in
  os_walk path true get_size_body total.

Definition msg_removing_file (p : Path) (size : Z) : string :=
  fstr ["   Removing file: "; str p; " ("; sizeof_fmt (inject_Z size) "B"; ")"].
Definition msg_skipped (p : Path) : string :=
  fstr ["   [SKIPPED] In use or access denied: "; str p].
Definition msg_removing_folder (p : Path) : string :=
  fstr ["   Removing folder: "; str p].
Definition msg_removing_root (p : Path) : string :=
  fstr ["   Removing root folder: "; str p].
Definition msg_skipped_root (p : Path) : string :=
  fstr ["   [SKIPPED] Root folder in use or access denied: "; str p].

Definition msg_done (p : Path) (size_before : Z) : string :=
  fstr ["   [DONE] Finished: "; str p; " (";
        sizeof_fmt (inject_Z size_before) "B"; ") removed"].

(** The [try] statement that removes one file, in both branches of
    [delete_path_verbose]. *)
Definition remove_file (fpath : Path) (total_freed : Z) : M Z :=
  try_except
    (size <- stat_st_size fpath ;;
     print (msg_removing_file fpath size) ;;;
     unlink fpath ;;;
     ret (total_freed + size))
    [PermissionError; OSError]
    (print (msg_skipped fpath) ;;; ret total_freed).

(** The [try] statement that removes one folder met by the walk. *)
Definition remove_folder (dpath : Path) : M unit :=
  try_except
    (rmdir dpath ;;; print (msg_removing_folder dpath))
    [OSError; PermissionError]
    (print (msg_skipped dpath)).

(** The body of the [for root, dirs, files in os.walk(...)] loop. *)
Definition delete_walk_body (root : Path) (dirs files : list string)
    (total_freed : Z) : M Z :=
  total_freed <- for_ files
                   (fun name total_freed => remove_file (root // name) total_freed)
                   total_freed ;;
  for_ dirs
    (fun name total_freed => remove_folder (root // name) ;;; ret total_freed)
    total_freed.

(** [delete_path_verbose(path)]: delete a folder or file and print every
    step, skipping locked files. *)
Definition delete_path_verbose (path : Path) : M Z :=
  e <- exists_ path ;;
  if negb e then ret 0 else
  let total_freed := 0 in
  f <- is_file path ;;
  if f then remove_file path total_freed
  else
    d <- is_dir path ;;
    if d then
      total_freed <- os_walk path false delete_walk_body total_freed ;;
      try_except
        (rmtree path true ;;; print (msg_removing_root path))
        [OSError; PermissionError]
        (print (msg_skipped_root path)) ;;;
      ret total_freed
    else ret total_freed.

(** The body of [for p in paths] in [clean_all_verbose]. *)
Definition clean_path (p : Path) (total_cleaned : Z) : M Z :=
  e <- (if truthy p then exists_ p else ret false) ;;
  if e then
    size_before <- get_size p ;;
    if size_before >? 0 then
      freed <- delete_path_verbose p ;;
      let total_cleaned := total_cleaned + freed in
      print (msg_done p size_before) ;;;
      ret total_cleaned
    else ret total_cleaned
  else ret total_cleaned.

Definition newline : string := String (Ascii.ascii_of_nat 10) "".

(** The bytes between "Cleanup Finished" and "Total Space Freed" in the
    script's last message. *)
Definition dash : string :=
  String.concat ""
    (map (fun c => String (Ascii.ascii_of_nat c) "")
         [195; 162; 226; 130; 172; 226; 128; 157]%nat).

(** [enumerate(xs, start)]. *)
Fixpoint enumerate {A : Type} (start : Z) (xs : list A) : list (Z * A) :=
  match xs with
  | [] => []
  | x :: xs' => (start, x) :: enumerate (start + 1) xs'
  end.

(** The body of [for i, (label, paths) in enumerate(...)]. *)
Definition clean_category (total_tasks : Z) (task : Z * (string * list Path))
    (total_cleaned : Z) : M Z :=
  let '(i, (label, paths)) := task in
  print (fstr [newline; "["; str_of_int i; "/"; str_of_int total_tasks;
               "] Cleaning category: "; label]) ;;;
  total_cleaned <- for_ paths clean_path total_cleaned ;;
  bar <- lift (progress_bar i total_tasks) ;;
  print (fstr ["   "; bar]) ;;;
  ret total_cleaned.

(** [clean_all_verbose()]; it returns nothing in the script, and here the
    total it prints last. *)
Definition clean_all_verbose (env : environ) : M Z :=
  fun w =>
    let CACHE_LOCATIONS := CACHE_LOCATIONS env (cwd w) in
    (let total_cleaned := 0 in
     let categories := map fst CACHE_LOCATIONS in
     let total_tasks := Z.of_nat (List.length categories) in
     total_cleaned <- for_ (enumerate 1 CACHE_LOCATIONS)
                        (clean_category total_tasks) total_cleaned ;;
     print (fstr [newline; "======================================"]) ;;;
     print (fstr ["Cleanup Finished "; dash; " Total Space Freed: ";
                  sizeof_fmt (inject_Z total_cleaned) "B"]) ;;;
     print "======================================" ;;;
     ret total_cleaned) w.

End Cleaner.
Import Cleaner.

(* ================================================================== *)
(** * What a run computes, as functions of the tree

    The bottom-up walk of [delete_path_verbose] handles each directory in
    three passes over its entries: the walks into its subdirectories, the
    loop over its files, the loop over its subdirectories.  The functions
    below describe each pass on the list of entries; the theorems that
    follow show that the script computes them. *)
(* ================================================================== *)

Module Outcome.

Definition is_file_node (n : node) : bool := negb (is_dir_node n).

(** The entries [sel] selects are replaced by what [T] leaves of them. *)
Definition on_entries (sel : node -> bool) (T : node -> option node)
  : list (string * node) -> list (string * node) :=
  fix go (es : list (string * node)) : list (string * node) :=
    match es with
    | [] => []
    | (name, c) :: es' =>
        if sel c
        then match T c with
             | Some c' => (name, c') :: go es'
             | None => go es'
             end
        else (name, c) :: go es'
    end.

(** The lines [L] prints for the entries [sel] selects, in order. *)
Definition lines_on (sel : node -> bool) (L : Path -> node -> list string)
    (root : Path) : list (string * node) -> list string :=
  fix go (es : list (string * node)) : list string :=
    match es with
    | [] => []
    | (name, c) :: es' =>
        if sel c then L (joinpath root name) c ++ go es' else go es'
    end.

(** The bytes [A] counts for the entries [sel] selects. *)
Definition sum_on (sel : node -> bool) (A : node -> Z)
  : list (string * node) -> Z :=
  fix go (es : list (string * node)) : Z :=
    match es with
    | [] => 0
    | (_, c) :: es' => if sel c then A c + go es' else go es'
    end.

(** The names of the entries [sel] selects. *)
Definition names_on (sel : node -> bool) (es : list (string * node))
  : list string :=
  map fst (filter (fun e => sel (snd e)) es).

(** *** One file: [remove_file] *)

Definition file_left (c : node) : option node :=
  match c with
  | File _ None None => None
  | _ => Some c
  end.

Definition file_freed (c : node) : Z :=
  match c with
  | File sz None None => Z.of_N sz
  | _ => 0
  end.

Definition file_lines (fpath : Path) (c : node) : list string :=
  match c with
  | File sz None None => [msg_removing_file fpath (Z.of_N sz)]
  | File sz None (Some _) =>
      [msg_removing_file fpath (Z.of_N sz); msg_skipped fpath]
  | File _ (Some _) _ => [msg_skipped fpath]
  | Dir _ _ => [msg_removing_file fpath 4096; msg_skipped fpath]
  end.

(** *** One subdirectory: [remove_folder] *)

Definition folder_left (c : node) : option node :=
  match c with
  | Dir flt es =>
      match rmdir_error flt es with
      | None => None
      | Some _ => Some c
      end
  | File _ _ _ => Some c
  end.

Definition folder_lines (dpath : Path) (c : node) : list string :=
  match c with
  | Dir flt es =>
      match rmdir_error flt es with
      | None => [msg_removing_folder dpath]
      | Some _ => [msg_skipped dpath]
      end
  | File _ _ _ => [msg_skipped dpath]
  end.

(** *** The walk *)

(** A directory after the walk has gone through it and its
    subdirectories: its files and its subdirectories are gone, except
    those that could not be removed. *)
Fixpoint walked (n : node) : node :=
  match n with
  | File _ _ _ => n
  | Dir flt es =>
      Dir flt
        (on_entries is_dir_node folder_left
           (on_entries is_file_node file_left
              (on_entries is_dir_node (fun c => Some (walked c)) es)))
  end.

Definition walked_into (es : list (string * node)) : list (string * node) :=
  on_entries is_dir_node (fun c => Some (walked c)) es.

Definition files_gone (es : list (string * node)) : list (string * node) :=
  on_entries is_file_node file_left es.

Definition folders_gone (es : list (string * node)) : list (string * node) :=
  on_entries is_dir_node folder_left es.

Definition walked_entries (es : list (string * node)) : list (string * node) :=
  folders_gone (files_gone (walked_into es)).

(** The bytes the walk counts as freed. *)
Fixpoint walk_freed (n : node) : Z :=
  match n with
  | File _ _ _ => 0
  | Dir _ es => sum_on is_dir_node walk_freed es + sum_on is_file_node file_freed es
  end.

Definition freed_entries (es : list (string * node)) : Z :=
  sum_on is_dir_node walk_freed es + sum_on is_file_node file_freed es.

(** The lines the walk prints. *)
Fixpoint walk_log (top : Path) (n : node) : list string :=
  match n with
  | File _ _ _ => []
  | Dir _ es =>
      lines_on is_dir_node walk_log top es
      ++ lines_on is_file_node file_lines top es
      ++ lines_on is_dir_node folder_lines top
           (on_entries is_dir_node (fun c => Some (walked c)) es)
  end.

Definition log_entries (top : Path) (es : list (string * node)) : list string :=
  lines_on is_dir_node walk_log top es
  ++ lines_on is_file_node file_lines top es
  ++ lines_on is_dir_node folder_lines top (walked_into es).

(** *** After the walk: [shutil.rmtree(path, ignore_errors=True)] *)

(** What is left of a directory at [path] once [delete_path_verbose] is
    done with it: [None] when the directory is gone. *)
Definition after_delete (path : Path) (flt : option errno)
    (es : list (string * node)) : option node :=
  let es' := snd (rmtree_entries true (walked_entries es)) in
  match parts path with
  | [] => Some (Dir flt es')
  | _ :: _ =>
      match rmdir_error flt es' with
      | None => None
      | Some _ => Some (Dir flt es')
      end
  end.

(** *** Measures of a tree *)

(** The total size of the regular files of a tree. *)
Fixpoint tree_size (n : node) : Z :=
  match n with
  | File sz _ _ => Z.of_N sz
  | Dir _ es => sum_on (fun _ => true) tree_size es
  end.

(** No entry of the tree has a fault: everything in it can be measured
    and removed. *)
Fixpoint fault_free (n : node) : bool :=
  match n with
  | File _ None None => true
  | File _ _ _ => false
  | Dir None es => forallb (fun e => fault_free (snd e)) es
  | Dir (Some _) _ => false
  end.

(** [locked_at q n]: [q] leads from the directory [n] to a regular file
    that cannot be unlinked, and no other entry of [n] has a fault. *)
Fixpoint locked_at (q : list string) (n : node) : bool :=
  match q, n with
  | name :: q', Dir None es =>
      match find_entry name es with
      | Some c =>
          match q' with
          | [] => match c with File _ _ (Some _) => true | _ => false end
          | _ :: _ => locked_at q' c
          end
          && forallb (fun e => fault_free (snd e)) (put_entry name None es)
      | None => false
      end
  | _, _ => false
  end.

(** [p / q] for a relative path [q] given by its components. *)
Definition joinpaths (p : Path) (q : list string) : Path :=
  mkPath (anchored p) (parts p ++ q).

(** The proper prefixes of [q] that are not empty, longest first: below a
    directory, the subdirectories that enclose the entry at [q], innermost
    first. *)
Fixpoint enclosing (q : list string) : list (list string) :=
  match q with
  | [] => []
  | name :: q' =>
      map (cons name) (enclosing q')
      ++ match q' with [] => [] | _ :: _ => [[name]] end
  end.

(** The size of the regular file at [q] in [n]. *)
Definition size_at (q : list string) (n : node) : Z :=
  match lookup q n with
  | Some (File sz _ _) => Z.of_N sz
  | _ => 0
  end.

(** [spine q n]: of the tree [n], only the entry at [q] and the
    directories that lead to it. *)
Fixpoint spine (q : list string) (n : node) : node :=
  match q, n with
  | name :: q', Dir flt es =>
      match find_entry name es with
      | Some c => Dir flt [(name, spine q' c)]
      | None => n
      end
  | _, _ => n
  end.

(** The entries of a directory. *)
Definition entries_of (n : node) : list (string * node) :=
  match n with
  | Dir _ es => es
  | File _ _ _ => []
  end.

(** The sizes of the files of a tree that have no fault, each counted
    once: the files [remove_file] measures and then unlinks. *)
Fixpoint unlinked_size (n : node) : Z :=
  match n with
  | File sz None None => Z.of_N sz
  | File _ _ _ => 0
  | Dir _ es => sum_on (fun _ => true) unlinked_size es
  end.

(** What [get_size] adds up: the sizes of the files [stat] succeeds on. *)
Fixpoint measured (n : node) : Z :=
  match n with
  | File sz None _ => Z.of_N sz
  | File _ (Some _) _ => 0
  | Dir _ es => sum_on (fun _ => true) measured es
  end.

(** Every file of the tree can be measured or is not found: no [stat]
    fails in another way. *)
Fixpoint stat_ok (n : node) : bool :=
  match n with
  | File _ None _ => true
  | File _ (Some ENOENT) _ => true
  | File _ (Some _) _ => false
  | Dir _ es => forallb (fun e => stat_ok (snd e)) es
  end.

(** A directory that holds regular files only, of the given sizes, all of
    which can be measured and removed; and the sum of the sizes. *)
Definition flat_dir (files : list (string * N)) : list (string * node) :=
  map (fun f => (fst f, File (snd f) None None)) files.

Definition sum_sizes (files : list (string * N)) : Z :=
  fold_right (fun f total => Z.of_N (snd f) + total) 0 files.

(** A line of the console is a skip notice. *)
Definition is_skip (line : string) : bool := String.prefix "   [SKIPPED]" line.

Definition count_skips (lines : list string) : nat :=
  List.length (filter is_skip lines).

(** A line of the console is the notice of the [except] branch of the
    removal of the root folder. *)
Definition is_root_skip (line : string) : bool :=
  String.prefix "   [SKIPPED] Root folder" line.

(** [with_dir w P d out]: the world [w] with the node at [P] replaced by
    [d] and the lines [out] printed. *)
Definition with_dir (w : world) (P : list string) (d : node)
    (out : list string) : world :=
  mkWorld (put P (Some d) (fs w)) (cwd w) (stdout w ++ out).


(** What the three passes leave of one entry. *)
Definition entry_left (c : node) : option node :=
  if is_dir_node c then folder_left (walked c) else file_left c.

Definition entry_freed (c : node) : Z :=
  if is_dir_node c then walk_freed c else file_freed c.

(** Every entry of a list is without faults. *)
Definition all_fault_free (es : list (string * node)) : bool :=
  forallb (fun e => fault_free (snd e)) es.

(** The error that escapes [path.exists()] on a node: the failure of
    [stat] on a regular file, unless [pathlib] takes it for "not there". *)
Definition refused (n : node) : option exn :=
  match n with
  | File _ (Some e) _ =>
      if ignore_error (OSError_of e) then None else Some (OSError_of e)
  | _ => None
  end.

Definition refused_at (w : world) (p : Path) : option exn :=
  match node_at w p with
  | Some n => refused n
  | None => None
  end.

(** A world is well formed when its root is a directory and every
    directory lists each name once. *)
Definition wf_world (w : world) : bool := is_dir_node (fs w) && wf (fs w).

End Outcome.
Import Outcome.

Arguments with_dir : simpl never.

(* ================================================================== *)
(** * More measures of a tree, and of a console *)
(* ================================================================== *)

Module Residue.

(** What no removal gets rid of: a file that cannot be unlinked, and a
    directory that holds something or cannot itself be removed, all of
    whose entries are such. *)
Fixpoint stuck (n : node) : bool :=
  match n with
  | File _ _ (Some _) => true
  | File _ _ None => false
  | Dir flt es =>
      match rmdir_error flt es with Some _ => true | None => false end
      && forallb (fun e => stuck (snd e)) es
  end.

(** The regular files of a tree on which [stat] or [unlink] fails. *)
Fixpoint faulty_files (n : node) : Z :=
  match n with
  | File _ None None => 0
  | File _ _ _ => 1
  | Dir _ es => sum_on (fun _ => true) faulty_files es
  end.

(** The regular files of a tree on which [stat] succeeds. *)
Fixpoint statable_files (n : node) : Z :=
  match n with
  | File _ None _ => 1
  | File _ (Some _) _ => 0
  | Dir _ es => sum_on (fun _ => true) statable_files es
  end.

(** The directories below the root of a tree. *)
Fixpoint subdirs (n : node) : Z :=
  match n with
  | File _ _ _ => 0
  | Dir _ es => sum_on is_dir_node (fun c => 1 + subdirs c) es
  end.

(** [pruned n' n]: the tree [n'] is [n] with some entries taken away;
    what is left is where it was and as it was. *)
Inductive pruned : node -> node -> Prop :=
| pruned_file sz sf uf : pruned (File sz sf uf) (File sz sf uf)
| pruned_dir flt es' es :
    pruned_entries es' es -> pruned (Dir flt es') (Dir flt es)
with pruned_entries : list (string * node) -> list (string * node) -> Prop :=
| pruned_nil : pruned_entries [] []
| pruned_drop name c es' es :
    pruned_entries es' es -> pruned_entries es' ((name, c) :: es)
| pruned_keep name c' c es' es :
    pruned c' c -> pruned_entries es' es ->
    pruned_entries ((name, c') :: es') ((name, c) :: es).

Scheme pruned_mut := Minimality for pruned Sort Prop
  with pruned_entries_mut := Minimality for pruned_entries Sort Prop.

(** What [delete_path_verbose] leaves of the node [n] at [path]. *)
Definition after_erase (path : Path) (n : node) : option node :=
  match n with
  | File _ None None => None
  | File _ _ _ => Some n
  | Dir flt es => after_delete path flt es
  end.

(** No [stat] fails on a file of the tree. *)
Fixpoint stat_faultless (n : node) : bool :=
  match n with
  | File _ None _ => true
  | File _ (Some _) _ => false
  | Dir _ es => forallb (fun e => stat_faultless (snd e)) es
  end.

(** The size of what is left, if anything is. *)
Definition size_left (v : option node) : Z :=
  match v with
  | Some m => tree_size m
  | None => 0
  end.

(** The three lines [clean_all_verbose] prints last. *)
Definition closing_lines (total_cleaned : Z) : list string :=
  [ fstr [newline; "======================================"];
    fstr ["Cleanup Finished "; dash; " Total Space Freed: ";
          sizeof_fmt (inject_Z total_cleaned) "B"];
    "======================================" ].

(** [carried_on w0 acc w]: the loops of [clean_all_verbose], started in
    [w0] with a total of 0, have reached the world [w] with the total
    [acc]. *)
Definition carried_on (w0 : world) (acc : Z) (w : world) : Prop :=
  wf_world w = true /\
  stat_faultless (fs w) = true /\
  cwd w = cwd w0 /\
  pruned (fs w) (fs w0) /\
  tree_size (fs w) + acc = tree_size (fs w0) /\
  exists lines, stdout w = stdout w0 ++ lines.

(** A line of the console announces the removal of a file. *)
Definition is_removing_file (line : string) : bool :=
  String.prefix "   Removing file:" line.

(** The walker passes over [p]: it does not exist, or it is an empty
    file, or a directory in which [stat] finds no byte. *)
Definition nothing_to_clean (w : world) (p : Path) : bool :=
  match node_at w p with
  | None => true
  | Some (File sz None _) => (Z.of_N sz =? 0)
  | Some (File _ (Some _) _) => false
  | Some (Dir flt es) => stat_ok (Dir flt es) && (measured (Dir flt es) =? 0)
  end.

(** The two lines [clean_all_verbose] prints for a category in which it
    passes over every path: the header and the progress bar. *)
Definition quiet_category (total_tasks i : Z) (label : string) : list string :=
  [ fstr [newline; "["; str_of_int i; "/"; str_of_int total_tasks;
          "] Cleaning category: "; label];
    fstr ["   "; match progress_bar i total_tasks with
                 | Ok bar => bar
                 | Raise _ => ""
                 end] ].

(** What [clean_all_verbose] prints when it passes over every path. *)
Definition quiet_report : list string :=
  flat_map (fun task : Z * string => quiet_category 7 (fst task) (snd task))
    (enumerate 1 [ "Android / Gradle"; "Node.js"; "Maven / Kotlin"; "Python";
                   "Rust (Cargo)"; "Go"; "System Temp" ])
  ++ closing_lines 0.

End Residue.
Import Residue.

(* ================================================================== *)
(** * Sample worlds *)
(* ================================================================== *)

(** A sample tree: a project with a build directory, under a home
    directory, and a temporary directory. *)
Definition sample_fs : node :=
  Dir None
    [ ("home", Dir None
        [ ("u", Dir None
            [ ("proj", Dir None
                [ ("notes.txt", File 10 None None);
                  ("build", Dir None
                     [ ("x.o", File 2048 None None);
                       ("obj", Dir None
                          [ ("y.o", File 5 None None);
                            ("z.o", File 7 None None) ]) ]);
                  ("dist", Dir None
                     [ ("a.whl", File 300 None None);
                       ("b.whl", File 4 None (Some EACCES));
                       ("c.whl", File 50 None None) ]);
                  ("target", Dir None
                     [ ("debug", Dir None
                          [ ("app", File 900 None (Some EBUSY));
                            ("app.d", File 20 None None) ]);
                       ("CACHEDIR.TAG", File 43 None None) ]);
                  ("venv", Dir None
                     [ ("lib", Dir None
                          [ ("site.py", File 77 (Some EACCES) (Some EACCES)) ]) ]);
                  ("bin", Dir None
                     [ ("tool", File 100 None None);
                       ("tool.dbg", File 20 None None);
                       ("tool.map", File 3 None None) ]);
                  ("Makefile", File 120 None None) ]) ]) ]);
      ("tmp", Dir None [ ("t1", File 3 None None) ]) ].

Definition sample_world : world :=
  mkWorld sample_fs ["home"; "u"; "proj"] [].

(** An environment in which neither [TEMP] nor [TMP] is set, and where
    no user is called after a backslash: [expanduser] leaves the Windows
    paths of the catalogue as they are. *)
Definition sample_env : environ :=
  mkEnviron ["home"; "u"] (fun _ => None) (fun s => s).

(** A working directory that is no project: none of the catalogue's
    directories is there. *)
Definition job_world : world :=
  mkWorld
    (Dir None
       [ ("srv", Dir None
           [ ("job", Dir None
               [ ("a.txt", File 10 None None);
                 ("src", Dir None [ ("main.c", File 5 None None) ]) ]) ]) ])
    ["srv"; "job"] [].

(** A working directory that holds two files and nothing else. *)
Definition flat_world : world :=
  mkWorld
    (Dir None
       [ ("srv", Dir None
           [ ("job", Dir None (flat_dir [("a.bin", 3%N); ("b.bin", 4%N)])) ]) ])
    ["srv"; "job"] [].

(** A working directory that holds only empty files. *)
Definition idle_world : world :=
  mkWorld
    (Dir None
       [ ("srv", Dir None
           [ ("job", Dir None
               [ ("run.lock", File 0 None None);
                 ("logs", Dir None [ ("out.log", File 0 None None) ]) ]) ]) ])
    ["srv"; "job"] [].


(* ================================================================== *)
(** * Facts about directory trees *)
(* ================================================================== *)

Section TreeFacts.

Implicit Types (es pre post : list (string * node)) (n m c : node).
Implicit Types (p q : list string) (name : string) (v : option node).

Lemma find_entry_app_notin name pre es :
  ~ In name (map fst pre) ->
  find_entry name (pre ++ es) = find_entry name es.
Proof.
  induction pre as [|[n c] pre IH]; simpl; intros Hn; [reflexivity|].
  destruct (String.eqb_spec n name) as [->|_].
  - exfalso. apply Hn. now left.
  - apply IH. intros H. apply Hn. now right.
Qed.

Lemma find_entry_here name c es : find_entry name ((name, c) :: es) = Some c.
Proof. simpl. now rewrite String.eqb_refl. Qed.

Lemma find_entry_In name c es : find_entry name es = Some c -> In (name, c) es.
Proof.
  induction es as [|[n c'] es IH]; simpl; [discriminate|].
  destruct (String.eqb_spec n name) as [->|_].
  - intros [= ->]. now left.
  - intros H. right. now apply IH.
Qed.

Lemma find_entry_None name es :
  find_entry name es = None -> ~ In name (map fst es).
Proof.
  induction es as [|[n c'] es IH]; simpl; [tauto|].
  destruct (String.eqb_spec n name) as [->|Hne]; [discriminate|].
  intros H [E|HIn]; [now apply Hne | now apply IH].
Qed.

(** A name that is found splits the entries around its first occurrence. *)
Lemma find_entry_split name c es :
  find_entry name es = Some c ->
  exists pre post,
    es = pre ++ (name, c) :: post /\ ~ In name (map fst pre).
Proof.
  induction es as [|[n c'] es IH]; simpl; [discriminate|].
  destruct (String.eqb_spec n name) as [->|Hne].
  - intros [= ->]. exists [], es. split; [reflexivity | simpl; tauto].
  - intros H. destruct (IH H) as (pre & post & -> & Hpre).
    exists ((n, c') :: pre), post. split; [reflexivity|].
    simpl. intros [E|HIn]; [now apply Hne | now apply Hpre].
Qed.

Lemma put_entry_app_notin name v pre es :
  ~ In name (map fst pre) ->
  put_entry name v (pre ++ es) = pre ++ put_entry name v es.
Proof.
  induction pre as [|[n c] pre IH]; simpl; intros Hn; [reflexivity|].
  destruct (String.eqb_spec n name) as [->|_].
  - exfalso. apply Hn. now left.
  - f_equal. apply IH. intros H. apply Hn. now right.
Qed.

Lemma put_entry_id name c es :
  find_entry name es = Some c -> put_entry name (Some c) es = es.
Proof.
  induction es as [|[n c'] es IH]; simpl; [reflexivity|].
  destruct (String.eqb_spec n name) as [->|_].
  - now intros [= ->].
  - intros H. f_equal. now apply IH.
Qed.

Lemma put_entry_twice name v c es :
  put_entry name v (put_entry name (Some c) es) = put_entry name v es.
Proof.
  induction es as [|[n c'] es IH]; simpl; [reflexivity|].
  destruct (String.eqb_spec n name) as [->|Hne]; simpl.
  - now rewrite String.eqb_refl.
  - destruct (String.eqb_spec n name) as [E|_]; [contradiction|].
    now rewrite IH.
Qed.

Lemma find_entry_put_same name c c0 es :
  find_entry name es = Some c0 ->
  find_entry name (put_entry name (Some c) es) = Some c.
Proof.
  induction es as [|[n c'] es IH]; simpl; [discriminate|].
  destruct (String.eqb_spec n name) as [->|Hne]; simpl.
  - now rewrite String.eqb_refl.
  - destruct (String.eqb_spec n name) as [E|_]; [contradiction|]. exact IH.
Qed.

Lemma put_entry_absent name v es :
  find_entry name es = None -> put_entry name v es = es.
Proof.
  induction es as [|[n c'] es IH]; simpl; [reflexivity|].
  destruct (String.eqb_spec n name) as [->|_]; [discriminate|].
  intros H. f_equal. now apply IH.
Qed.

(** ** Names listed once *)

Lemma names_unique_NoDup es :
  names_unique es = true <-> NoDup (map fst es).
Proof.
  induction es as [|[n c] es IH]; simpl.
  - split; [constructor | reflexivity].
  - destruct (find_entry n es) as [c'|] eqn:E.
    + split; [discriminate|]. intros H. inversion H as [|? ? Hn _]; subst.
      exfalso. apply Hn. apply find_entry_In in E.
      now apply (in_map fst) in E.
    + rewrite IH. split.
      * intros H. constructor; [now apply find_entry_None | exact H].
      * intros H. now inversion H.
Qed.

Lemma find_entry_removed name es :
  NoDup (map fst es) -> find_entry name (put_entry name None es) = None.
Proof.
  induction es as [|[n c] es IH]; simpl; intros H; [reflexivity|].
  inversion H as [|? ? Hn Hes]; subst.
  destruct (String.eqb_spec n name) as [->|Hne]; simpl.
  - destruct (find_entry name es) as [c'|] eqn:E; [|reflexivity].
    exfalso. apply Hn. apply find_entry_In in E.
    now apply (in_map fst) in E.
  - destruct (String.eqb_spec n name) as [E|_]; [contradiction|].
    now apply IH.
Qed.

Lemma wf_Dir flt es :
  wf (Dir flt es) = true ->
  NoDup (map fst es) /\ forall name c, In (name, c) es -> wf c = true.
Proof.
  simpl. rewrite andb_true_iff, names_unique_NoDup, forallb_forall.
  intros [Hu Hc]. split; [exact Hu|].
  intros name c HIn. exact (Hc (name, c) HIn).
Qed.

(** ** [lookup] and [put] *)

Lemma lookup_cons name p flt es :
  lookup (name :: p) (Dir flt es) =
  match find_entry name es with Some c => lookup p c | None => None end.
Proof. reflexivity. Qed.

Lemma put_one name v flt es :
  put [name] v (Dir flt es) = Dir flt (put_entry name v es).
Proof. reflexivity. Qed.

Lemma put_cons name name' p v flt es :
  put (name :: name' :: p) v (Dir flt es) =
  match find_entry name es with
  | Some c => Dir flt (put_entry name (Some (put (name' :: p) v c)) es)
  | None => Dir flt es
  end.
Proof. reflexivity. Qed.

Lemma lookup_app p q n :
  lookup (p ++ q) n =
  match lookup p n with Some m => lookup q m | None => None end.
Proof.
  revert n. induction p as [|name p IH]; intros n; [reflexivity|].
  destruct n as [sz sf uf|flt es]; [reflexivity|].
  rewrite <- app_comm_cons, !lookup_cons.
  destruct (find_entry name es) as [c|]; [apply IH | reflexivity].
Qed.

Lemma lookup_put_same p m m0 n :
  lookup p n = Some m0 -> lookup p (put p (Some m) n) = Some m.
Proof.
  revert n. induction p as [|name p IH]; intros n; [reflexivity|].
  destruct n as [sz sf uf|flt es]; [discriminate|].
  rewrite lookup_cons.
  destruct (find_entry name es) as [c|] eqn:E; [|discriminate].
  intros H. destruct p as [|name' p'].
  - rewrite put_one, lookup_cons.
    now rewrite (find_entry_put_same name m c es E).
  - rewrite put_cons, E, lookup_cons.
    rewrite (find_entry_put_same name _ c es E). now apply IH.
Qed.

Lemma put_lookup_id p m n : lookup p n = Some m -> put p (Some m) n = n.
Proof.
  revert n. induction p as [|name p IH]; intros n.
  - now intros [= ->].
  - destruct n as [sz sf uf|flt es]; [discriminate|].
    rewrite lookup_cons.
    destruct (find_entry name es) as [c|] eqn:E; [|discriminate].
    intros H. destruct p as [|name' p'].
    + injection H as ->. now rewrite put_one, put_entry_id.
    + rewrite put_cons, E, (IH c H). now rewrite put_entry_id.
Qed.

(** Replacing a directory and then one of its entries is replacing the
    directory once. *)
Lemma put_child p name v flt es n :
  lookup p n = Some (Dir flt es) ->
  put (p ++ [name]) v n = put p (Some (Dir flt (put_entry name v es))) n.
Proof.
  revert n. induction p as [|name' p IH]; intros n.
  - now intros [= ->].
  - destruct n as [sz sf uf|flt' es']; [discriminate|].
    rewrite lookup_cons.
    destruct (find_entry name' es') as [c|] eqn:E; [|discriminate].
    intros H. destruct p as [|name'' p'].
    + injection H as ->. cbn [app]. now rewrite put_cons, E, put_one.
    + rewrite <- !app_comm_cons, !put_cons, E.
      rewrite app_comm_cons. now rewrite (IH c H).
Qed.

Lemma put_twice p v m n :
  (p <> [] \/ v <> None) ->
  put p v (put p (Some m) n) = put p v n.
Proof.
  revert n. induction p as [|name p IH]; intros n Hpv.
  - destruct v; [reflexivity|]. destruct Hpv; congruence.
  - destruct n as [sz sf uf|flt es]; [reflexivity|].
    destruct p as [|name' p'].
    + now rewrite !put_one, put_entry_twice.
    + rewrite (put_cons name name' p' (Some m)).
      destruct (find_entry name es) as [c|] eqn:E.
      * rewrite !put_cons, E.
        rewrite (find_entry_put_same name _ c es E).
        rewrite put_entry_twice. rewrite IH; [reflexivity|].
        left. discriminate.
      * reflexivity.
Qed.

Lemma lookup_removed p n :
  wf n = true -> p <> [] -> lookup p (put p None n) = None.
Proof.
  revert n. induction p as [|name p IH]; intros n Hwf Hp; [congruence|].
  destruct n as [sz sf uf|flt es]; [reflexivity|].
  destruct (wf_Dir _ _ Hwf) as [Hu Hc].
  destruct p as [|name' p'].
  - rewrite put_one, lookup_cons. now rewrite find_entry_removed.
  - rewrite put_cons.
    destruct (find_entry name es) as [c|] eqn:E.
    + rewrite lookup_cons, (find_entry_put_same name _ c es E).
      apply IH; [|discriminate]. apply (Hc name). now apply find_entry_In.
    + now rewrite lookup_cons, E.
Qed.

Lemma wf_lookup p n m : wf n = true -> lookup p n = Some m -> wf m = true.
Proof.
  revert n. induction p as [|name p IH]; intros n Hwf; simpl.
  - now intros [= ->].
  - destruct n as [sz sf uf|flt es]; [discriminate|].
    destruct (find_entry name es) as [c|] eqn:E; [|discriminate].
    apply IH. destruct (wf_Dir _ _ Hwf) as [_ Hc].
    apply (Hc name). now apply find_entry_In.
Qed.

(** ** Heights *)

Lemma height_Dir flt es :
  height (Dir flt es) =
  S (fold_right (fun e h => Nat.max (height (snd e)) h) O es).
Proof.
  simpl. f_equal. induction es as [|[n c] es IH]; simpl; congruence.
Qed.

Lemma height_entry name c flt es :
  In (name, c) es -> (height c < height (Dir flt es))%nat.
Proof.
  rewrite height_Dir. induction es as [|[n c'] es IH]; simpl; [tauto|].
  intros [[= -> ->]|HIn]; [lia|]. specialize (IH HIn). lia.
Qed.

Lemma height_lookup p n m : lookup p n = Some m -> (height m <= height n)%nat.
Proof.
  revert n. induction p as [|name p IH]; intros n; simpl.
  - intros [= ->]. lia.
  - destruct n as [sz sf uf|flt es]; [discriminate|].
    destruct (find_entry name es) as [c|] eqn:E; [|discriminate].
    intros H. apply IH in H. apply find_entry_In in E.
    apply (height_entry _ _ flt) in E. lia.
Qed.

End TreeFacts.

(* ================================================================== *)
(** * The walk, one directory at a time *)
(* ================================================================== *)

Lemma OSError_of_caught e : caught (OSError_of e) [PermissionError; OSError] = true.
Proof. now destruct e. Qed.

Lemma OSError_of_caught' e : caught (OSError_of e) [OSError; PermissionError] = true.
Proof. now destruct e. Qed.

Lemma OSError_of_is_os_error e : caught (OSError_of e) [OSError] = true.
Proof. now destruct e. Qed.

(** ** The queries of [pathlib], by what the path leads to *)

Lemma exists_at p w :
  exists_ p w
  = (match node_at w p with
     | None => Ok false
     | Some (File _ (Some e) _) =>
         if ignore_error (OSError_of e) then Ok false else Raise (OSError_of e)
     | Some _ => Ok true
     end, w).
Proof.
  unfold exists_, stat_query, stat.
  destruct (node_at w p) as [[sz [e|] uf|flt es]|]; try reflexivity.
  destruct e; reflexivity.
Qed.

Lemma is_file_at p w :
  is_file p w
  = (match node_at w p with
     | None => Ok false
     | Some (File _ (Some e) _) =>
         if ignore_error (OSError_of e) then Ok false else Raise (OSError_of e)
     | Some (File _ None _) => Ok true
     | Some (Dir _ _) => Ok false
     end, w).
Proof.
  unfold is_file, stat_query, stat.
  destruct (node_at w p) as [[sz [e|] uf|flt es]|]; try reflexivity.
  destruct e; reflexivity.
Qed.

Lemma is_dir_at p w :
  is_dir p w
  = (match node_at w p with
     | None => Ok false
     | Some (File _ (Some e) _) =>
         if ignore_error (OSError_of e) then Ok false else Raise (OSError_of e)
     | Some (File _ None _) => Ok false
     | Some (Dir _ _) => Ok true
     end, w).
Proof.
  unfold is_dir, stat_query, stat.
  destruct (node_at w p) as [[sz [e|] uf|flt es]|]; try reflexivity.
  destruct e; reflexivity.
Qed.

Lemma stat_st_size_stat p w :
  stat_st_size p w
  = match stat p w with
    | (Ok st, w') => (Ok (snd st), w')
    | (Raise e, w') => (Raise e, w')
    end.
Proof.
  unfold stat_st_size, stat.
  now destruct (node_at w p) as [[sz [e|] uf|flt es]|].
Qed.

Lemma resolve_joinpath w root name :
  resolve w (joinpath root name) = resolve w root ++ [name].
Proof.
  unfold resolve, joinpath. simpl.
  destruct (anchored root); [reflexivity | now rewrite app_assoc].
Qed.

Lemma with_dir_same w p d :
  node_at w p = Some d -> with_dir w (resolve w p) d [] = w.
Proof.
  unfold node_at, with_dir. intros H.
  rewrite (put_lookup_id _ _ _ H), app_nil_r. now destruct w.
Qed.

Section InDirectory.

(** The walk is in the directory [root] of [w0], whose node is being
    rewritten. *)
Variables (w0 : world) (root : Path) (flt : option errno) (m0 : node).
Hypothesis Hroot : node_at w0 root = Some m0.

Let P := resolve w0 root.

Lemma node_at_child name cur out :
  node_at (with_dir w0 P (Dir flt cur) out) (joinpath root name)
  = find_entry name cur.
Proof.
  unfold node_at. rewrite resolve_joinpath.
  change (resolve (with_dir w0 P (Dir flt cur) out) root) with P.
  change (fs (with_dir w0 P (Dir flt cur) out))
    with (put P (Some (Dir flt cur)) (fs w0)).
  rewrite lookup_app, (lookup_put_same P _ m0 _ Hroot), lookup_cons.
  now destruct (find_entry name cur).
Qed.

Lemma put_child_fs name v cur out :
  let w := with_dir w0 P (Dir flt cur) out in
  put (resolve w (joinpath root name)) v (fs w)
  = put P (Some (Dir flt (put_entry name v cur))) (fs w0).
Proof.
  intros w. rewrite resolve_joinpath.
  change (resolve w root) with P.
  change (fs w) with (put P (Some (Dir flt cur)) (fs w0)).
  rewrite (put_child P name v flt cur)
    by apply (lookup_put_same P _ m0 _ Hroot).
  now rewrite put_twice by (right; discriminate).
Qed.

Lemma put_at_child name v cur out :
  let w := with_dir w0 P (Dir flt cur) out in
  set_fs w (put (resolve w (joinpath root name)) v (fs w))
  = with_dir w0 P (Dir flt (put_entry name v cur)) out.
Proof. intros w. unfold set_fs. subst w. now rewrite put_child_fs. Qed.

Lemma print_in_dir line d out :
  print line (with_dir w0 P d out) = (Ok tt, with_dir w0 P d (out ++ [line])).
Proof. unfold print, with_dir. simpl. now rewrite app_assoc. Qed.

(** A walk into a subdirectory rewrites that entry. *)
Lemma with_dir_child name cur out d out' :
  let w := with_dir w0 P (Dir flt cur) out in
  with_dir w (resolve w (joinpath root name)) d out'
  = with_dir w0 P (Dir flt (put_entry name (Some d) cur)) (out ++ out').
Proof.
  intros w. unfold with_dir at 1. subst w. rewrite put_child_fs.
  unfold with_dir. simpl. now rewrite app_assoc.
Qed.

(** *** The [try] statement for one file *)
Lemma remove_file_in_dir name c cur out total_freed :
  find_entry name cur = Some c ->
  is_file_node c = true ->
  remove_file (joinpath root name) total_freed (with_dir w0 P (Dir flt cur) out)
  = (Ok (total_freed + file_freed c),
     with_dir w0 P (Dir flt (put_entry name (file_left c) cur))
       (out ++ file_lines (joinpath root name) c)).
Proof.
  intros Hc Hfile. destruct c as [sz sf uf|f E]; [clear Hfile|discriminate].
  unfold remove_file, try_except, bind at 1, stat_st_size.
  rewrite node_at_child, Hc.
  destruct sf as [e|].
  - (* stat fails *)
    rewrite OSError_of_caught. unfold bind, ret.
    rewrite print_in_dir. simpl file_left. simpl file_freed.
    rewrite (put_entry_id _ _ _ Hc), Z.add_0_r. reflexivity.
  - unfold bind at 1. rewrite print_in_dir.
    unfold bind at 1, unlink. rewrite node_at_child, Hc.
    destruct uf as [e|].
    + (* unlink fails *)
      rewrite OSError_of_caught. unfold bind, ret.
      rewrite print_in_dir. simpl file_left. simpl file_freed.
      rewrite (put_entry_id _ _ _ Hc), Z.add_0_r, <- app_assoc. reflexivity.
    + rewrite (put_at_child name None cur). reflexivity.
Qed.

(** *** The [try] statement for one subdirectory *)
Lemma remove_folder_in_dir name c cur out :
  find_entry name cur = Some c ->
  is_dir_node c = true ->
  remove_folder (joinpath root name) (with_dir w0 P (Dir flt cur) out)
  = (Ok tt,
     with_dir w0 P (Dir flt (put_entry name (folder_left c) cur))
       (out ++ folder_lines (joinpath root name) c)).
Proof.
  intros Hc Hdir. destruct c as [sz sf uf|f E]; [discriminate|clear Hdir].
  unfold remove_folder, try_except, bind at 1, rmdir.
  rewrite node_at_child, Hc.
  replace (parts (joinpath root name)) with (parts root ++ [name]) by reflexivity.
  destruct (parts root ++ [name]) as [|x xs] eqn:Ex;
    [now destruct (parts root)|].
  simpl folder_left. simpl folder_lines.
  destruct (rmdir_error f E) as [e|].
  - rewrite OSError_of_caught'. rewrite print_in_dir.
    now rewrite (put_entry_id _ _ _ Hc).
  - rewrite (put_at_child name None cur). now rewrite print_in_dir.
Qed.

(** *** A loop over the entries of the directory

    A loop over the names [sel] selects, whose body rewrites the entry it
    is given with [T], prints [L] and counts [A], rewrites them all. *)
Section Loop.

Variables (sel : node -> bool) (T : node -> option node).
Variables (L : Path -> node -> list string) (A : node -> Z).
Variable ok : node -> Prop.
Variable body : string -> Z -> M Z.

Hypothesis body_step : forall name c cur out acc,
  find_entry name cur = Some c -> sel c = true -> ok c ->
  body name acc (with_dir w0 P (Dir flt cur) out)
  = (Ok (acc + A c),
     with_dir w0 P (Dir flt (put_entry name (T c) cur))
       (out ++ L (joinpath root name) c)).

Lemma loop_in_dir es : forall pre out acc,
  NoDup (map fst (pre ++ es)) ->
  (forall name c, In (name, c) es -> ok c) ->
  for_ (names_on sel es) body acc (with_dir w0 P (Dir flt (pre ++ es)) out)
  = (Ok (acc + sum_on sel A es),
     with_dir w0 P (Dir flt (pre ++ on_entries sel T es))
       (out ++ lines_on sel L root es)).
Proof.
  induction es as [|[name c] es IH]; intros pre out acc Hu Hok.
  - simpl. unfold ret. now rewrite Z.add_0_r, !app_nil_r.
  - assert (Hpre : ~ In name (map fst pre)).
    { rewrite map_app in Hu. simpl in Hu. apply NoDup_remove_2 in Hu.
      intros H. apply Hu. apply in_or_app. now left. }
    assert (Hu' : NoDup (map fst (pre ++ es))).
    { rewrite map_app in Hu |- *. simpl in Hu. now apply NoDup_remove_1 in Hu. }
    assert (Hok' : forall name c, In (name, c) es -> ok c).
    { intros n' c' H. apply (Hok n'). now right. }
    unfold names_on. simpl filter. simpl on_entries. simpl lines_on.
    simpl sum_on. destruct (sel c) eqn:Hsel.
    + simpl map. simpl for_. unfold bind at 1.
      rewrite (body_step name c (pre ++ (name, c) :: es) out acc).
      * rewrite put_entry_app_notin by exact Hpre.
        simpl put_entry. rewrite String.eqb_refl.
        destruct (T c) as [c'|].
        -- replace (pre ++ (name, c') :: es) with ((pre ++ [(name, c')]) ++ es)
             by now rewrite <- app_assoc.
           fold (names_on sel es). rewrite IH.
           ++ rewrite <- !app_assoc, Z.add_assoc. reflexivity.
           ++ rewrite <- app_assoc. simpl.
              rewrite map_app in Hu |- *. exact Hu.
           ++ exact Hok'.
        -- fold (names_on sel es). rewrite IH by assumption.
           rewrite <- !app_assoc, Z.add_assoc. reflexivity.
      * rewrite find_entry_app_notin by exact Hpre. apply find_entry_here.
      * exact Hsel.
      * apply (Hok name). now left.
    + replace (pre ++ (name, c) :: es) with ((pre ++ [(name, c)]) ++ es)
        by now rewrite <- app_assoc.
      fold (names_on sel es). rewrite IH.
      * now rewrite <- !app_assoc.
      * now rewrite <- app_assoc.
      * exact Hok'.
Qed.

End Loop.

End InDirectory.

(** ** The passes and the names they leave *)

Section Passes.

Implicit Types (es : list (string * node)).

Lemma scandir_dirs es :
  map fst (filter snd (map (fun e => (fst e, is_dir_node (snd e))) es))
  = names_on is_dir_node es.
Proof.
  unfold names_on. induction es as [|[n c] es IH]; simpl; [reflexivity|].
  destruct (is_dir_node c); simpl; now rewrite IH.
Qed.

Lemma scandir_nondirs es :
  map fst (filter (fun e => negb (snd e))
             (map (fun e => (fst e, is_dir_node (snd e))) es))
  = names_on is_file_node es.
Proof.
  unfold names_on, is_file_node.
  induction es as [|[n c] es IH]; simpl; [reflexivity|].
  destruct (is_dir_node c); simpl; now rewrite IH.
Qed.

Lemma is_dir_walked c : is_dir_node (walked c) = is_dir_node c.
Proof. now destruct c. Qed.

Lemma NoDup_on_entries sel T es :
  NoDup (map fst es) -> NoDup (map fst (on_entries sel T es)).
Proof.
  assert (Hin : forall es name,
             In name (map fst (on_entries sel T es)) -> In name (map fst es)).
  { clear. induction es as [|[n c] es IH]; simpl; intros name; [tauto|].
    destruct (sel c); [destruct (T c)|]; simpl; intuition auto. }
  induction es as [|[n c] es IH]; simpl; intros H; [constructor|].
  inversion H as [|? ? Hn Hes]; subst.
  destruct (sel c); [destruct (T c)|]; simpl; auto;
    constructor; auto.
Qed.

(** The walks into the subdirectories leave the files as they are. *)
Lemma names_files_walked_into es :
  names_on is_file_node (walked_into es) = names_on is_file_node es.
Proof.
  unfold names_on, walked_into, is_file_node.
  induction es as [|[n c] es IH]; simpl; [reflexivity|].
  destruct (is_dir_node c) eqn:E; simpl.
  - now rewrite is_dir_walked, E.
  - rewrite E. simpl. now rewrite IH.
Qed.

Lemma names_dirs_walked_into es :
  names_on is_dir_node (walked_into es) = names_on is_dir_node es.
Proof.
  unfold names_on, walked_into.
  induction es as [|[n c] es IH]; simpl; [reflexivity|].
  destruct (is_dir_node c) eqn:E; simpl.
  - rewrite is_dir_walked, E. simpl. now rewrite IH.
  - now rewrite E.
Qed.

Lemma lines_files_walked_into L root es :
  lines_on is_file_node L root (walked_into es) = lines_on is_file_node L root es.
Proof.
  unfold walked_into, is_file_node.
  induction es as [|[n c] es IH]; simpl; [reflexivity|].
  destruct (is_dir_node c) eqn:E; simpl.
  - now rewrite is_dir_walked, E.
  - rewrite E. simpl. now rewrite IH.
Qed.

Lemma sum_files_walked_into A es :
  sum_on is_file_node A (walked_into es) = sum_on is_file_node A es.
Proof.
  unfold walked_into, is_file_node.
  induction es as [|[n c] es IH]; simpl; [reflexivity|].
  destruct (is_dir_node c) eqn:E; simpl.
  - now rewrite is_dir_walked, E.
  - rewrite E. simpl. now rewrite IH.
Qed.

(** The loop over the files leaves the subdirectories as they are. *)
Lemma names_dirs_files_gone es :
  names_on is_dir_node (files_gone es) = names_on is_dir_node es.
Proof.
  unfold names_on, files_gone, is_file_node.
  induction es as [|[n c] es IH]; simpl; [reflexivity|].
  destruct c as [sz [e|] uf|f E]; simpl; try exact IH.
  - destruct uf; simpl; exact IH.
  - now rewrite IH.
Qed.

Lemma lines_dirs_files_gone L root es :
  lines_on is_dir_node L root (files_gone es) = lines_on is_dir_node L root es.
Proof.
  unfold files_gone, is_file_node.
  induction es as [|[n c] es IH]; simpl; [reflexivity|].
  destruct c as [sz [e|] uf|f E]; simpl; try exact IH.
  - destruct uf; simpl; exact IH.
  - now rewrite IH.
Qed.

Lemma sum_on_zero sel es : sum_on sel (fun _ => 0) es = 0.
Proof.
  induction es as [|[n c] es IH]; simpl; [reflexivity|].
  destruct (sel c); simpl; exact IH.
Qed.

End Passes.

(** ** The bottom-up walk of [delete_path_verbose] *)

Lemma walk_bottom_up fuel : forall top w flt es total_freed,
  node_at w top = Some (Dir flt es) ->
  wf (Dir flt es) = true ->
  (height (Dir flt es) <= fuel)%nat ->
  os_walk_rec fuel top false delete_walk_body total_freed w
  = (Ok (total_freed + freed_entries es),
     with_dir w (resolve w top) (Dir flt (walked_entries es))
       (log_entries top es)).
Proof.
  induction fuel as [|fuel IH]; intros top w flt es acc Hnode Hwf Hh.
  { rewrite height_Dir in Hh. lia. }
  destruct (wf_Dir _ _ Hwf) as [Hu Hc].
  cbn [os_walk_rec]. unfold scandir. rewrite Hnode. cbv zeta.
  rewrite scandir_dirs, scandir_nondirs. cbv iota.
  set (P := resolve w top).
  (* the subdirectories *)
  assert (Hinto : forall name c cur out acc,
    find_entry name cur = Some c -> is_dir_node c = true ->
    (wf c = true /\ (height c <= fuel)%nat) ->
    os_walk_rec fuel (joinpath top name) false delete_walk_body acc
      (with_dir w P (Dir flt cur) out)
    = (Ok (acc + walk_freed c),
       with_dir w P (Dir flt (put_entry name (Some (walked c)) cur))
         (out ++ walk_log (joinpath top name) c))).
  { intros name c cur out acc' Hfind Hdir [Hwfc Hhc].
    destruct c as [sz sf uf|f E]; [discriminate|].
    rewrite (IH (joinpath top name) _ f E acc'); trivial.
    - unfold P. now rewrite (with_dir_child w top flt (Dir flt es) Hnode).
    - unfold P. now rewrite (node_at_child w top flt (Dir flt es) Hnode). }
  assert (Hok : forall name c, In (name, c) es ->
                  wf c = true /\ (height c <= fuel)%nat).
  { intros name c HIn. split; [now apply (Hc name)|].
    apply (height_entry _ _ flt) in HIn. lia. }
  pose proof (loop_in_dir w top flt
                is_dir_node (fun c => Some (walked c)) walk_log walk_freed
                (fun c => wf c = true /\ (height c <= fuel)%nat)
                (fun name =>
                   os_walk_rec fuel (joinpath top name) false delete_walk_body)
                Hinto es [] [] acc Hu Hok) as H1.
  fold P in H1. cbn [app] in H1.
  unfold bind at 1.
  rewrite <- (with_dir_same w top (Dir flt es) Hnode) at 1. fold P.
  rewrite H1. clear H1.
  (* the files *)
  unfold delete_walk_body, bind at 1.
  pose proof (loop_in_dir w top flt
                is_file_node file_left file_lines file_freed (fun _ => True)
                (fun name total_freed => remove_file (joinpath top name) total_freed)
                (fun name c cur out acc' Hf Hs _ =>
                   remove_file_in_dir w top flt (Dir flt es) Hnode
                     name c cur out acc' Hf Hs)
                (walked_into es) []
                (lines_on is_dir_node walk_log top es)
                (acc + sum_on is_dir_node walk_freed es)) as H2.
  fold P in H2. cbn [app] in H2.
  rewrite names_files_walked_into, lines_files_walked_into,
    sum_files_walked_into in H2.
  fold (walked_into es).
  rewrite H2; [clear H2 | now apply NoDup_on_entries | trivial].
  (* the subdirectories, now walked *)
  pose proof (loop_in_dir w top flt
                is_dir_node folder_left folder_lines (fun _ => 0) (fun _ => True)
                (fun name total_freed =>
                   bind (remove_folder (joinpath top name))
                        (fun _ => ret total_freed))) as H3.
  fold P in H3.
  specialize (H3 (fun name c cur out acc' Hf Hs _ =>
     eq_trans
       (f_equal (fun r => match r with
                          | (Ok a, w') => (fun _ => ret acc') a w'
                          | (Raise e, w') => (Raise e, w')
                          end)
          (remove_folder_in_dir w top flt (Dir flt es) Hnode name c cur out Hf Hs))
       (f_equal (fun z => (Ok z, _)) (eq_sym (Z.add_0_r acc'))))).
  specialize (H3 (files_gone (walked_into es)) []
                (lines_on is_dir_node walk_log top es
                 ++ lines_on is_file_node file_lines top es)
                (acc + sum_on is_dir_node walk_freed es
                 + sum_on is_file_node file_freed es)).
  cbn [app] in H3.
  rewrite names_dirs_files_gone, names_dirs_walked_into,
    lines_dirs_files_gone, sum_on_zero in H3.
  fold (files_gone (walked_into es)).
  rewrite H3;
    [clear H3 | now do 2 apply NoDup_on_entries | trivial].
  unfold freed_entries, walked_entries, log_entries, folders_gone.
  rewrite Z.add_0_r, Z.add_assoc, <- app_assoc. reflexivity.
Qed.

(** ** Induction on trees *)

Lemma node_induction (P : node -> Prop) :
  (forall sz sf uf, P (File sz sf uf)) ->
  (forall flt es, Forall (fun e => P (snd e)) es -> P (Dir flt es)) ->
  forall n, P n.
Proof.
  intros HF HD. fix IH 1. intros [sz sf uf|flt es]; [apply HF|].
  apply HD. induction es as [|[name c] es IHes]; constructor;
    [apply IH | exact IHes].
Qed.

(** ** [shutil.rmtree] with [ignore_errors=True] *)

Lemma rmtree_node_Dir ignore_errors flt es :
  rmtree_node ignore_errors (Dir flt es) =
  match rmtree_entries ignore_errors es with
  | (Some e, es') => (Some e, Some (Dir flt es'))
  | (None, es') =>
      match rmdir_error flt es' with
      | None => (None, None)
      | Some e => (if ignore_errors then None else Some e, Some (Dir flt es'))
      end
  end.
Proof. reflexivity. Qed.

Lemma rmtree_entries_cons ignore_errors name c es :
  rmtree_entries ignore_errors ((name, c) :: es) =
  match rmtree_node ignore_errors c with
  | (Some e, Some c') => (Some e, (name, c') :: es)
  | (Some e, None) => (Some e, es)
  | (None, kept) =>
      let (err, rest) := rmtree_entries ignore_errors es in
      (err, match kept with
            | Some c' => (name, c') :: rest
            | None => rest
            end)
  end.
Proof. reflexivity. Qed.

Lemma rmtree_node_ignores n : fst (rmtree_node true n) = None.
Proof.
  induction n as [sz sf uf|flt es IH] using node_induction.
  - now destruct uf.
  - rewrite rmtree_node_Dir.
    assert (H : fst (rmtree_entries true es) = None).
    { induction IH as [|[name c] es Hc _ IHes]; [reflexivity|].
      rewrite rmtree_entries_cons. simpl in Hc.
      destruct (rmtree_node true c) as [err kept]. simpl in Hc. subst err.
      now destruct (rmtree_entries true es). }
    destruct (rmtree_entries true es) as [err es']. simpl in H. subst err.
    now destruct (rmdir_error flt es').
Qed.

Lemma rmtree_entries_ignores es : fst (rmtree_entries true es) = None.
Proof.
  induction es as [|[name c] es IH]; [reflexivity|].
  rewrite rmtree_entries_cons.
  pose proof (rmtree_node_ignores c) as Hc.
  destruct (rmtree_node true c) as [err kept]. simpl in Hc. subst err.
  now destruct (rmtree_entries true es).
Qed.

(** [shutil.rmtree(path, ignore_errors=True)] never raises. *)
Lemma rmtree_never_raises path w : fst (rmtree path true w) = Ok tt.
Proof.
  unfold rmtree. destruct (node_at w path) as [[sz sf uf|flt es]|];
    [reflexivity| |reflexivity].
  pose proof (rmtree_entries_ignores es) as H.
  destruct (rmtree_entries true es) as [err es']. simpl in H. subst err.
  unfold try_except, rmdir.
  match goal with |- context [node_at ?w' path] =>
    destruct (node_at w' path) as [[sz sf uf|flt' es'']|] end;
    try reflexivity.
  destruct (parts path).
  - now rewrite OSError_of_is_os_error.
  - destruct (rmdir_error flt' es''); [now rewrite OSError_of_is_os_error|].
    reflexivity.
Qed.

(** ** [delete_path_verbose] on a directory *)

Lemma parts_resolve w path : parts path <> [] -> resolve w path <> [].
Proof.
  unfold resolve. destruct (anchored path); [trivial|].
  intros H E. apply app_eq_nil in E. now destruct E.
Qed.

Theorem delete_directory w path flt es :
  node_at w path = Some (Dir flt es) ->
  wf (fs w) = true ->
  delete_path_verbose path w
  = (Ok (freed_entries es),
     mkWorld (put (resolve w path) (after_delete path flt es) (fs w))
       (cwd w)
       (stdout w ++ log_entries path es ++ [msg_removing_root path])).
Proof.
  intros Hnode Hwf.
  assert (Hl : lookup (resolve w path) (fs w) = Some (Dir flt es)) by exact Hnode.
  unfold delete_path_verbose, bind at 1. rewrite exists_at, Hnode. cbn [negb].
  unfold bind at 1. rewrite is_file_at, Hnode.
  unfold bind at 1. rewrite is_dir_at, Hnode.
  unfold bind at 1, os_walk.
  rewrite (walk_bottom_up _ path w flt es 0 Hnode).
  2: { now apply (wf_lookup _ _ _ Hwf Hl). }
  2: { apply height_lookup in Hl. lia. }
  rewrite Z.add_0_l.
  set (P := resolve w path) in *.
  set (E1 := walked_entries es).
  unfold bind at 1, try_except, bind at 1, rmtree.
  assert (Hn1 : forall E out,
             node_at (with_dir w P (Dir flt E) out) path = Some (Dir flt E)).
  { intros E out. unfold node_at. change (resolve _ path) with P.
    apply (lookup_put_same P _ _ _ Hl). }
  assert (Hput : forall E E' out,
             set_fs (with_dir w P (Dir flt E) out)
               (put (resolve (with_dir w P (Dir flt E) out) path)
                  (Some (Dir flt E')) (fs (with_dir w P (Dir flt E) out)))
             = with_dir w P (Dir flt E') out).
  { intros E E' out. unfold set_fs. change (resolve _ path) with P.
    unfold with_dir. simpl. rewrite put_twice by (right; discriminate).
    reflexivity. }
  rewrite Hn1.
  pose proof (rmtree_entries_ignores E1) as Hign.
  unfold after_delete. fold E1.
  destruct (rmtree_entries true E1) as [err E2]. simpl in Hign. subst err.
  cbn [snd]. rewrite Hput.
  unfold try_except, rmdir. rewrite Hn1.
  destruct (parts path) as [|x xs] eqn:Eparts.
  - rewrite OSError_of_is_os_error. unfold ret, print, bind, with_dir. simpl.
    now rewrite <- app_assoc.
  - destruct (rmdir_error flt E2) as [e|].
    + rewrite OSError_of_is_os_error. unfold ret, print, bind, with_dir. simpl.
      now rewrite <- app_assoc.
    + unfold set_fs, ret, print, bind, with_dir. simpl.
      change (resolve _ path) with P.
      rewrite put_twice, <- app_assoc; [reflexivity|].
      left. apply parts_resolve. rewrite Eparts. discriminate.
Qed.

(* ================================================================== *)
(** * What the walk leaves, counts and prints *)
(* ================================================================== *)

Section OutcomeFacts.

Implicit Types (es pre post : list (string * node)) (n c : node).

Lemma walked_Dir flt es : walked (Dir flt es) = Dir flt (walked_entries es).
Proof. reflexivity. Qed.

Lemma walk_freed_Dir flt es : walk_freed (Dir flt es) = freed_entries es.
Proof. reflexivity. Qed.

Lemma walk_log_Dir top flt es : walk_log top (Dir flt es) = log_entries top es.
Proof. reflexivity. Qed.

Lemma walked_entries_cons name c es :
  walked_entries ((name, c) :: es) =
  match entry_left c with
  | Some c' => (name, c') :: walked_entries es
  | None => walked_entries es
  end.
Proof.
  unfold walked_entries, folders_gone, files_gone, walked_into, entry_left.
  destruct c as [sz sf uf|flt E].
  - cbn [on_entries is_dir_node is_file_node negb].
    destruct (file_left (File sz sf uf)) as [c'|] eqn:E; [|reflexivity].
    assert (c' = File sz sf uf) as ->.
    { destruct sf, uf; simpl in E; congruence. }
    reflexivity.
  - cbn [on_entries is_dir_node is_file_node negb].
    rewrite walked_Dir. cbn [is_file_node is_dir_node negb on_entries].
    now destruct (folder_left (Dir flt (walked_entries E))).
Qed.

Lemma walked_entries_app es es' :
  walked_entries (es ++ es') = walked_entries es ++ walked_entries es'.
Proof.
  induction es as [|[name c] es IH]; [reflexivity|].
  rewrite <- app_comm_cons, !walked_entries_cons, IH.
  now destruct (entry_left c).
Qed.

Lemma sum_on_app sel A es es' :
  sum_on sel A (es ++ es') = sum_on sel A es + sum_on sel A es'.
Proof.
  induction es as [|[name c] es IH]; simpl; [reflexivity|].
  destruct (sel c); lia.
Qed.

Lemma lines_on_app sel L root es es' :
  lines_on sel L root (es ++ es')
  = lines_on sel L root es ++ lines_on sel L root es'.
Proof.
  induction es as [|[name c] es IH]; simpl; [reflexivity|].
  destruct (sel c); [now rewrite IH, app_assoc | exact IH].
Qed.

Lemma on_entries_app sel T es es' :
  on_entries sel T (es ++ es') = on_entries sel T es ++ on_entries sel T es'.
Proof.
  induction es as [|[name c] es IH]; simpl; [reflexivity|].
  destruct (sel c); [destruct (T c)|]; simpl; now rewrite IH.
Qed.

Lemma freed_entries_cons name c es :
  freed_entries ((name, c) :: es) = entry_freed c + freed_entries es.
Proof.
  unfold freed_entries, entry_freed, is_file_node. simpl.
  destruct (is_dir_node c); simpl; lia.
Qed.

Lemma freed_entries_app es es' :
  freed_entries (es ++ es') = freed_entries es + freed_entries es'.
Proof. unfold freed_entries. rewrite !sum_on_app. lia. Qed.

Lemma tree_size_Dir flt es :
  tree_size (Dir flt es) = sum_on (fun _ => true) tree_size es.
Proof. reflexivity. Qed.

(** ** Which lines are skip notices *)

Lemma is_skip_removing_file p size : is_skip (msg_removing_file p size) = false.
Proof. reflexivity. Qed.

Lemma is_skip_skipped p : is_skip (msg_skipped p) = true.
Proof. reflexivity. Qed.

Lemma is_skip_removing_folder p : is_skip (msg_removing_folder p) = false.
Proof. reflexivity. Qed.

Lemma is_skip_removing_root p : is_skip (msg_removing_root p) = false.
Proof. reflexivity. Qed.

(** The skip notices of a walk, by pass. *)
Lemma skips_log_entries top es :
  filter is_skip (log_entries top es)
  = filter is_skip (lines_on is_dir_node walk_log top es)
    ++ filter is_skip (lines_on is_file_node file_lines top es)
    ++ filter is_skip (lines_on is_dir_node folder_lines top (walked_into es)).
Proof. unfold log_entries. now rewrite !filter_app. Qed.

(** ** A tree without faults *)

Lemma fault_free_walk n :
  fault_free n = true ->
  entry_left n = None /\
  entry_freed n = tree_size n /\
  (forall p, is_dir_node n = false ->
             filter is_skip (file_lines p n) = []) /\
  (forall top, filter is_skip (walk_log top n) = []) /\
  (forall p, is_dir_node n = true ->
             filter is_skip (folder_lines p (walked n)) = []).
Proof.
  induction n as [sz sf uf|flt es IH] using node_induction; intros Hff.
  - destruct sf, uf; try discriminate. repeat split; try reflexivity.
    intros p [=].
  - destruct flt as [e|]; [discriminate|]. cbn [fault_free] in Hff.
    assert (H : walked_entries es = [] /\
                freed_entries es = sum_on (fun _ => true) tree_size es /\
                forall top, filter is_skip (log_entries top es) = []).
    { induction IH as [|[name c] es Hc _ IHes].
      - repeat split; reflexivity.
      - cbn [forallb snd] in Hff. apply andb_true_iff in Hff as [Hffc Hffes].
        cbn [snd] in Hc.
        destruct (Hc Hffc) as (Hl & Hf & Hfl & Hwl & Hdl).
        destruct (IHes Hffes) as (IH1 & IH2 & IH3).
        rewrite walked_entries_cons, Hl, freed_entries_cons, Hf, IH2.
        repeat split; trivial.
        intros top. specialize (IH3 top).
        rewrite skips_log_entries in IH3 |- *.
        apply app_eq_nil in IH3 as [I1 I2]. apply app_eq_nil in I2 as [I2 I3].
        unfold walked_into in *. cbn [lines_on on_entries].
        unfold is_file_node in *.
        destruct (is_dir_node c) eqn:Edir; cbn [negb].
        + cbn [lines_on]. rewrite is_dir_walked, Edir.
          rewrite !filter_app, Hwl, I1, I2, Hdl, I3; trivial.
        + cbn [lines_on]. rewrite Edir.
          rewrite !filter_app, Hfl, I1, I2, I3; trivial. }
    destruct H as (H1 & H2 & H3).
    unfold entry_left, entry_freed. cbn [is_dir_node].
    rewrite walked_Dir, H1, walk_freed_Dir, H2. repeat split; trivial.
    intros p [=].
Qed.

Lemma all_fault_free_walk es :
  all_fault_free es = true ->
  walked_entries es = [] /\
  freed_entries es = sum_on (fun _ => true) tree_size es /\
  (forall top, filter is_skip (log_entries top es) = []).
Proof.
  intros H.
  destruct (fault_free_walk (Dir None es) H) as (H1 & H2 & _ & H4 & _).
  unfold entry_left, entry_freed in *. cbn [is_dir_node] in *.
  rewrite walked_Dir in H1. rewrite walk_freed_Dir in H2.
  repeat split; trivial.
  unfold folder_left in H1.
  destruct (walked_entries es); [reflexivity | discriminate].
Qed.

End OutcomeFacts.

Create Rewrite HintDb notices.
#[local] Hint Rewrite is_skip_removing_file is_skip_skipped
  is_skip_removing_folder is_skip_removing_root : notices.

(* ================================================================== *)
(** * Theorems about the cleaner *)
(* ================================================================== *)

Lemma wf_world_inv w :
  wf_world w = true -> is_dir_node (fs w) = true /\ wf (fs w) = true.
Proof. unfold wf_world. now rewrite andb_true_iff. Qed.

(** ** Paths that do not exist *)

(** C5.  For every path that does not exist, [get_size] and
    [delete_path_verbose] both return 0: they return normally, print
    nothing and leave the file system as it is. *)
Theorem C5_missing_path_is_zero (w : world) (P : Path) :
  node_at w P = None ->
  get_size P w = (Ok 0, w) /\ delete_path_verbose P w = (Ok 0, w).
Proof.
  intros H. unfold get_size, delete_path_verbose, bind.
  rewrite exists_at, H. split; reflexivity.
Qed.

Lemma C5_missing_path_witness :
  node_at sample_world (Path_of_str "node_modules") = None /\
  (get_size (Path_of_str "node_modules") sample_world = (Ok 0, sample_world) /\
   delete_path_verbose (Path_of_str "node_modules") sample_world
   = (Ok 0, sample_world)).
Proof.
  split; [reflexivity|].
  apply (C5_missing_path_is_zero sample_world (Path_of_str "node_modules")).
  reflexivity.
Defined.

(** ** One regular file *)

(** What [delete_path_verbose] does to a regular file, by the faults of
    [stat] and [unlink].  A failure of [stat] shows at [path.exists()],
    before the [try] statement is reached. *)
Lemma delete_regular_file (w : world) (path : Path) (sz : N)
    (sf uf : option errno) :
  node_at w path = Some (File sz sf uf) ->
  delete_path_verbose path w
  = match sf, uf with
    | None, None =>
        (Ok (Z.of_N sz),
         mkWorld (put (resolve w path) None (fs w)) (cwd w)
           (stdout w ++ [msg_removing_file path (Z.of_N sz)]))
    | None, Some _ =>
        (Ok 0,
         mkWorld (fs w) (cwd w)
           (stdout w ++ [msg_removing_file path (Z.of_N sz); msg_skipped path]))
    | Some e, _ =>
        if ignore_error (OSError_of e) then (Ok 0, w)
        else (Raise (OSError_of e), w)
    end.
Proof.
  intros Hnode. unfold delete_path_verbose, bind at 1.
  rewrite exists_at, Hnode.
  destruct sf as [e|]; [now destruct (ignore_error (OSError_of e))|].
  cbn [negb]. unfold bind at 1. rewrite is_file_at, Hnode.
  unfold remove_file, try_except, bind, stat_st_size, unlink, print, ret,
    set_fs, node_at, resolve in *.
  destruct uf as [e|];
    repeat (cbv beta iota; cbn [fs cwd stdout negb]; rewrite ?Hnode;
            rewrite ?OSError_of_caught);
    rewrite ?Z.add_0_l, <- ?app_assoc; reflexivity.
Qed.

(** C6.  [delete_path_verbose] wraps [stat] and [unlink] in a [try]
    statement that turns their failures into a skip notice, but asks
    [path.exists()] and [path.is_file()] before it, and both call [stat]:
    for a regular file on which [stat] is refused, the error escapes at
    [path.exists()] and nothing is printed.  On [venv/lib/site.py] the
    call raises [PermissionError]; the walk of [venv], in the other branch
    of the same function, meets the same file inside its [try] statement
    and skips it with a notice.  A file [stat] does not find is taken for
    absent: 0 and no notice.  Without such a failure the call does what
    the specification says: the file is unlinked and its size returned, or
    [unlink] fails, the skip notice is printed last and 0 returned. *)
Theorem C6_refused_stat_escapes :
  (forall w path sz sf uf,
      wf_world w = true ->
      node_at w path = Some (File sz sf uf) ->
      match sf, uf with
      | None, None =>
          exists w',
            delete_path_verbose path w = (Ok (Z.of_N sz), w') /\
            node_at w' path = None /\
            stdout w' = stdout w ++ [msg_removing_file path (Z.of_N sz)]
      | None, Some _ =>
          delete_path_verbose path w
          = (Ok 0, mkWorld (fs w) (cwd w)
                     (stdout w ++ [msg_removing_file path (Z.of_N sz);
                                   msg_skipped path]))
      | Some e, _ =>
          delete_path_verbose path w
          = if ignore_error (OSError_of e) then (Ok 0, w)
            else (Raise (OSError_of e), w)
      end) /\
  node_at sample_world (Path_of_str "venv/lib/site.py")
  = Some (File 77 (Some EACCES) (Some EACCES)) /\
  delete_path_verbose (Path_of_str "venv/lib/site.py") sample_world
  = (Raise PermissionError, sample_world) /\
  delete_path_verbose (Path_of_str "venv") sample_world
  = (Ok 0,
     mkWorld (fs sample_world) (cwd sample_world)
       [ msg_skipped (Path_of_str "venv/lib/site.py");
         msg_skipped (Path_of_str "venv/lib");
         msg_removing_root (Path_of_str "venv") ]).
Proof.
  split.
  { intros w path sz sf uf Hw Hnode. apply wf_world_inv in Hw as [Hroot Hwf].
    assert (Hne : resolve w path <> []).
    { intros E. unfold node_at in Hnode. rewrite E in Hnode.
      injection Hnode as E'. rewrite E' in Hroot. discriminate. }
    rewrite (delete_regular_file w path sz sf uf Hnode).
    destruct sf as [e|]; [reflexivity|]. destruct uf as [e|]; [reflexivity|].
    eexists. split; [reflexivity|]. split; [|reflexivity].
    unfold node_at. cbn [fs cwd].
    change (resolve _ path) with (resolve w path).
    now apply lookup_removed. }
  split; [reflexivity|].
  split; vm_compute; reflexivity.
Qed.

(** A locked file is skipped, and the file stays. *)
Example delete_locked_file :
  delete_path_verbose (Path_of_str "dist/b.whl") sample_world
  = (Ok 0, mkWorld sample_fs ["home"; "u"; "proj"]
             [ "   Removing file: dist/b.whl (4.0B)";
               "   [SKIPPED] In use or access denied: dist/b.whl" ]).
Proof. reflexivity. Qed.

(** ** A directory without faults *)

Lemma tree_size_flat flt files :
  tree_size (Dir flt (flat_dir files)) = sum_sizes files.
Proof.
  rewrite tree_size_Dir. unfold flat_dir.
  induction files as [|[name sz] files IH]; [reflexivity|].
  cbn [map sum_on fst snd sum_sizes fold_right tree_size].
  fold (sum_sizes files). now rewrite IH.
Qed.

(** C1, as the code has it.  For a directory that contains only regular
    files and directories without faults, and has no fault of its own,
    [delete_path_verbose] returns the sum of the sizes of the files; for a
    directory of [N] regular files of sizes [s1 .. sN] that is
    [s1 + ... + sN].  Afterward the directory is absent when [path] names
    it.  When [path] is ["."] or ["/"] the final [rmtree] cannot remove the
    directory and keeps the error to itself: the directory stays, empty. *)
Theorem C1_directory_erased (w : world) (path : Path) (flt : option errno)
    (es : list (string * node)) :
  wf_world w = true ->
  node_at w path = Some (Dir flt es) ->
  fault_free (Dir flt es) = true ->
  exists w',
    delete_path_verbose path w = (Ok (tree_size (Dir flt es)), w') /\
    node_at w' path = match parts path with
                      | [] => Some (Dir flt [])
                      | _ :: _ => None
                      end /\
    (forall files, es = flat_dir files ->
                   tree_size (Dir flt es) = sum_sizes files).
Proof.
  intros Hw Hnode Hff. apply wf_world_inv in Hw as [_ Hwf].
  destruct flt as [e|]; [discriminate|].
  destruct (all_fault_free_walk es Hff) as (Hleft & Hfreed & _).
  rewrite (delete_directory w path None es Hnode Hwf).
  eexists. split; [|split].
  - rewrite Hfreed. reflexivity.
  - unfold node_at, after_delete. cbn [fs cwd].
    change (resolve _ path) with (resolve w path).
    rewrite Hleft. cbn [rmtree_entries snd].
    destruct (parts path) eqn:E.
    + now apply (lookup_put_same _ _ (Dir None es)).
    + cbn [rmdir_error]. apply lookup_removed; [exact Hwf|].
      apply parts_resolve. rewrite E. discriminate.
  - intros files ->. apply tree_size_flat.
Qed.

Lemma C1_directory_erased_witness :
  wf_world sample_world = true /\
  node_at sample_world (Path_of_str "bin")
  = Some (Dir None (flat_dir [("tool", 100%N); ("tool.dbg", 20%N);
                              ("tool.map", 3%N)])) /\
  exists w',
    delete_path_verbose (Path_of_str "bin") sample_world = (Ok (100 + 20 + 3), w')
    /\ node_at w' (Path_of_str "bin") = None
    /\ (forall files,
          flat_dir [("tool", 100%N); ("tool.dbg", 20%N); ("tool.map", 3%N)]
          = flat_dir files ->
          100 + 20 + 3 = sum_sizes files).
Proof.
  split; [reflexivity|]. split; [reflexivity|].
  apply (C1_directory_erased sample_world (Path_of_str "bin") None
           (flat_dir [("tool", 100%N); ("tool.dbg", 20%N); ("tool.map", 3%N)]));
    reflexivity.
Defined.

(** C1 as the specification states it fails for the working directory,
    which the script does erase, as [Path("")], when [TEMP] or [TMP] is
    not set: its two files are unlinked and their sizes returned, and the
    directory is still there. *)
Lemma C1_working_directory_stays :
  node_at flat_world (Path_of_str "")
  = Some (Dir None (flat_dir [("a.bin", 3%N); ("b.bin", 4%N)])) /\
  fault_free (Dir None (flat_dir [("a.bin", 3%N); ("b.bin", 4%N)])) = true /\
  delete_path_verbose (Path_of_str "") flat_world
  = (Ok (3 + 4),
     mkWorld (Dir None [("srv", Dir None [("job", Dir None [])])])
       ["srv"; "job"]
       [ "   Removing file: a.bin (3.0B)";
         "   Removing file: b.bin (4.0B)";
         "   Removing root folder: ." ]) /\
  node_at (snd (delete_path_verbose (Path_of_str "") flat_world))
    (Path_of_str "")
  <> None.
Proof.
  split; [reflexivity|]. split; [reflexivity|].
  split; [vm_compute; reflexivity|].
  vm_compute. discriminate.
Qed.

(** ** A directory with one locked file *)

Section OneLockedFile.

Implicit Types (es pre post : list (string * node)) (c : node).

Lemma joinpaths_joinpath top name q :
  joinpaths (joinpath top name) q = joinpaths top (name :: q).
Proof. unfold joinpaths, joinpath. simpl. now rewrite <- app_assoc. Qed.

Lemma enclosing_cons name name' q :
  enclosing (name :: name' :: q)
  = map (cons name) (enclosing (name' :: q)) ++ [[name]].
Proof. reflexivity. Qed.

Lemma all_fault_free_app es es' :
  all_fault_free (es ++ es') = all_fault_free es && all_fault_free es'.
Proof. apply forallb_app. Qed.

(** Around one entry [c], the other entries being without faults, the
    walk leaves, counts and skips what it does for [c]. *)
Lemma walk_around name c pre post :
  all_fault_free pre = true -> all_fault_free post = true ->
  let es := pre ++ (name, c) :: post in
  walked_entries es
  = match entry_left c with Some c' => [(name, c')] | None => [] end
  /\ freed_entries es - entry_freed c + tree_size c
     = sum_on (fun _ => true) tree_size es
  /\ forall top,
       filter is_skip (log_entries top es)
       = if is_dir_node c
         then filter is_skip (walk_log (joinpath top name) c)
              ++ filter is_skip (folder_lines (joinpath top name) (walked c))
         else filter is_skip (file_lines (joinpath top name) c).
Proof.
  intros Hpre Hpost es.
  destruct (all_fault_free_walk pre Hpre) as (P1 & P2 & P3).
  destruct (all_fault_free_walk post Hpost) as (Q1 & Q2 & Q3).
  subst es. repeat split.
  - rewrite walked_entries_app, walked_entries_cons, P1, Q1.
    now destruct (entry_left c).
  - rewrite freed_entries_app, freed_entries_cons, P2, Q2.
    rewrite sum_on_app. cbn [sum_on]. lia.
  - intros top. specialize (P3 top). specialize (Q3 top).
    rewrite skips_log_entries in P3, Q3 |- *.
    apply app_eq_nil in P3 as [P3a P3]. apply app_eq_nil in P3 as [P3b P3c].
    apply app_eq_nil in Q3 as [Q3a Q3]. apply app_eq_nil in Q3 as [Q3b Q3c].
    unfold walked_into in *. rewrite on_entries_app, !lines_on_app.
    cbn [lines_on on_entries]. unfold is_file_node in *.
    destruct (is_dir_node c) eqn:Edir; cbn [negb lines_on].
    + rewrite is_dir_walked, Edir, !filter_app.
      rewrite P3a, P3b, P3c, Q3a, Q3b, Q3c.
      now rewrite !app_nil_r.
    + rewrite Edir, !filter_app.
      rewrite P3a, P3b, P3c, Q3a, Q3b, Q3c.
      now rewrite !app_nil_r.
Qed.

Lemma locked_at_inv name q' flt es :
  locked_at (name :: q') (Dir flt es) = true ->
  flt = None /\
  exists c pre post,
    es = pre ++ (name, c) :: post /\
    find_entry name es = Some c /\
    all_fault_free pre = true /\ all_fault_free post = true /\
    match q' with
    | [] => exists sz sf e, c = File sz sf (Some e)
    | _ :: _ => exists f E, c = Dir f E /\ locked_at q' c = true
    end.
Proof.
  cbn [locked_at]. destruct flt as [e|]; [discriminate|].
  destruct (find_entry name es) as [c|] eqn:Hfind; [|discriminate].
  intros H. apply andb_true_iff in H as [Hc Hothers]. split; [reflexivity|].
  destruct (find_entry_split _ _ _ Hfind) as (pre & post & -> & Hpre).
  rewrite put_entry_app_notin in Hothers by exact Hpre.
  cbn [put_entry] in Hothers. rewrite String.eqb_refl in Hothers.
  fold (all_fault_free (pre ++ post)) in Hothers.
  rewrite all_fault_free_app in Hothers.
  apply andb_true_iff in Hothers as [H1 H2].
  exists c, pre, post. repeat split; trivial.
  destruct q' as [|n2 q''].
  - destruct c as [sz sf [e'|]|f E]; try discriminate. now exists sz, sf, e'.
  - destruct c as [sz sf uf|f E]; [discriminate|]. now exists f, E.
Qed.

Lemma locked_walk q : forall flt es,
  locked_at q (Dir flt es) = true ->
  Dir flt (walked_entries es) = spine q (Dir flt es)
  /\ walked_entries es <> []
  /\ rmtree_entries true (walked_entries es) = (None, walked_entries es)
  /\ freed_entries es = tree_size (Dir flt es) - size_at q (Dir flt es)
  /\ forall top,
       filter is_skip (log_entries top es)
       = msg_skipped (joinpaths top q)
         :: map (fun q' => msg_skipped (joinpaths top q')) (enclosing q).
Proof.
  induction q as [|name q' IH]; intros flt es Hlocked; [discriminate|].
  destruct (locked_at_inv _ _ _ _ Hlocked)
    as (-> & c & pre & post & Hes & Hfind & Hpre & Hpost & Hc).
  destruct (walk_around name c pre post Hpre Hpost) as (W1 & W2 & W3).
  rewrite <- Hes in W1, W2, W3.
  assert (Hsize : size_at (name :: q') (Dir None es) = size_at q' c).
  { unfold size_at. now rewrite lookup_cons, Hfind. }
  rewrite Hsize, tree_size_Dir, <- W2.
  cbn [spine]. rewrite Hfind.
  destruct q' as [|n2 q''].
  - destruct Hc as (sz & sf & e & ->).
    assert (Hleft : entry_left (File sz sf (Some e)) = Some (File sz sf (Some e)))
      by now destruct sf.
    rewrite Hleft in W1.
    rewrite W1. repeat split; try reflexivity; try discriminate.
    + unfold size_at, entry_freed. destruct sf; simpl; lia.
    + intros top. rewrite W3. now destruct sf.
  - destruct Hc as (f & E & -> & HlockedE).
    destruct (IH f E HlockedE) as (I1 & I2 & I3 & I4 & I5).
    assert (Hleft : entry_left (Dir f E) = Some (Dir f (walked_entries E))).
    { unfold entry_left. cbn [is_dir_node]. rewrite walked_Dir.
      unfold folder_left. destruct (walked_entries E); [congruence|].
      now destruct f. }
    rewrite Hleft in W1. rewrite W1, I1. repeat split; try discriminate.
    + rewrite <- I1. unfold rmtree_entries. fold (rmtree_entries true).
      rewrite rmtree_node_Dir, I3.
      destruct (walked_entries E); [congruence|]. now destruct f.
    + unfold entry_freed. cbn [is_dir_node]. rewrite walk_freed_Dir, I4. lia.
    + intros top. rewrite W3. cbn [is_dir_node].
      rewrite walk_log_Dir, I5, walked_Dir.
      unfold folder_lines. 
      replace (rmdir_error f (walked_entries E)) with
        (Some (match f with Some e => e | None => ENOTEMPTY end))
        by (destruct (walked_entries E); [congruence | now destruct f]).
      cbn [filter]. autorewrite with notices.
      rewrite enclosing_cons, !map_app, !map_map. cbn [map app].
      rewrite joinpaths_joinpath. f_equal. f_equal.
      apply map_ext. intros q0. now rewrite joinpaths_joinpath.
Qed.

End OneLockedFile.

(** C2.  In a directory where one regular file, at [q], cannot be unlinked
    and nothing else has a fault, [delete_path_verbose] returns the sum of
    the sizes of the other files; it prints one skip notice for the locked
    file and, after it, one for each subdirectory that encloses the file
    (none when the file lies in the directory itself, so that the notice
    for the file is then the only one); and afterward the directory is
    still there and holds the locked file, with the directories that lead
    to it, and nothing else: every other file and directory was
    processed and removed. *)
Theorem C2_one_locked_file (w : world) (path : Path) (flt : option errno)
    (es : list (string * node)) (q : list string) :
  wf_world w = true ->
  node_at w path = Some (Dir flt es) ->
  locked_at q (Dir flt es) = true ->
  exists lines w',
    delete_path_verbose path w
    = (Ok (tree_size (Dir flt es) - size_at q (Dir flt es)), w') /\
    stdout w' = stdout w ++ lines /\
    filter is_skip lines
    = msg_skipped (joinpaths path q)
      :: map (fun q' => msg_skipped (joinpaths path q')) (enclosing q) /\
    (forall name, q = [name] -> count_skips lines = 1%nat) /\
    node_at w' path = Some (spine q (Dir flt es)) /\
    entries_of (spine q (Dir flt es)) <> [].
Proof.
  intros Hw Hnode Hlocked. apply wf_world_inv in Hw as [_ Hwf].
  destruct (locked_walk q flt es Hlocked) as (L1 & L2 & L3 & L4 & L5).
  rewrite (delete_directory w path flt es Hnode Hwf).
  assert (Hafter : after_delete path flt es = Some (spine q (Dir flt es))).
  { unfold after_delete. rewrite L3. cbn [snd]. rewrite <- L1.
    destruct (parts path); [reflexivity|].
    destruct (walked_entries es); [congruence|]. now destruct flt. }
  assert (Hskips : filter is_skip (log_entries path es ++ [msg_removing_root path])
                   = msg_skipped (joinpaths path q)
                     :: map (fun q' => msg_skipped (joinpaths path q'))
                          (enclosing q)).
  { rewrite filter_app, L5. cbn [filter]. autorewrite with notices.
    now rewrite app_nil_r. }
  exists (log_entries path es ++ [msg_removing_root path]). eexists.
  split; [rewrite L4; reflexivity|]. cbn [stdout fs cwd].
  split; [reflexivity|]. split; [exact Hskips|]. split; [|split].
  - intros name ->. unfold count_skips. now rewrite Hskips.
  - rewrite Hafter. unfold node_at. cbn [fs cwd].
    change (resolve _ path) with (resolve w path).
    apply (lookup_put_same _ _ _ _ Hnode).
  - rewrite <- L1. exact L2.
Qed.

Lemma C2_one_locked_file_witness :
  wf_world sample_world = true /\
  node_at sample_world (Path_of_str "dist")
  = Some (Dir None [ ("a.whl", File 300 None None);
                     ("b.whl", File 4 None (Some EACCES));
                     ("c.whl", File 50 None None) ]) /\
  exists lines w',
    delete_path_verbose (Path_of_str "dist") sample_world = (Ok (300 + 50), w')
    /\ stdout w' = stdout sample_world ++ lines
    /\ filter is_skip lines = [msg_skipped (Path_of_str "dist/b.whl")]
    /\ (forall name, ["b.whl"] = [name] -> count_skips lines = 1%nat)
    /\ node_at w' (Path_of_str "dist")
       = Some (Dir None [("b.whl", File 4 None (Some EACCES))])
    /\ [("b.whl", File 4 None (Some EACCES))] <> [].
Proof.
  split; [reflexivity|]. split; [reflexivity|].
  apply (C2_one_locked_file sample_world (Path_of_str "dist") None
           [ ("a.whl", File 300 None None);
             ("b.whl", File 4 None (Some EACCES));
             ("c.whl", File 50 None None) ] ["b.whl"]);
    reflexivity.
Defined.

(** The same with the locked file one directory down: the subdirectory
    that holds it cannot be removed either, and says so. *)
Example delete_around_nested_lock :
  delete_path_verbose (Path_of_str "target") sample_world
  = (Ok (20 + 43),
     mkWorld
       (put ["home"; "u"; "proj"; "target"]
          (Some (Dir None [("debug", Dir None
                              [("app", File 900 None (Some EBUSY))])]))
          sample_fs)
       ["home"; "u"; "proj"]
       [ "   Removing file: target/debug/app (900.0B)";
         "   [SKIPPED] In use or access denied: target/debug/app";
         "   Removing file: target/debug/app.d (20.0B)";
         "   Removing file: target/CACHEDIR.TAG (43.0B)";
         "   [SKIPPED] In use or access denied: target/debug";
         "   Removing root folder: target" ]).
Proof. reflexivity. Qed.

(** ** The removal of the root folder *)

Lemma filter_lines_on (f : string -> bool) sel L root es :
  (forall name c, In (name, c) es -> sel c = true ->
                  filter f (L (joinpath root name) c) = []) ->
  filter f (lines_on sel L root es) = [].
Proof.
  induction es as [|[name c] es IH]; intros H; [reflexivity|].
  cbn [lines_on]. destruct (sel c) eqn:E.
  - rewrite filter_app, (H name c (or_introl eq_refl) E). cbn [app].
    apply IH. intros n' c' HIn. apply H. now right.
  - apply IH. intros n' c' HIn. apply H. now right.
Qed.

Lemma no_root_skip_in_walk n : forall top,
  filter is_root_skip (walk_log top n) = [].
Proof.
  induction n as [sz sf uf|flt es IH] using node_induction; intros top;
    [reflexivity|].
  rewrite walk_log_Dir. unfold log_entries. rewrite !filter_app.
  rewrite !filter_lines_on; trivial.
  - intros name c _ _. unfold folder_lines.
    destruct c as [sz sf uf|f E]; [reflexivity|].
    now destruct (rmdir_error f E).
  - intros name c _ _. destruct c as [sz [e|] [e'|]|f E]; reflexivity.
  - intros name c HIn _. rewrite Forall_forall in IH.
    apply (IH (name, c) HIn).
Qed.

(** C10.  [shutil.rmtree(path, ignore_errors=True)] never raises; so for
    every existing directory [delete_path_verbose] returns, the last line
    it prints is "Removing root folder", and no line it prints is the
    notice of the [except] branch; this holds whether the directory is
    gone afterward ([after_delete] is [None]) or still there. *)
Theorem C10_root_removal_reported (w : world) (path : Path)
    (flt : option errno) (es : list (string * node)) :
  wf_world w = true ->
  node_at w path = Some (Dir flt es) ->
  (forall w0 p, fst (rmtree p true w0) = Ok tt) /\
  exists lines w',
    delete_path_verbose path w = (Ok (freed_entries es), w') /\
    stdout w' = stdout w ++ lines ++ [msg_removing_root path] /\
    filter is_root_skip (lines ++ [msg_removing_root path]) = [] /\
    node_at w' path = after_delete path flt es.
Proof.
  intros Hw Hnode. apply wf_world_inv in Hw as [_ Hwf].
  split; [intros w0 p; apply rmtree_never_raises|].
  rewrite (delete_directory w path flt es Hnode Hwf).
  exists (log_entries path es). eexists. split; [reflexivity|].
  cbn [stdout fs cwd]. split; [reflexivity|]. split.
  - rewrite filter_app, <- walk_log_Dir with (flt := flt).
    now rewrite no_root_skip_in_walk.
  - unfold node_at. cbn [fs cwd].
    change (resolve _ path) with (resolve w path).
    destruct (after_delete path flt es) as [d|] eqn:E.
    + apply (lookup_put_same _ _ _ _ Hnode).
    + apply lookup_removed; [exact Hwf|]. apply parts_resolve.
      unfold after_delete in E. now destruct (parts path).
Qed.

Lemma C10_root_removal_reported_witness :
  wf_world sample_world = true /\
  node_at sample_world (Path_of_str "venv")
  = Some (Dir None [("lib", Dir None
                       [("site.py", File 77 (Some EACCES) (Some EACCES))])]) /\
  (forall w0 p, fst (rmtree p true w0) = Ok tt) /\
  exists lines w',
    delete_path_verbose (Path_of_str "venv") sample_world = (Ok 0, w') /\
    stdout w' = stdout sample_world ++ lines
                ++ [msg_removing_root (Path_of_str "venv")] /\
    filter is_root_skip (lines ++ [msg_removing_root (Path_of_str "venv")]) = []
    /\ node_at w' (Path_of_str "venv")
       = Some (Dir None [("lib", Dir None
                            [("site.py", File 77 (Some EACCES) (Some EACCES))])]).
Proof.
  split; [reflexivity|]. split; [reflexivity|].
  apply (C10_root_removal_reported sample_world (Path_of_str "venv") None
           [("lib", Dir None
               [("site.py", File 77 (Some EACCES) (Some EACCES))])]);
    reflexivity.
Defined.

(** Nothing of [venv] could be removed, and the removal is reported all
    the same. *)
Example root_removal_reported_in_vain :
  delete_path_verbose (Path_of_str "venv") sample_world
  = (Ok 0,
     mkWorld sample_fs ["home"; "u"; "proj"]
       [ "   [SKIPPED] In use or access denied: venv/lib/site.py";
         "   [SKIPPED] In use or access denied: venv/lib";
         "   Removing root folder: venv" ]).
Proof. reflexivity. Qed.

(** ** The running total *)

Lemma bind_Ok {A B : Type} (m : M A) (k : A -> M B) w v w' :
  bind m k w = (Ok v, w') ->
  exists a w1, m w = (Ok a, w1) /\ k a w1 = (Ok v, w').
Proof.
  unfold bind. destruct (m w) as [[a|e] w1]; [|discriminate].
  intros H. now exists a, w1.
Qed.

Lemma try_except_Ok {A : Type} (body handler : M A) classes w v w' :
  try_except body classes handler w = (Ok v, w') ->
  body w = (Ok v, w') \/
  exists e w1, body w = (Raise e, w1) /\ handler w1 = (Ok v, w').
Proof.
  unfold try_except. destruct (body w) as [[a|e] w1].
  - intros H. now left.
  - destruct (caught e classes); [|discriminate].
    intros H. right. now exists e, w1.
Qed.


(** A step of a computation whose value does not matter. *)
Ltac skip_bind H :=
  let u := fresh "skipped" in
  let wu := fresh "wu" in
  let Hu := fresh "Hu" in
  apply bind_Ok in H as (u & wu & Hu & H); clear Hu.

Section Monotone.

(** A loop whose body never lowers the accumulator never lowers it. *)
Lemma for_monotone {A : Type} (body : A -> Z -> M Z) (xs : list A) :
  (forall x acc w v w', body x acc w = (Ok v, w') -> acc <= v) ->
  forall acc w v w', for_ xs body acc w = (Ok v, w') -> acc <= v.
Proof.
  intros Hbody. induction xs as [|x xs IH]; intros acc w v w' H.
  - injection H as <- _. lia.
  - cbn [for_] in H. apply bind_Ok in H as (a & w1 & H1 & H2).
    apply Hbody in H1. apply IH in H2. lia.
Qed.

Lemma stat_nonneg p w size w' : stat_st_size p w = (Ok size, w') -> 0 <= size.
Proof.
  unfold stat_st_size.
  destruct (node_at w p) as [[sz [e|] uf|f E]|]; try discriminate;
    intros [= <- _]; lia.
Qed.

Lemma remove_file_monotone p acc w v w' :
  remove_file p acc w = (Ok v, w') -> acc <= v.
Proof.
  unfold remove_file. intros H.
  apply try_except_Ok in H as [H|(e & w1 & _ & H)].
  - apply bind_Ok in H as (size & w1 & Hstat & H).
    apply stat_nonneg in Hstat.
    skip_bind H.
    skip_bind H.
    injection H as <- _. lia.
  - skip_bind H. injection H as <- _. lia.
Qed.

Lemma delete_walk_body_monotone root dirs files acc w v w' :
  delete_walk_body root dirs files acc w = (Ok v, w') -> acc <= v.
Proof.
  unfold delete_walk_body. intros H.
  apply bind_Ok in H as (a & w1 & H1 & H2).
  apply for_monotone in H1; [|intros; eapply remove_file_monotone; eassumption].
  apply for_monotone in H2; [lia|].
  intros x acc' w0 v0 w0' H. skip_bind H.
  injection H as <- _. lia.
Qed.

Lemma os_walk_rec_monotone
    (body : Path -> list string -> list string -> Z -> M Z) topdown :
  (forall root dirs files acc w v w',
      body root dirs files acc w = (Ok v, w') -> acc <= v) ->
  forall fuel top acc w v w',
    os_walk_rec fuel top topdown body acc w = (Ok v, w') -> acc <= v.
Proof.
  intros Hbody. induction fuel as [|fuel IH]; intros top acc w v w' H;
    [discriminate|].
  cbn [os_walk_rec] in H.
  destruct (scandir top w) as [[entries|e] w1].
  - cbv zeta in H. destruct topdown.
    + apply bind_Ok in H as (a & w2 & H1 & H2).
      apply Hbody in H1.
      apply for_monotone in H2; [lia|]. intros x; apply IH.
    + apply bind_Ok in H as (a & w2 & H1 & H2).
      apply Hbody in H2.
      apply for_monotone in H1; [lia|]. intros x; apply IH.
  - injection H as <- _. lia.
Qed.

Lemma delete_path_verbose_nonneg path w v w' :
  delete_path_verbose path w = (Ok v, w') -> 0 <= v.
Proof.
  unfold delete_path_verbose. intros H.
  apply bind_Ok in H as (e & w1 & _ & H).
  destruct e; cbn [negb] in H; [|injection H as <- _; lia].
  apply bind_Ok in H as (f & w2 & _ & H). destruct f.
  - now apply remove_file_monotone in H.
  - apply bind_Ok in H as (d & w3 & _ & H). destruct d.
    + apply bind_Ok in H as (a & w4 & H1 & H2).
      apply os_walk_rec_monotone in H1;
        [|intros; eapply delete_walk_body_monotone; eassumption].
      skip_bind H2. injection H2 as <- _. exact H1.
    + injection H as <- _. lia.
Qed.

Lemma clean_path_monotone p total_cleaned w total' w' :
  clean_path p total_cleaned w = (Ok total', w') -> total_cleaned <= total'.
Proof.
  unfold clean_path. intros H.
  apply bind_Ok in H as (e & w1 & _ & H).
  destruct e; [|injection H as <- _; lia].
  apply bind_Ok in H as (size_before & w2 & _ & H).
  destruct (size_before >? 0); [|injection H as <- _; lia].
  apply bind_Ok in H as (freed & w3 & Hfreed & H).
  apply delete_path_verbose_nonneg in Hfreed.
  skip_bind H. injection H as <- _. lia.
Qed.

Lemma clean_category_monotone total_tasks task total_cleaned w total' w' :
  clean_category total_tasks task total_cleaned w = (Ok total', w') ->
  total_cleaned <= total'.
Proof.
  destruct task as [i [label paths]]. unfold clean_category. intros H.
  skip_bind H.
  apply bind_Ok in H as (a & w2 & H1 & H).
  apply for_monotone in H1; [|intros x; apply clean_path_monotone].
  apply bind_Ok in H as (bar & w3 & _ & H).
  skip_bind H. injection H as <- _. exact H1.
Qed.

(** The bytes counted by the walk are those of the files it unlinked,
    each once. *)
Lemma walk_freed_unlinked n :
  entry_freed n = unlinked_size n.
Proof.
  induction n as [sz sf uf|flt es IH] using node_induction.
  - now destruct sf, uf.
  - unfold entry_freed. cbn [is_dir_node unlinked_size].
    rewrite walk_freed_Dir.
    induction IH as [|[name c] es Hc _ IHes]; [reflexivity|].
    rewrite freed_entries_cons, IHes. cbn [sum_on snd] in *. now rewrite Hc.
Qed.

End Monotone.

(** C9.  The total of bytes freed never decreases as paths are
    processed.  Every value [delete_path_verbose] returns is non-negative,
    so each step of the loops of [clean_all_verbose] (one path, the paths
    of a category, one category) leaves the running total at least what
    it was, and the total printed last is non-negative.  In a well-formed
    world [delete_path_verbose] does return, on every path but a regular
    file on which [stat] is refused (there the error escapes and nothing is
    counted), and what it returns is the sum, over the files it unlinked,
    of the size [stat] gave just before: each such file counts once. *)
Theorem C9_total_freed_never_decreases :
  (forall path w v w', delete_path_verbose path w = (Ok v, w') -> 0 <= v) /\
  (forall p total w total' w',
      clean_path p total w = (Ok total', w') -> total <= total') /\
  (forall paths total w total' w',
      for_ paths clean_path total w = (Ok total', w') -> total <= total') /\
  (forall total_tasks task total w total' w',
      clean_category total_tasks task total w = (Ok total', w') ->
      total <= total') /\
  (forall env w v w', clean_all_verbose env w = (Ok v, w') -> 0 <= v) /\
  (forall w path,
      wf_world w = true ->
      match refused_at w path with
      | Some e => delete_path_verbose path w = (Raise e, w)
      | None =>
          exists v w',
            delete_path_verbose path w = (Ok v, w') /\ 0 <= v /\
            v = match node_at w path with
                | Some n => unlinked_size n
                | None => 0
                end
      end).
Proof.
  split; [exact delete_path_verbose_nonneg|].
  split; [exact clean_path_monotone|].
  split; [intros paths; apply for_monotone; intros x; apply clean_path_monotone|].
  split; [exact clean_category_monotone|].
  split.
  - intros env w v w' H. unfold clean_all_verbose in H.
    apply bind_Ok in H as (a & w1 & H1 & H).
    apply for_monotone in H1; [|intros x; apply clean_category_monotone].
    skip_bind H.
    skip_bind H.
    skip_bind H. injection H as <- _. exact H1.
  - intros w path Hw. apply wf_world_inv in Hw as [_ Hwf].
    assert (H : match refused_at w path with
                | Some e => delete_path_verbose path w = (Raise e, w)
                | None =>
                    exists w',
                      delete_path_verbose path w
                      = (Ok (match node_at w path with
                             | Some n => unlinked_size n
                             | None => 0
                             end), w')
                end).
    { unfold refused_at.
      destruct (node_at w path) as [[sz sf uf|flt es]|] eqn:Hnode.
      - rewrite (delete_regular_file w path sz sf uf Hnode). cbn [refused].
        destruct sf as [e|];
          [destruct (ignore_error (OSError_of e)); [eexists|]; reflexivity|].
        destruct uf; eexists; reflexivity.
      - rewrite (delete_directory w path flt es Hnode Hwf).
        rewrite <- walk_freed_unlinked. unfold entry_freed. cbn [is_dir_node].
        rewrite walk_freed_Dir. eexists. reflexivity.
      - unfold delete_path_verbose, bind. rewrite exists_at, Hnode.
        eexists. reflexivity. }
    destruct (refused_at w path); [exact H|].
    destruct H as [w' H]. eexists. exists w'. split; [exact H|].
    split; [apply (delete_path_verbose_nonneg _ _ _ _ H) | reflexivity].
Qed.

(* ================================================================== *)
(** * Theorems about the report *)
(* ================================================================== *)

Section SizeofFmt.

Lemma shrink_num_den k : forall q,
  Qnum (shrink k q) = Qnum q /\
  Z.pos (Qden (shrink k q)) = Z.pos (Qden q) * 1024 ^ Z.of_nat k.
Proof.
  induction k as [|k IH]; intros q.
  - split; [reflexivity|]. cbn [shrink]. change (1024 ^ Z.of_nat 0) with 1. lia.
  - cbn [shrink]. destruct (IH (q / 1024)%Q) as [Hn Hd].
    rewrite Hn, Hd. destruct q as [a d].
    assert (E1 : Qnum ((a # d) / 1024)%Q = a * 1) by reflexivity.
    assert (E2 : Qden ((a # d) / 1024)%Q = (d * 1024)%positive) by reflexivity.
    rewrite E1, E2, Nat2Z.inj_succ, Z.pow_succ_r by lia.
    cbn [Qnum Qden]. split; lia.
Qed.

(** The test of the loop, on integers. *)
Lemma at_least_1024 k (n : Z) :
  Qle_bool 1024 (Qabs (shrink k (inject_Z n)))
  = (1024 ^ (Z.of_nat k + 1) <=? Z.abs n).
Proof.
  destruct (shrink_num_den k (inject_Z n)) as [Hn Hd].
  destruct (shrink k (inject_Z n)) as [a d]. cbn [Qnum Qden inject_Z] in *.
  subst a.
  change (Qle_bool 1024 (Qabs (n # d))) with (1024 * Z.pos d <=? Z.abs n * 1).
  rewrite Hd, Z.pow_add_r, Z.pow_1_r by lia.
  destruct (Z.leb_spec (1024 * (1 * 1024 ^ Z.of_nat k)) (Z.abs n * 1));
    destruct (Z.leb_spec (1024 ^ Z.of_nat k * 1024) (Z.abs n)); lia.
Qed.

(** The loop stops at the first unit for which the number is below 1024. *)
Lemma units_stop units : forall k q suffix,
  (k < List.length units)%nat ->
  (forall j, (j < k)%nat -> Qle_bool 1024 (Qabs (shrink j q)) = true) ->
  Qle_bool 1024 (Qabs (shrink k q)) = false ->
  sizeof_fmt_units units q suffix
  = fstr [format_1f (shrink k q); nth k units ""; suffix].
Proof.
  induction units as [|u units IH]; intros k q suffix Hk Hbefore Hstop;
    [cbn in Hk; lia|].
  cbn [sizeof_fmt_units]. destruct k as [|k].
  - cbn [shrink] in Hstop. now rewrite Hstop.
  - pose proof (Hbefore 0%nat ltac:(lia)) as H0. cbn [shrink] in H0.
    rewrite H0. cbn [negb nth shrink].
    apply IH; [cbn in Hk; lia | | exact Hstop].
    intros j Hj. apply (Hbefore (S j)). lia.
Qed.

(** Past the last unit the number is printed with [P], whatever it is. *)
Lemma units_exhausted units : forall q suffix,
  (forall j, (j < List.length units)%nat ->
             Qle_bool 1024 (Qabs (shrink j q)) = true) ->
  sizeof_fmt_units units q suffix
  = fstr [format_1f (shrink (List.length units) q); "P"; suffix].
Proof.
  induction units as [|u units IH]; intros q suffix Hall; [reflexivity|].
  cbn [sizeof_fmt_units].
  pose proof (Hall 0%nat ltac:(cbn; lia)) as H0. cbn [shrink] in H0.
  rewrite H0. cbn [negb List.length shrink]. apply IH.
  intros j Hj. apply (Hall (S j)). cbn. lia.
Qed.

End SizeofFmt.

(** C7, as the code has it: the unit is followed by the suffix ["B"],
    so the units read B, KB, MB, GB, TB and PB.  [sizeof_fmt] divides by
    1024 until the magnitude is below 1024, at most five times: a number
    with [1024^k <= |num| < 1024^(k+1)], [k <= 4], is printed as [num]
    divided [k] times by 1024, with one decimal, and the [k]-th unit; a
    number with [|num| >= 1024^5] is printed as [num] divided five times by
    1024, with one decimal, and [PB].  This holds of whole numbers below
    [2^53], which binary64 holds and divides by 1024 exactly; from [2^53]
    on the script's floats round [num] itself, and the digit printed can
    differ from that of [num / 1024^5]: for [8.25 * 1024^5 + 1] the script
    prints [8.2PB]. *)
Theorem C7_sizeof_fmt_units (num : Z) :
  (forall k : nat,
      (k <= 4)%nat ->
      (k = 0%nat \/ 1024 ^ Z.of_nat k <= Z.abs num) ->
      Z.abs num < 1024 ^ (Z.of_nat k + 1) ->
      sizeof_fmt (inject_Z num) "B"
      = fstr [format_1f (shrink k (inject_Z num));
              nth k [""; "K"; "M"; "G"; "T"] ""; "B"]) /\
  (1024 ^ 5 <= Z.abs num ->
   Z.abs num < 2 ^ 53 ->
   sizeof_fmt (inject_Z num) "B"
   = fstr [format_1f (shrink 5 (inject_Z num)); "P"; "B"]) /\
  sizeof_fmt64 (33 * 2 ^ 48 + 1) "B" = "8.2PB" /\
  fstr [format_1f (shrink 5 (inject_Z (33 * 2 ^ 48 + 1))); "P"; "B"] = "8.3PB" /\
  sizeof_fmt (inject_Z 0) "B" = "0.0B" /\
  sizeof_fmt (inject_Z 1024) "B" = "1.0KB" /\
  sizeof_fmt (inject_Z 1536) "B" = "1.5KB" /\
  sizeof_fmt (inject_Z (1024 ^ 4)) "B" = "1.0TB" /\
  sizeof_fmt (inject_Z (1024 ^ 5)) "B" = "1.0PB".
Proof.
  split; [|split; [|split; [vm_compute; reflexivity|repeat split; reflexivity]]].
  - intros k Hk Hlow Hhigh. unfold sizeof_fmt.
    apply units_stop; [cbn; lia | |].
    + intros j Hj. rewrite at_least_1024. apply Z.leb_le.
      destruct Hlow as [->|Hlow]; [lia|].
      apply Z.le_trans with (1024 ^ Z.of_nat k); [|exact Hlow].
      apply Z.pow_le_mono_r; lia.
    + rewrite at_least_1024. apply Z.leb_gt. exact Hhigh.
  - intros Hbig _. unfold sizeof_fmt.
    apply (units_exhausted [""; "K"; "M"; "G"; "T"]).
    intros j Hj. cbn in Hj. rewrite at_least_1024. apply Z.leb_le.
    apply Z.le_trans with (1024 ^ 5); [|exact Hbig].
    apply Z.pow_le_mono_r; lia.
Qed.

(** C7 as the specification states it fails: the code prints [1.0KB]
    for 1024, not [1.0K]. *)
Lemma C7_units_carry_suffix_B :
  sizeof_fmt (inject_Z 1024) "B" = "1.0KB" /\
  sizeof_fmt (inject_Z 1024) "B" <> "1.0K".
Proof. split; [reflexivity | discriminate]. Qed.

(** Ties go to the even digit, and the last unit takes any magnitude. *)
Example sizeof_fmt_more :
  sizeof_fmt (inject_Z 1280) "B" = "1.2KB" /\
  sizeof_fmt (inject_Z 1023) "B" = "1023.0B" /\
  sizeof_fmt (inject_Z (1024 ^ 2 - 1)) "B" = "1024.0KB" /\
  sizeof_fmt (inject_Z (1024 ^ 6)) "B" = "1024.0PB".
Proof. repeat split; reflexivity. Qed.

(** On binary64 floats the loop prints the same. *)
Example sizeof_fmt_on_floats :
  map (fun num => sizeof_fmt64 num "B")
      [0; 1; 999; 1023; 1024; 1280; 1536; 2068; 1048575; 1048576;
       123456789; 1024 ^ 3 - 1; 1024 ^ 4; 1024 ^ 5; 1024 ^ 5 - 1;
       2 ^ 53 - 1; -1; -1536]
  = map (fun num => sizeof_fmt (inject_Z num) "B")
      [0; 1; 999; 1023; 1024; 1280; 1536; 2068; 1048575; 1048576;
       123456789; 1024 ^ 3 - 1; 1024 ^ 4; 1024 ^ 5; 1024 ^ 5 - 1;
       2 ^ 53 - 1; -1; -1536].
Proof. vm_compute. reflexivity. Qed.

(** C8.  The label of the progress bar is computed in binary64:
    [29 / 100] is the float just below 0.29, its product with 100 rounds
    to the float just below 29, and [int] truncates it to 28, where the
    integer part of [29 / 100 * 100] is 29.  The bar itself is as
    specified for every [1 <= current <= total <= 100], and so is the
    label, except for four calls; the seven calls the script makes, with
    [total = 7], and [progress_bar(1, 4)], are as specified. *)
Theorem C8_progress_bar_label_one_short :
  progress_bar 29 100 = Ok "[########----------------------] 28%" /\
  progress_bar_spec 29 100 = "[########----------------------] 29%" /\
  progress_bar 1 4 = Ok "[#######-----------------------] 25%" /\
  progress_bar_spec 1 4 = "[#######-----------------------] 25%" /\
  map (fun i => progress_bar i 7) [1; 2; 3; 4; 5; 6; 7]
  = map (fun i => Ok (progress_bar_spec i 7)) [1; 2; 3; 4; 5; 6; 7] /\
  filter (fun ct => match progress_bar (fst ct) (snd ct) with
                    | Ok bar => negb (String.eqb bar
                                        (progress_bar_spec (fst ct) (snd ct)))
                    | Raise _ => true
                    end)
         (progress_calls 100)
  = [(29, 50); (29, 100); (57, 100); (58, 100)].
Proof.
  split; [vm_compute; reflexivity|].
  split; [vm_compute; reflexivity|].
  split; [vm_compute; reflexivity|].
  split; [vm_compute; reflexivity|].
  split; vm_compute; reflexivity.
Qed.

(** The same arithmetic on the machine's floats. *)
Example label_on_primitive_floats :
  Prim2SF (PrimFloat.mul (PrimFloat.div 29 100) 100)
  = fmul (fdiv (float_of_int 29) (float_of_int 100)) (float_of_int 100).
Proof. vm_compute. reflexivity. Qed.

(* ================================================================== *)
(** * The top-down walk of [get_size] *)
(* ================================================================== *)

Section Measure.

Implicit Types (es : list (string * node)).

Lemma on_entries_Some sel es : on_entries sel Some es = es.
Proof.
  induction es as [|[name c] es IH]; cbn [on_entries]; [reflexivity|].
  destruct (sel c); now rewrite IH.
Qed.

Lemma lines_on_none sel root es :
  lines_on sel (fun _ _ => []) root es = [].
Proof.
  induction es as [|[name c] es IH]; cbn [lines_on]; [reflexivity|].
  destruct (sel c); exact IH.
Qed.

Lemma sum_on_split A es :
  sum_on (fun _ => true) A es
  = sum_on is_file_node A es + sum_on is_dir_node A es.
Proof.
  unfold is_file_node.
  induction es as [|[name c] es IH]; cbn [sum_on]; [reflexivity|].
  destruct (is_dir_node c); cbn [negb]; lia.
Qed.

Lemma stat_ok_Dir flt es :
  stat_ok (Dir flt es) = true ->
  forall name c, In (name, c) es -> stat_ok c = true.
Proof.
  cbn [stat_ok]. rewrite forallb_forall. intros H name c HIn.
  exact (H (name, c) HIn).
Qed.

(** Measuring leaves the world as it is. *)
Lemma with_dir_unchanged w0 root flt m0 name c cur out :
  node_at w0 root = Some m0 ->
  find_entry name cur = Some c ->
  with_dir w0 (resolve w0 root) (Dir flt cur) out
  = with_dir w0 (resolve w0 root) (Dir flt (put_entry name (Some c) cur))
      (out ++ []).
Proof. intros _ H. now rewrite (put_entry_id _ _ _ H), app_nil_r. Qed.

Lemma add_size_in_dir w0 root flt m0 name c cur out total :
  node_at w0 root = Some m0 ->
  find_entry name cur = Some c ->
  is_file_node c = true ->
  stat_ok c = true ->
  add_size (joinpath root name) total
    (with_dir w0 (resolve w0 root) (Dir flt cur) out)
  = (Ok (total + measured c),
     with_dir w0 (resolve w0 root) (Dir flt (put_entry name (Some c) cur))
       (out ++ [])).
Proof.
  intros Hroot Hc Hfile Hok.
  rewrite <- (with_dir_unchanged w0 root flt m0 name c cur out Hroot Hc).
  destruct c as [sz sf uf|f E]; [clear Hfile|discriminate].
  unfold add_size, try_except, bind, stat_st_size.
  rewrite (node_at_child w0 root flt m0 Hroot), Hc.
  destruct sf as [e|]; [|reflexivity].
  destruct e; try discriminate. cbn. unfold ret. now rewrite Z.add_0_r.
Qed.

Lemma walk_top_down fuel : forall top w flt es total,
  node_at w top = Some (Dir flt es) ->
  wf (Dir flt es) = true ->
  (height (Dir flt es) <= fuel)%nat ->
  stat_ok (Dir flt es) = true ->
  os_walk_rec fuel top true get_size_body total w
  = (Ok (total + measured (Dir flt es)), w).
Proof.
  induction fuel as [|fuel IH]; intros top w flt es total Hnode Hwf Hh Hok.
  { rewrite height_Dir in Hh. lia. }
  destruct (wf_Dir _ _ Hwf) as [Hu Hc].
  pose proof (stat_ok_Dir _ _ Hok) as Hoks.
  cbn [os_walk_rec]. unfold scandir. rewrite Hnode. cbv zeta.
  rewrite scandir_dirs, scandir_nondirs. cbv iota.
  set (P := resolve w top).
  (* the files *)
  pose proof (loop_in_dir w top flt
                is_file_node Some (fun _ _ => []) measured
                (fun c => stat_ok c = true)
                (fun f total => add_size (joinpath top f) total)
                (fun name c cur out acc Hf Hs Hk =>
                   add_size_in_dir w top flt (Dir flt es) name c cur out acc
                     Hnode Hf Hs Hk)
                es [] [] total Hu Hoks) as H1.
  fold P in H1. cbn [app] in H1.
  rewrite on_entries_Some, lines_on_none in H1.
  unfold bind at 1, get_size_body at 1.
  rewrite <- (with_dir_same w top (Dir flt es) Hnode) at 1. fold P.
  rewrite H1. clear H1.
  (* the subdirectories *)
  assert (Hinto : forall name c cur out acc,
    find_entry name cur = Some c -> is_dir_node c = true ->
    (wf c = true /\ (height c <= fuel)%nat /\ stat_ok c = true) ->
    os_walk_rec fuel (joinpath top name) true get_size_body acc
      (with_dir w P (Dir flt cur) out)
    = (Ok (acc + measured c),
       with_dir w P (Dir flt (put_entry name (Some c) cur)) (out ++ []))).
  { intros name c cur out acc Hfind Hdir (Hwfc & Hhc & Hokc).
    unfold P.
    rewrite <- (with_dir_unchanged w top flt (Dir flt es) name c cur out
                  Hnode Hfind).
    destruct c as [sz sf uf|f E]; [discriminate|].
    apply IH; trivial.
    now rewrite (node_at_child w top flt (Dir flt es) Hnode). }
  assert (Hall : forall name c, In (name, c) es ->
                   wf c = true /\ (height c <= fuel)%nat /\ stat_ok c = true).
  { intros name c HIn. split; [now apply (Hc name)|]. split.
    - apply (height_entry _ _ flt) in HIn. lia.
    - now apply (Hoks name). }
  pose proof (loop_in_dir w top flt
                is_dir_node Some (fun _ _ => []) measured
                (fun c => wf c = true /\ (height c <= fuel)%nat
                          /\ stat_ok c = true)
                (fun name =>
                   os_walk_rec fuel (joinpath top name) true get_size_body)
                Hinto es [] []
                (total + sum_on is_file_node measured es) Hu Hall) as H2.
  fold P in H2. cbn [app] in H2.
  rewrite on_entries_Some, lines_on_none in H2.
  rewrite H2. unfold P. rewrite (with_dir_same w top (Dir flt es) Hnode).
  cbn [measured]. rewrite sum_on_split. f_equal. f_equal. lia.
Qed.

Theorem get_size_directory w path flt es :
  node_at w path = Some (Dir flt es) ->
  wf (fs w) = true ->
  stat_ok (Dir flt es) = true ->
  get_size path w = (Ok (measured (Dir flt es)), w).
Proof.
  intros Hnode Hwf Hok.
  assert (Hl : lookup (resolve w path) (fs w) = Some (Dir flt es)) by exact Hnode.
  unfold get_size, bind at 1. rewrite exists_at, Hnode. cbn [negb].
  unfold bind at 1. rewrite is_file_at, Hnode. unfold os_walk.
  rewrite (walk_top_down _ path w flt es 0 Hnode); trivial.
  - now apply (wf_lookup _ _ _ Hwf Hl).
  - apply height_lookup in Hl. lia.
Qed.

End Measure.

(* ================================================================== *)
(** * Theorems about the sizes and the catalogue *)
(* ================================================================== *)

(** C3.  [get_size] catches [FileNotFoundError] only.  Where
    [delete_path_verbose] turns every failure of [stat] into a skip
    notice, [get_size] lets a failure of [stat] on the path itself
    through (it escapes at [path.exists()]; only a path [stat] does not
    find is taken for absent, and measures 0), and in its walk every
    failure but "not found": on [venv], whose one file cannot be examined,
    it raises
    [PermissionError]; the run of [clean_all_verbose] ends there, in the
    fourth category of seven, and [/tmp], of the seventh, is never
    looked at. *)
Theorem C3_get_size_lets_errors_through :
  (forall w path sz e uf,
      node_at w path = Some (File sz (Some e) uf) ->
      get_size path w
      = if ignore_error (OSError_of e) then (Ok 0, w)
        else (Raise (OSError_of e), w)) /\
  get_size (Path_of_str "venv") sample_world
  = (Raise PermissionError, sample_world) /\
  fst (delete_path_verbose (Path_of_str "venv") sample_world) = Ok 0 /\
  fst (clean_all_verbose sample_env sample_world) = Raise PermissionError /\
  last (stdout (snd (clean_all_verbose sample_env sample_world))) ""
  = fstr [newline; "[4/7] Cleaning category: Python"] /\
  node_at (snd (clean_all_verbose sample_env sample_world)) (Path_of_str "/tmp")
  = Some (Dir None [("t1", File 3 None None)]).
Proof.
  split.
  { intros w path sz e uf H.
    unfold get_size, bind at 1. rewrite exists_at, H.
    now destruct (ignore_error (OSError_of e)). }
  split; [vm_compute; reflexivity|].
  split; [vm_compute; reflexivity|].
  split; [vm_compute; reflexivity|].
  split; vm_compute; reflexivity.
Qed.

(** A file that is not found is passed over in silence. *)
Example get_size_skips_missing_file :
  get_size (Path_of_str "/cache")
    (mkWorld (Dir None [("cache", Dir None
                           [ ("gone", File 9 (Some ENOENT) None);
                             ("kept", File 6 None None) ])]) [] [])
  = (Ok 6,
     mkWorld (Dir None [("cache", Dir None
                           [ ("gone", File 9 (Some ENOENT) None);
                             ("kept", File 6 None None) ])]) [] []).
Proof. reflexivity. Qed.

(** C4, as the code has it.  With [TEMP] and [TMP] unset, the two last
    paths of "System Temp" are [Path("")], which reads ["."] and denotes
    the working directory; it is truthy and it exists, so the guard of the
    walker lets it through.  The walker then measures the working
    directory and, when the size it measured is positive, erases it: the
    total grows by the sizes of the files unlinked, and what is left in
    the directory is what could not be removed (nothing, in a directory
    without faults); the directory itself stays.  When the size measured
    is zero nothing is erased. *)
Theorem C4_unset_temp_cleans_cwd (env : environ) (w : world)
    (flt : option errno) (es : list (string * node)) (total : Z) :
  getenv env "TEMP" = None ->
  getenv env "TMP" = None ->
  wf_world w = true ->
  lookup (cwd w) (fs w) = Some (Dir flt es) ->
  stat_ok (Dir flt es) = true ->
  let p := Path_of_str (or_empty (getenv env "TEMP")) in
  let p' := Path_of_str (or_empty (getenv env "TMP")) in
  In ("System Temp", [Path_of_str "/tmp"; Path_of_str "/var/tmp"; p; p'])
     (CACHE_LOCATIONS env (cwd w)) /\
  p = mkPath false [] /\ p' = p /\ str p = "." /\ resolve w p = cwd w /\
  truthy p = true /\ exists_ p w = (Ok true, w) /\
  clean_path p total w
  = (if measured (Dir flt es) >? 0
     then (Ok (total + unlinked_size (Dir flt es)),
           mkWorld
             (put (cwd w)
                (Some (Dir flt (snd (rmtree_entries true (walked_entries es)))))
                (fs w))
             (cwd w)
             (stdout w ++ log_entries p es
              ++ [msg_removing_root p; msg_done p (measured (Dir flt es))]))
     else (Ok total, w)) /\
  (fault_free (Dir flt es) = true ->
   snd (rmtree_entries true (walked_entries es)) = [] /\
   measured (Dir flt es) = tree_size (Dir flt es) /\
   unlinked_size (Dir flt es) = tree_size (Dir flt es)).
Proof.
  intros HTEMP HTMP Hw Hcwd Hok p p'. subst p p'. rewrite HTEMP, HTMP.
  apply wf_world_inv in Hw as [_ Hwf].
  change (Path_of_str (or_empty None)) with (mkPath false []).
  set (p := mkPath false []).
  assert (Hres : resolve w p = cwd w) by apply app_nil_r.
  assert (Hnode : node_at w p = Some (Dir flt es)).
  { unfold node_at. now rewrite Hres. }
  split.
  { unfold CACHE_LOCATIONS. rewrite HTEMP, HTMP.
    do 6 right. left. reflexivity. }
  split; [reflexivity|]. split; [reflexivity|]. split; [reflexivity|].
  split; [exact Hres|]. split; [reflexivity|].
  split; [now rewrite exists_at, Hnode|].
  split.
  - unfold clean_path, truthy, bind at 1. rewrite exists_at, Hnode.
    unfold bind at 1. rewrite (get_size_directory w p flt es Hnode Hwf Hok).
    destruct (measured (Dir flt es) >? 0); [|reflexivity].
    unfold bind at 1. rewrite (delete_directory w p flt es Hnode Hwf).
    unfold bind, print, ret. cbn [fs cwd stdout]. rewrite Hres.
    rewrite <- walk_freed_unlinked. unfold entry_freed. cbn [is_dir_node].
    rewrite walk_freed_Dir. unfold after_delete. cbn [parts p].
    now rewrite <- !app_assoc.
  - intros Hff.
    destruct flt as [e|]; [discriminate|].
    destruct (all_fault_free_walk es Hff) as (H1 & H2 & _).
    rewrite H1. split; [reflexivity|].
    rewrite <- walk_freed_unlinked. unfold entry_freed. cbn [is_dir_node].
    rewrite walk_freed_Dir, H2, tree_size_Dir. split; [|reflexivity].
    clear -Hff. cbn [measured].
    induction es as [|[name c] es IH]; [reflexivity|].
    cbn [fault_free forallb snd] in Hff. apply andb_true_iff in Hff as [Hc Hes].
    cbn [sum_on]. rewrite (IH Hes). f_equal.
    clear -Hc. induction c as [sz sf uf|f E IHc] using node_induction.
    + now destruct sf, uf.
    + destruct f; [discriminate|]. cbn [fault_free] in Hc.
      cbn [measured tree_size].
      induction IHc as [|[n c] E Hhead _ IHE]; [reflexivity|].
      cbn [forallb snd] in Hc, Hhead. apply andb_true_iff in Hc as [H1 H2].
      cbn [sum_on]. now rewrite (Hhead H1), (IHE H2).
Qed.

Lemma C4_unset_temp_cleans_cwd_witness :
  getenv sample_env "TEMP" = None /\
  getenv sample_env "TMP" = None /\
  wf_world job_world = true /\
  lookup (cwd job_world) (fs job_world)
  = Some (Dir None [ ("a.txt", File 10 None None);
                     ("src", Dir None [ ("main.c", File 5 None None) ]) ]) /\
  clean_path (Path_of_str "") 0 job_world
  = (Ok 15,
     mkWorld (Dir None [("srv", Dir None [("job", Dir None [])])])
       ["srv"; "job"]
       [ "   Removing file: src/main.c (5.0B)";
         "   Removing file: a.txt (10.0B)";
         "   Removing folder: src";
         "   Removing root folder: .";
         "   [DONE] Finished: . (15.0B) removed" ]).
Proof.
  split; [reflexivity|]. split; [reflexivity|].
  split; [reflexivity|]. split; [reflexivity|].
  pose proof (C4_unset_temp_cleans_cwd sample_env job_world None
                [ ("a.txt", File 10 None None);
                  ("src", Dir None [ ("main.c", File 5 None None) ]) ] 0
                eq_refl eq_refl eq_refl eq_refl eq_refl) as H.
  cbv zeta in H.
  destruct H as (_ & _ & _ & _ & _ & _ & _ & H & _).
  exact H.
Defined.

(** C4 as stated fails where the working directory holds only empty
    files: the size measured is zero, and the full run erases nothing. *)
Lemma C4_empty_files_are_kept :
  getenv sample_env "TEMP" = None /\
  getenv sample_env "TMP" = None /\
  fst (clean_all_verbose sample_env idle_world) = Ok 0 /\
  fs (snd (clean_all_verbose sample_env idle_world)) = fs idle_world /\
  node_at idle_world (Path_of_str "")
  = Some (Dir None [ ("run.lock", File 0 None None);
                     ("logs", Dir None [ ("out.log", File 0 None None) ]) ]).
Proof.
  split; [reflexivity|]. split; [reflexivity|].
  split; [vm_compute; reflexivity|].
  split; [vm_compute; reflexivity|]. reflexivity.
Qed.

(** A full run in a working directory that is no project: the only
    thing it erases is the working directory's contents. *)
Example full_run_erases_cwd :
  fst (clean_all_verbose sample_env job_world) = Ok 15 /\
  fs (snd (clean_all_verbose sample_env job_world))
  = Dir None [("srv", Dir None [("job", Dir None [])])] /\
  last (stdout (snd (clean_all_verbose sample_env job_world))) ""
  = "======================================".
Proof.
  split; [vm_compute; reflexivity|].
  split; vm_compute; reflexivity.
Qed.

(* ================================================================== *)
(** * More about measuring *)
(* ================================================================== *)

Section ReadOnly.

Lemma for_keeps_world {A B : Type} (body : A -> B -> M B) (xs : list A) :
  (forall x acc w, snd (body x acc w) = w) ->
  forall acc w, snd (for_ xs body acc w) = w.
Proof.
  intros Hbody. induction xs as [|x xs IH]; intros acc w; [reflexivity|].
  cbn [for_]. unfold bind. specialize (Hbody x acc w).
  destruct (body x acc w) as [[a|e] w1]; cbn [snd] in Hbody; subst w1;
    [apply IH | reflexivity].
Qed.

Lemma stat_keeps_world p w : snd (stat_st_size p w) = w.
Proof.
  unfold stat_st_size.
  now destruct (node_at w p) as [[sz [e|] uf|flt es]|].
Qed.

Lemma add_size_keeps_world p total w : snd (add_size p total w) = w.
Proof.
  unfold add_size, try_except, bind.
  pose proof (stat_keeps_world p w) as H.
  destruct (stat_st_size p w) as [[size|e] w1]; cbn [snd] in H; subst w1;
    [reflexivity|].
  now destruct (caught e [FileNotFoundError]).
Qed.

Lemma os_walk_rec_keeps_world {A : Type}
    (body : Path -> list string -> list string -> A -> M A) topdown :
  (forall root dirs files acc w, snd (body root dirs files acc w) = w) ->
  forall fuel top acc w, snd (os_walk_rec fuel top topdown body acc w) = w.
Proof.
  intros Hbody. induction fuel as [|fuel IH]; intros top acc w; [reflexivity|].
  cbn [os_walk_rec]. unfold scandir.
  destruct (node_at w top) as [[sz sf uf|flt es]|]; try reflexivity.
  cbv zeta. set (dirs := map fst (filter snd _)).
  set (nondirs := map fst (filter (fun e => negb (snd e)) _)).
  destruct topdown; unfold bind.
  - pose proof (Hbody top dirs nondirs acc w) as H.
    destruct (body top dirs nondirs acc w) as [[a|e] w1]; cbn [snd] in H;
      subst w1; [|reflexivity].
    apply for_keeps_world. intros x; apply IH.
  - pose proof (for_keeps_world
                  (fun d => os_walk_rec fuel (joinpath top d) false body) dirs
                  (fun x => IH (joinpath top x)) acc w) as H.
    destruct (for_ dirs _ acc w) as [[a|e] w1]; cbn [snd] in H; subst w1;
      [apply Hbody | reflexivity].
Qed.

End ReadOnly.

(** X1.  [get_size] only reads: whatever it returns or raises, on any
    path and in any world, the file system and the console are afterward
    as they were before. *)
Theorem X1_get_size_only_reads (path : Path) (w : world) :
  snd (get_size path w) = w.
Proof.
  unfold get_size, bind at 1. rewrite exists_at.
  destruct (node_at w path) as [[sz [e|] uf|flt es]|] eqn:Hnode; cbn [negb];
    [now destruct (ignore_error (OSError_of e))| | |reflexivity];
    unfold bind; rewrite is_file_at, Hnode.
  - apply stat_keeps_world.
  - unfold os_walk. apply os_walk_rec_keeps_world.
    intros root dirs files acc w0. unfold get_size_body.
    apply for_keeps_world. intros x acc' w1. apply add_size_keeps_world.
Qed.

(** [get_size] on a directory, and the walker's step on it. *)
Lemma sum_on_le sel (A B : node -> Z) es :
  Forall (fun e => 0 <= A (snd e) <= B (snd e)) es ->
  0 <= sum_on sel A es <= sum_on sel B es.
Proof.
  induction 1 as [|[name c] es Hc _ IH]; cbn [sum_on]; [lia|].
  cbn [snd] in Hc. destruct (sel c); lia.
Qed.

Lemma unlinked_at_most_measured n : 0 <= unlinked_size n <= measured n.
Proof.
  induction n as [sz sf uf|flt es IH] using node_induction.
  - destruct sf, uf; cbn; lia.
  - cbn [unlinked_size measured]. now apply sum_on_le.
Qed.

Lemma clean_path_directory w p flt es total :
  node_at w p = Some (Dir flt es) ->
  wf (fs w) = true ->
  stat_ok (Dir flt es) = true ->
  clean_path p total w
  = if measured (Dir flt es) >? 0
    then (Ok (total + unlinked_size (Dir flt es)),
          mkWorld (put (resolve w p) (after_delete p flt es) (fs w)) (cwd w)
            (stdout w ++ log_entries p es
             ++ [msg_removing_root p; msg_done p (measured (Dir flt es))]))
    else (Ok total, w).
Proof.
  intros Hnode Hwf Hok.
  unfold clean_path, truthy, bind at 1. rewrite exists_at, Hnode.
  unfold bind at 1. rewrite (get_size_directory w p flt es Hnode Hwf Hok).
  destruct (measured (Dir flt es) >? 0); [|reflexivity].
  unfold bind at 1. rewrite (delete_directory w p flt es Hnode Hwf).
  unfold bind, print, ret. cbn [fs cwd stdout].
  rewrite <- walk_freed_unlinked. unfold entry_freed. cbn [is_dir_node].
  rewrite walk_freed_Dir. now rewrite <- !app_assoc.
Qed.

(** X2.  On a directory in which no [stat] fails except for files that
    are not found, [get_size] returns the sum of the sizes of the files
    [stat] succeeds on, at every depth; the files not found count for
    nothing and raise nothing. *)
Theorem X2_get_size_adds_up (w : world) (path : Path) (flt : option errno)
    (es : list (string * node)) :
  wf_world w = true ->
  node_at w path = Some (Dir flt es) ->
  stat_ok (Dir flt es) = true ->
  get_size path w = (Ok (measured (Dir flt es)), w) /\
  0 <= measured (Dir flt es) <= tree_size (Dir flt es).
Proof.
  intros Hw Hnode Hok. apply wf_world_inv in Hw as [_ Hwf].
  split; [now apply get_size_directory|].
  clear. generalize (Dir flt es). intros n.
  induction n as [sz sf uf|f E IH] using node_induction.
  - destruct sf; cbn; lia.
  - cbn [measured tree_size]. now apply sum_on_le.
Qed.

Lemma X2_get_size_adds_up_witness :
  wf_world job_world = true /\
  get_size (Path_of_str "/srv") job_world = (Ok (10 + 5), job_world).
Proof.
  split; [reflexivity|].
  apply (X2_get_size_adds_up job_world (Path_of_str "/srv") None
           [ ("job", Dir None
                [ ("a.txt", File 10 None None);
                  ("src", Dir None [ ("main.c", File 5 None None) ]) ]) ]);
    reflexivity.
Defined.

(** X3.  When the walker erases a directory it has measured, the bytes it
    adds to the total are at most the size it measured, the size its
    "[DONE]" line reports: files measured and then found locked are
    reported as removed and not counted as freed. *)
Theorem X3_freed_at_most_measured (w : world) (p : Path)
    (flt : option errno) (es : list (string * node)) (total : Z) :
  wf_world w = true ->
  node_at w p = Some (Dir flt es) ->
  stat_ok (Dir flt es) = true ->
  0 < measured (Dir flt es) ->
  exists freed w',
    clean_path p total w = (Ok (total + freed), w') /\
    0 <= freed <= measured (Dir flt es) /\
    last (stdout w') "" = msg_done p (measured (Dir flt es)).
Proof.
  intros Hw Hnode Hok Hpos. apply wf_world_inv in Hw as [_ Hwf].
  rewrite (clean_path_directory w p flt es total Hnode Hwf Hok).
  apply Z.gtb_lt in Hpos. rewrite Hpos.
  exists (unlinked_size (Dir flt es)). eexists.
  split; [reflexivity|]. split; [apply unlinked_at_most_measured|].
  cbn [stdout].
  change [msg_removing_root p; msg_done p (measured (Dir flt es))]
    with ([msg_removing_root p] ++ [msg_done p (measured (Dir flt es))]).
  rewrite !app_assoc. apply last_last.
Qed.

Lemma X3_freed_at_most_measured_witness :
  wf_world sample_world = true /\
  exists freed w',
    clean_path (Path_of_str "dist") 0 sample_world = (Ok (0 + freed), w') /\
    0 <= freed <= 300 + 4 + 50 /\
    last (stdout w') "" = msg_done (Path_of_str "dist") 354.
Proof.
  split; [reflexivity|].
  apply (X3_freed_at_most_measured sample_world (Path_of_str "dist") None
           [ ("a.whl", File 300 None None);
             ("b.whl", File 4 None (Some EACCES));
             ("c.whl", File 50 None None) ] 0);
    reflexivity.
Defined.

(* ================================================================== *)
(** * What a removal leaves *)
(* ================================================================== *)

Section Pruning.

Implicit Types (es : list (string * node)) (n m c : node).
Implicit Types (p q : list string) (name : string) (v : option node).

Lemma pruned_refl n : pruned n n.
Proof.
  induction n as [sz sf uf|flt es IH] using node_induction; constructor.
  induction IH as [|[name c] es Hc _ IHes]; constructor; assumption.
Qed.

Lemma pruned_entries_refl es : pruned_entries es es.
Proof.
  induction es as [|[name c] es IH]; constructor;
    [apply pruned_refl | assumption].
Qed.

Lemma pruned_trans_both :
  (forall b c, pruned b c -> forall a, pruned a b -> pruned a c) /\
  (forall eb ec, pruned_entries eb ec ->
   forall ea, pruned_entries ea eb -> pruned_entries ea ec).
Proof.
  split.
  - apply (pruned_mut
             (fun b c => forall a, pruned a b -> pruned a c)
             (fun eb ec => forall ea, pruned_entries ea eb ->
                                      pruned_entries ea ec)).
    + intros sz sf uf a Ha. exact Ha.
    + intros flt es' es _ IH a Ha. inversion Ha; subst.
      constructor. now apply IH.
    + intros ea Ha. exact Ha.
    + intros name c es' es _ IH ea Ha. apply pruned_drop. now apply IH.
    + intros name c' c es' es _ IHc _ IHes ea Ha.
      inversion Ha; subst.
      * apply pruned_drop. now apply IHes.
      * apply pruned_keep; [now apply IHc | now apply IHes].
  - apply (pruned_entries_mut
             (fun b c => forall a, pruned a b -> pruned a c)
             (fun eb ec => forall ea, pruned_entries ea eb ->
                                      pruned_entries ea ec)).
    + intros sz sf uf a Ha. exact Ha.
    + intros flt es' es _ IH a Ha. inversion Ha; subst.
      constructor. now apply IH.
    + intros ea Ha. exact Ha.
    + intros name c es' es _ IH ea Ha. apply pruned_drop. now apply IH.
    + intros name c' c es' es _ IHc _ IHes ea Ha.
      inversion Ha; subst.
      * apply pruned_drop. now apply IHes.
      * apply pruned_keep; [now apply IHc | now apply IHes].
Qed.

Lemma pruned_trans a b c : pruned a b -> pruned b c -> pruned a c.
Proof. intros Hab Hbc. exact (proj1 pruned_trans_both b c Hbc a Hab). Qed.

Lemma pruned_entries_trans ea eb ec :
  pruned_entries ea eb -> pruned_entries eb ec -> pruned_entries ea ec.
Proof. intros Hab Hbc. exact (proj2 pruned_trans_both eb ec Hbc ea Hab). Qed.

(** ** The walk and [rmtree] only take away *)

Lemma folder_left_same c c' : folder_left c = Some c' -> c' = c.
Proof.
  destruct c as [sz sf uf|flt es]; cbn; [congruence|].
  destruct (rmdir_error flt es); congruence.
Qed.

Lemma file_left_same c c' : file_left c = Some c' -> c' = c.
Proof. destruct c as [sz [e|] [e'|]|flt es]; cbn; congruence. Qed.

Lemma pruned_walked_entries es :
  Forall (fun e => pruned (walked (snd e)) (snd e)) es ->
  pruned_entries (walked_entries es) es.
Proof.
  induction 1 as [|[name c] es Hc _ IHes]; [constructor|].
  rewrite walked_entries_cons. unfold entry_left. cbn [snd] in Hc.
  destruct (is_dir_node c).
  - destruct (folder_left (walked c)) as [c'|] eqn:E; [|now constructor].
    apply folder_left_same in E. subst c'. now constructor.
  - destruct (file_left c) as [c'|] eqn:E; [|now constructor].
    apply file_left_same in E. subst c'.
    constructor; [apply pruned_refl | assumption].
Qed.

Lemma pruned_walked n : pruned (walked n) n.
Proof.
  induction n as [sz sf uf|flt es IH] using node_induction; [constructor|].
  rewrite walked_Dir. constructor. now apply pruned_walked_entries.
Qed.

Lemma pruned_rmtree_step es :
  Forall (fun e => match snd (rmtree_node true (snd e)) with
                   | Some c' => pruned c' (snd e)
                   | None => True
                   end) es ->
  pruned_entries (snd (rmtree_entries true es)) es.
Proof.
  induction 1 as [|[name c] es Hc _ IHes]; [constructor|].
  rewrite rmtree_entries_cons. cbn [snd] in Hc.
  pose proof (rmtree_node_ignores c) as Hn.
  destruct (rmtree_node true c) as [err kept]. cbn [fst snd] in Hn, Hc.
  subst err.
  destruct (rmtree_entries true es) as [err rest]. cbn [snd] in *.
  destruct kept; now constructor.
Qed.

Lemma pruned_rmtree_node n :
  match snd (rmtree_node true n) with
  | Some n' => pruned n' n
  | None => True
  end.
Proof.
  induction n as [sz sf uf|flt es IH] using node_induction.
  - destruct uf; cbn; [constructor | exact I].
  - rewrite rmtree_node_Dir.
    pose proof (pruned_rmtree_step es IH) as H.
    pose proof (rmtree_entries_ignores es) as Hn.
    destruct (rmtree_entries true es) as [err es']. cbn [fst snd] in Hn, H.
    subst err.
    destruct (rmdir_error flt es'); cbn [snd]; [now constructor | exact I].
Qed.

Lemma pruned_rmtree_entries es :
  pruned_entries (snd (rmtree_entries true es)) es.
Proof.
  apply pruned_rmtree_step. apply Forall_forall.
  intros e _. apply pruned_rmtree_node.
Qed.

Lemma pruned_after_erase path n m :
  after_erase path n = Some m -> pruned m n.
Proof.
  destruct n as [sz sf uf|flt es].
  - intros H. assert (m = File sz sf uf) as ->; [|constructor].
    destruct sf, uf; cbn in H; congruence.
  - cbn [after_erase]. unfold after_delete.
    assert (H : pruned (Dir flt (snd (rmtree_entries true (walked_entries es))))
                  (Dir flt es)).
    { constructor.
      apply (pruned_entries_trans _ (walked_entries es));
        [apply pruned_rmtree_entries|].
      apply pruned_walked_entries. apply Forall_forall.
      intros e _. apply pruned_walked. }
    destruct (parts path); [intros [= <-]; exact H|].
    destruct (rmdir_error _ _); [intros [= <-]; exact H | discriminate].
Qed.

(** ** A pruned tree *)

Lemma find_entry_pruned_None name es' es :
  pruned_entries es' es ->
  find_entry name es = None -> find_entry name es' = None.
Proof.
  induction 1 as [|name0 c es' es _ IH|name0 c' c es' es _ _ IH];
    cbn [find_entry]; [trivial| |];
    destruct (String.eqb name0 name); try discriminate; exact IH.
Qed.

Lemma find_entry_pruned name es' es c' :
  pruned_entries es' es ->
  names_unique es = true ->
  find_entry name es' = Some c' ->
  exists c, find_entry name es = Some c /\ pruned c' c.
Proof.
  induction 1 as [|name0 c0 es' es Hes IH|name0 c0' c0 es' es Hc Hes IH];
    cbn [find_entry names_unique]; [discriminate| |].
  - destruct (find_entry name0 es) eqn:E0; [discriminate|].
    intros Hu Hf. destruct (String.eqb_spec name0 name) as [->|_].
    + rewrite (find_entry_pruned_None name es' es Hes E0) in Hf. discriminate.
    + now apply IH.
  - destruct (find_entry name0 es) eqn:E0; [discriminate|].
    intros Hu Hf. destruct (String.eqb name0 name).
    + injection Hf as <-. now exists c0.
    + now apply IH.
Qed.

Lemma wf_pruned n' n : pruned n' n -> wf n = true -> wf n' = true.
Proof.
  revert n' n.
  apply (pruned_mut
           (fun n' n => wf n = true -> wf n' = true)
           (fun es' es =>
              names_unique es && forallb (fun e => wf (snd e)) es = true ->
              names_unique es' && forallb (fun e => wf (snd e)) es' = true)).
  - trivial.
  - intros flt es' es _ IH. exact IH.
  - trivial.
  - intros name c es' es _ IH. cbn [names_unique forallb snd].
    destruct (find_entry name es); [discriminate|].
    rewrite !andb_true_iff. intros [Hu [_ Hc]]. rewrite <- andb_true_iff.
    apply IH. now rewrite Hu, Hc.
  - intros name c' c es' es _ IHc Hes IH. cbn [names_unique forallb snd].
    destruct (find_entry name es) eqn:E; [discriminate|].
    rewrite (find_entry_pruned_None name es' es Hes E).
    rewrite !andb_true_iff. intros [Hu [Hc Hcs]].
    rewrite IHc by exact Hc.
    assert (H : names_unique es' && forallb (fun e => wf (snd e)) es' = true)
      by (apply IH; now rewrite Hu, Hcs).
    apply andb_true_iff in H as [Hu' Hcs']. now repeat split.
Qed.

Lemma lookup_pruned q : forall n' n m',
  pruned n' n -> wf n = true -> lookup q n' = Some m' ->
  exists m, lookup q n = Some m /\ pruned m' m.
Proof.
  induction q as [|name q IH]; intros n' n m' Hp Hwf Hl.
  - injection Hl as <-. now exists n.
  - inversion Hp as [sz sf uf|flt es' es Hes]; subst; [discriminate|].
    rewrite lookup_cons in Hl |- *.
    destruct (find_entry name es') as [c'|] eqn:E; [|discriminate].
    cbn [wf] in Hwf. apply andb_true_iff in Hwf as [Hu Hc].
    destruct (find_entry_pruned name es' es c' Hes Hu E) as [c [Ec Hcc]].
    rewrite Ec. apply (IH c' c m' Hcc); [|exact Hl].
    apply find_entry_In in Ec. rewrite forallb_forall in Hc.
    exact (Hc (name, c) Ec).
Qed.

Lemma pruned_put_entry name v c es :
  find_entry name es = Some c ->
  (forall c', v = Some c' -> pruned c' c) ->
  pruned_entries (put_entry name v es) es.
Proof.
  intros Hf Hv. induction es as [|[name0 c0] es IH]; [discriminate|].
  cbn [find_entry put_entry] in *.
  destruct (String.eqb name0 name).
  - injection Hf as ->. destruct v as [c'|].
    + apply pruned_keep; [now apply Hv | apply pruned_entries_refl].
    + apply pruned_drop, pruned_entries_refl.
  - apply pruned_keep; [apply pruned_refl | now apply IH].
Qed.

Lemma pruned_put p : forall v n m,
  lookup p n = Some m ->
  (forall m', v = Some m' -> pruned m' m) ->
  pruned (put p v n) n.
Proof.
  induction p as [|name p IH]; intros v n m Hl Hv.
  - injection Hl as <-. destruct v as [m'|]; cbn [put];
      [now apply Hv | apply pruned_refl].
  - destruct n as [sz sf uf|flt es]; [discriminate|].
    rewrite lookup_cons in Hl.
    destruct (find_entry name es) as [c|] eqn:E; [|discriminate].
    destruct p as [|name' p].
    + injection Hl as <-. rewrite put_one. constructor.
      now apply (pruned_put_entry name v c).
    + rewrite put_cons, E. constructor.
      apply (pruned_put_entry name _ c es E).
      intros c' [= <-]. now apply (IH v c m).
Qed.

(** ** Entries with another name *)

Lemma find_entry_put_other name name' v es :
  name <> name' ->
  find_entry name (put_entry name' v es) = find_entry name es.
Proof.
  intros Hne. induction es as [|[name0 c0] es IH]; [reflexivity|].
  cbn [find_entry put_entry].
  destruct (String.eqb_spec name0 name') as [->|Hne'].
  - destruct (String.eqb_spec name' name) as [E|_]; [now subst|].
    destruct v as [c'|]; [|reflexivity].
    cbn [find_entry].
    destruct (String.eqb_spec name' name) as [E|_]; [now subst|reflexivity].
  - cbn [find_entry]. now rewrite IH.
Qed.

Lemma lookup_put_apart (pre : list string) (a b : string) q p v : forall n,
  a <> b ->
  lookup (pre ++ a :: q) (put (pre ++ b :: p) v n) = lookup (pre ++ a :: q) n.
Proof.
  induction pre as [|name pre IH]; intros n Hne.
  - cbn [app]. destruct n as [sz sf uf|flt es]; [reflexivity|].
    destruct p as [|name' p].
    + rewrite put_one, !lookup_cons. now rewrite find_entry_put_other.
    + rewrite put_cons. destruct (find_entry b es); [|reflexivity].
      rewrite !lookup_cons. now rewrite find_entry_put_other.
  - rewrite <- !app_comm_cons.
    destruct n as [sz sf uf|flt es]; [reflexivity|].
    destruct (pre ++ b :: p) as [|name' p'] eqn:Ep;
      [now destruct pre|].
    rewrite put_cons. destruct (find_entry name es) as [ch|] eqn:E;
      [|reflexivity].
    rewrite !lookup_cons, E.
    rewrite (find_entry_put_same name _ ch es E).
    now apply IH.
Qed.

End Pruning.

(** ** What cannot be removed *)

Section Stuck.

Implicit Types (es : list (string * node)) (n m c : node).

Lemma stuck_rmtree_step es :
  Forall (fun e => match snd (rmtree_node true (snd e)) with
                   | Some c' => stuck c' = true
                   | None => True
                   end) es ->
  forallb (fun e => stuck (snd e)) (snd (rmtree_entries true es)) = true.
Proof.
  induction 1 as [|[name c] es Hc _ IHes]; [reflexivity|].
  rewrite rmtree_entries_cons. cbn [snd] in Hc.
  pose proof (rmtree_node_ignores c) as Hn.
  destruct (rmtree_node true c) as [err kept]. cbn [fst snd] in Hn, Hc.
  subst err.
  destruct (rmtree_entries true es) as [err rest]. cbn [snd] in *.
  destruct kept; [|exact IHes]. cbn [forallb snd]. now rewrite Hc.
Qed.

Lemma stuck_rmtree_node n :
  match snd (rmtree_node true n) with
  | Some n' => stuck n' = true
  | None => True
  end.
Proof.
  induction n as [sz sf uf|flt es IH] using node_induction.
  - destruct uf; cbn; [reflexivity | exact I].
  - rewrite rmtree_node_Dir.
    pose proof (stuck_rmtree_step es IH) as H.
    pose proof (rmtree_entries_ignores es) as Hn.
    destruct (rmtree_entries true es) as [err es']. cbn [fst snd] in Hn, H.
    subst err.
    destruct (rmdir_error flt es') eqn:E; cbn [snd]; [|exact I].
    cbn [stuck]. now rewrite E, H.
Qed.

Lemma stuck_rmtree_entries es :
  forallb (fun e => stuck (snd e)) (snd (rmtree_entries true es)) = true.
Proof.
  apply stuck_rmtree_step. apply Forall_forall.
  intros e _. apply stuck_rmtree_node.
Qed.

Lemma stuck_Dir flt es :
  stuck (Dir flt es) = true ->
  (exists e, rmdir_error flt es = Some e) /\
  forallb (fun e => stuck (snd e)) es = true.
Proof.
  cbn [stuck]. rewrite andb_true_iff. intros [H1 H2]. split; [|exact H2].
  destruct (rmdir_error flt es) as [e|]; [now exists e | discriminate].
Qed.

(** The walk takes nothing away from such entries, nor does [rmtree],
    and no byte of them is counted as freed. *)
Lemma stuck_fixed n :
  stuck n = true ->
  walked n = n /\ rmtree_node true n = (None, Some n) /\ unlinked_size n = 0.
Proof.
  induction n as [sz sf uf|flt es IH] using node_induction; intros Hs.
  - destruct uf; [|discriminate]. now destruct sf.
  - apply stuck_Dir in Hs as [[e He] Hes].
    assert (H : walked_entries es = es /\
                rmtree_entries true es = (None, es) /\
                sum_on (fun _ => true) unlinked_size es = 0).
    { clear He. induction IH as [|[name c] es Hc _ IHes];
        [now repeat split|].
      cbn [forallb snd] in Hes, Hc. apply andb_true_iff in Hes as [Hsc Hes].
      destruct (Hc Hsc) as [Hw [Hr Hu]]. destruct (IHes Hes) as [Hw' [Hr' Hu']].
      rewrite walked_entries_cons, rmtree_entries_cons, Hr, Hr', Hw'.
      cbn [sum_on]. rewrite Hu, Hu'. repeat split; try reflexivity.
      unfold entry_left. rewrite Hw.
      destruct c as [sz sf uf|f E]; cbn [is_dir_node].
      - destruct uf; [|discriminate]. now destruct sf.
      - apply stuck_Dir in Hsc as [[e' He'] _]. cbn [folder_left].
        now rewrite He'. }
    destruct H as [Hw [Hr Hu]].
    rewrite walked_Dir, rmtree_node_Dir, Hw, Hr, He. cbn [unlinked_size].
    now rewrite Hu.
Qed.

Lemma stuck_entries_fixed es :
  forallb (fun e => stuck (snd e)) es = true ->
  walked_entries es = es /\ rmtree_entries true es = (None, es) /\
  sum_on (fun _ => true) unlinked_size es = 0.
Proof.
  induction es as [|[name c] es IH]; [now repeat split|].
  cbn [forallb snd]. rewrite andb_true_iff. intros [Hc Hes].
  destruct (stuck_fixed c Hc) as [Hw [Hr Hu]].
  destruct (IH Hes) as [Hw' [Hr' Hu']].
  rewrite walked_entries_cons, rmtree_entries_cons, Hr, Hr', Hw'.
  cbn [sum_on]. rewrite Hu, Hu'. repeat split; try reflexivity.
  unfold entry_left. rewrite Hw.
  destruct c as [sz sf uf|f E]; cbn [is_dir_node].
  - destruct uf; [|discriminate]. now destruct sf.
  - apply stuck_Dir in Hc as [[e' He'] _]. cbn [folder_left]. now rewrite He'.
Qed.

(** What is left of a directory by [delete_path_verbose]. *)
Lemma after_delete_Some path flt es m :
  after_delete path flt es = Some m ->
  exists es',
    m = Dir flt es' /\
    forallb (fun e => stuck (snd e)) es' = true /\
    (parts path = [] \/ exists e, rmdir_error flt es' = Some e).
Proof.
  unfold after_delete.
  pose proof (stuck_rmtree_entries (walked_entries es)) as Hs.
  set (es' := snd (rmtree_entries true (walked_entries es))) in *.
  destruct (parts path) as [|x xs].
  - intros [= <-]. exists es'. now repeat split; [|left].
  - destruct (rmdir_error flt es') as [e|] eqn:E; [|discriminate].
    intros [= <-]. exists es'. repeat split; [exact Hs|]. right. now exists e.
Qed.

(** Erasing what an erasure has left leaves it again, and frees nothing. *)
Lemma after_erase_again path n m :
  after_erase path n = Some m ->
  after_erase path m = Some m /\ unlinked_size m = 0.
Proof.
  destruct n as [sz sf uf|flt es].
  - intros H. assert (m = File sz sf uf) as ->
        by (destruct sf, uf; cbn in H; congruence).
    destruct sf, uf; try discriminate; now split.
  - cbn [after_erase]. intros H.
    apply after_delete_Some in H as [es' [-> [Hs Htop]]].
    destruct (stuck_entries_fixed es' Hs) as [Hw [Hr Hu]].
    split; [|exact Hu].
    cbn [after_erase]. unfold after_delete. rewrite Hw, Hr. cbn [snd].
    destruct (parts path); [reflexivity|].
    destruct Htop as [?|[e He]]; [discriminate|]. now rewrite He.
Qed.

End Stuck.

(** ** [delete_path_verbose], whatever the path leads to *)

Lemma delete_missing w path :
  node_at w path = None -> delete_path_verbose path w = (Ok 0, w).
Proof.
  intros H. unfold delete_path_verbose, bind. now rewrite exists_at, H.
Qed.

(** Where [stat] is refused on the path itself, the error escapes and
    nothing is done. *)
Lemma delete_refused w path n e :
  node_at w path = Some n ->
  refused n = Some e ->
  delete_path_verbose path w = (Raise e, w).
Proof.
  intros Hnode Hr. destruct n as [sz [e'|] uf|flt es]; try discriminate.
  rewrite (delete_regular_file w path sz (Some e') uf Hnode).
  cbn [refused] in Hr.
  destruct (ignore_error (OSError_of e')); [discriminate|].
  now injection Hr as <-.
Qed.

Lemma delete_outcome w path n :
  wf (fs w) = true ->
  node_at w path = Some n ->
  refused n = None ->
  exists lines,
    delete_path_verbose path w
    = (Ok (unlinked_size n),
       mkWorld (put (resolve w path) (after_erase path n) (fs w)) (cwd w)
         (stdout w ++ lines)).
Proof.
  intros Hwf Hnode Hr. destruct n as [sz sf uf|flt es].
  - rewrite (delete_regular_file w path sz sf uf Hnode).
    destruct sf as [e|]; [|destruct uf as [e|]];
      cbn [after_erase unlinked_size];
      rewrite ?(put_lookup_id _ _ _ Hnode); [|eexists; reflexivity..].
    cbn [refused] in Hr.
    destruct (ignore_error (OSError_of e)); [|discriminate].
    exists []. rewrite app_nil_r. destruct uf; now destruct w.
  - rewrite (delete_directory w path flt es Hnode Hwf). eexists.
    rewrite <- walk_freed_unlinked. unfold entry_freed. cbn [is_dir_node].
    rewrite walk_freed_Dir. reflexivity.
Qed.

Lemma after_erase_not_refused path n m :
  after_erase path n = Some m -> refused n = None -> refused m = None.
Proof.
  destruct n as [sz sf uf|flt es].
  - intros H. assert (m = File sz sf uf) as ->
        by (destruct sf, uf; cbn in H; congruence).
    trivial.
  - cbn [after_erase]. intros H _.
    apply after_delete_Some in H as [es' [-> _]]. reflexivity.
Qed.

(** The root is a directory, and a path that leads to it has no
    component: what is left of it is never nothing. *)
Lemma after_erase_root w path n :
  is_dir_node (fs w) = true ->
  node_at w path = Some n ->
  resolve w path = [] ->
  exists m, after_erase path n = Some m.
Proof.
  intros Hd Hnode Hr. unfold node_at in Hnode. rewrite Hr in Hnode.
  injection Hnode as <-.
  destruct (fs w) as [sz sf uf|flt es]; [discriminate|].
  cbn [after_erase]. unfold after_delete.
  assert (Hp : parts path = []).
  { unfold resolve in Hr. destruct (anchored path); [exact Hr|].
    now apply app_eq_nil in Hr. }
  rewrite Hp. now eexists.
Qed.

Lemma erase_prunes w path :
  wf_world w = true ->
  pruned (fs (snd (delete_path_verbose path w))) (fs w).
Proof.
  intros Hw. apply wf_world_inv in Hw as [_ Hwf].
  destruct (node_at w path) as [n|] eqn:Hnode.
  - destruct (refused n) as [e|] eqn:Hr.
    + rewrite (delete_refused w path n e Hnode Hr). apply pruned_refl.
    + destruct (delete_outcome w path n Hwf Hnode Hr) as [lines ->].
      cbn [snd fs].
      apply (pruned_put _ _ _ n Hnode). intros m'. apply pruned_after_erase.
  - rewrite (delete_missing w path Hnode). apply pruned_refl.
Qed.

Lemma erase_keeps_wf w path :
  wf_world w = true -> wf_world (snd (delete_path_verbose path w)) = true.
Proof.
  intros Hw. pose proof (erase_prunes w path Hw) as Hp.
  apply wf_world_inv in Hw as [Hd Hwf].
  unfold wf_world. rewrite (wf_pruned _ _ Hp Hwf), andb_true_r.
  inversion Hp as [sz sf uf E1 E2|flt es' es _ E1 E2];
    [now rewrite <- E2 in Hd | reflexivity].
Qed.

(** X4.  Erasing a path a second time does nothing more:
    [delete_path_verbose], run again on the path it has just been run on,
    leaves the file system as the first run left it, and returns 0 where
    the first run returned (where [stat] is refused on the path, both runs
    raise the same error). *)
Theorem X4_erasing_again_changes_nothing (w : world) (path : Path) :
  wf_world w = true ->
  let w1 := snd (delete_path_verbose path w) in
  exists lines,
    delete_path_verbose path w1
    = (match fst (delete_path_verbose path w) with
       | Ok _ => Ok 0
       | Raise e => Raise e
       end,
       mkWorld (fs w1) (cwd w1) (stdout w1 ++ lines)).
Proof.
  intros Hw w1.
  pose proof (erase_keeps_wf w path Hw) as Hw1. fold w1 in Hw1.
  apply wf_world_inv in Hw1 as [_ Hwf1].
  apply wf_world_inv in Hw as [Hd Hwf].
  assert (Hmiss : node_at w1 path = None ->
                  exists lines,
                    delete_path_verbose path w1
                    = (Ok 0, mkWorld (fs w1) (cwd w1) (stdout w1 ++ lines))).
  { intros H. exists []. rewrite (delete_missing w1 path H), app_nil_r.
    now destruct w1. }
  destruct (node_at w path) as [n|] eqn:Hnode.
  - destruct (refused n) as [e|] eqn:Href.
    { pose proof (delete_refused w path n e Hnode Href) as E.
      assert (E1 : w1 = w) by (unfold w1; now rewrite E).
      rewrite E1, E. cbn [fst]. exists []. rewrite app_nil_r. now destruct w. }
    destruct (delete_outcome w path n Hwf Hnode Href) as [lines E].
    assert (E1 : w1 = mkWorld (put (resolve w path) (after_erase path n) (fs w))
                        (cwd w) (stdout w ++ lines))
      by (unfold w1; now rewrite E).
    assert (Hr : resolve w1 path = resolve w path) by now rewrite E1.
    rewrite E. cbn [fst].
    destruct (after_erase path n) as [m|] eqn:Hleft.
    + assert (Hnode1 : node_at w1 path = Some m).
      { unfold node_at. rewrite Hr, E1. cbn [fs].
        now apply (lookup_put_same _ _ n). }
      destruct (after_erase_again path n m Hleft) as [Hagain Hzero].
      destruct (delete_outcome w1 path m Hwf1 Hnode1
                  (after_erase_not_refused path n m Hleft Href)) as [lines' ->].
      exists lines'. rewrite Hzero, Hagain.
      now rewrite (put_lookup_id _ _ _ Hnode1).
    + apply Hmiss. unfold node_at. rewrite Hr, E1. cbn [fs].
      apply lookup_removed; [exact Hwf|].
      intros Hnil.
      destruct (after_erase_root w path n Hd Hnode Hnil) as [m Hm].
      congruence.
  - rewrite (delete_missing w path Hnode). cbn [fst].
    apply Hmiss. unfold w1. now rewrite (delete_missing w path Hnode).
Qed.

Lemma X4_erasing_again_changes_nothing_witness :
  wf_world sample_world = true /\
  let w1 := snd (delete_path_verbose (Path_of_str "target") sample_world) in
  exists lines,
    delete_path_verbose (Path_of_str "target") w1
    = (Ok 0, mkWorld (fs w1) (cwd w1) (stdout w1 ++ lines)).
Proof.
  split; [reflexivity|].
  apply (X4_erasing_again_changes_nothing sample_world (Path_of_str "target")).
  reflexivity.
Defined.

(** X5.  [delete_path_verbose] touches nothing outside the path it is
    given: a path that leaves the erased one at some component, by another
    name, leads afterwards to what it led to before. *)
Theorem X5_erase_leaves_the_rest (w : world) (path : Path)
    (pre p q : list string) (a b : string) :
  wf_world w = true ->
  resolve w path = pre ++ b :: p ->
  a <> b ->
  lookup (pre ++ a :: q) (fs (snd (delete_path_verbose path w)))
  = lookup (pre ++ a :: q) (fs w).
Proof.
  intros Hw Hr Hne. apply wf_world_inv in Hw as [_ Hwf].
  destruct (node_at w path) as [n|] eqn:Hnode.
  - destruct (refused n) as [e|] eqn:Href;
      [now rewrite (delete_refused w path n e Hnode Href)|].
    destruct (delete_outcome w path n Hwf Hnode Href) as [lines ->].
    cbn [snd fs]. rewrite Hr. now apply lookup_put_apart.
  - now rewrite (delete_missing w path Hnode).
Qed.

Lemma X5_erase_leaves_the_rest_witness :
  wf_world sample_world = true /\
  lookup (["home"; "u"; "proj"] ++ "dist" :: ["a.whl"])
    (fs (snd (delete_path_verbose (Path_of_str "build") sample_world)))
  = lookup (["home"; "u"; "proj"] ++ "dist" :: ["a.whl"]) (fs sample_world).
Proof.
  split; [reflexivity|].
  apply (X5_erase_leaves_the_rest sample_world (Path_of_str "build")
           ["home"; "u"; "proj"] [] ["a.whl"] "dist" "build");
    [reflexivity | reflexivity | discriminate].
Defined.

(** X6.  What [delete_path_verbose] leaves of a directory cannot be
    removed: the entries left are files that cannot be unlinked and
    directories that still hold such files or cannot be removed
    themselves, each where it was; and so is the directory itself, unless
    the path is ["."] or ["/"]. *)
Theorem X6_what_is_left_is_stuck (w : world) (path : Path)
    (flt : option errno) (es : list (string * node)) (m : node) :
  wf_world w = true ->
  node_at w path = Some (Dir flt es) ->
  node_at (snd (delete_path_verbose path w)) path = Some m ->
  pruned m (Dir flt es) /\
  forallb (fun e => stuck (snd e)) (entries_of m) = true /\
  (parts path <> [] -> stuck m = true).
Proof.
  intros Hw Hnode Hleft. apply wf_world_inv in Hw as [Hd Hwf].
  destruct (delete_outcome w path _ Hwf Hnode eq_refl) as [lines E].
  rewrite E in Hleft. unfold node_at, resolve in Hleft. cbn [snd fs cwd] in Hleft.
  fold (resolve w path) in Hleft.
  destruct (after_erase path (Dir flt es)) as [m'|] eqn:Hm.
  - rewrite (lookup_put_same _ _ _ _ Hnode) in Hleft. injection Hleft as ->.
    split; [now apply (pruned_after_erase path)|].
    cbn [after_erase] in Hm.
    apply after_delete_Some in Hm as [es' [-> [Hs Htop]]].
    split; [exact Hs|]. intros Hp. cbn [stuck].
    destruct Htop as [?|[e He]]; [contradiction|]. now rewrite He, Hs.
  - rewrite lookup_removed in Hleft; [discriminate | exact Hwf |].
    intros Hnil.
    destruct (after_erase_root w path _ Hd Hnode Hnil) as [m' Hm'].
    congruence.
Qed.

Lemma X6_what_is_left_is_stuck_witness :
  wf_world sample_world = true /\
  pruned (Dir None [ ("b.whl", File 4 None (Some EACCES)) ])
    (Dir None [ ("a.whl", File 300 None None);
                ("b.whl", File 4 None (Some EACCES));
                ("c.whl", File 50 None None) ]) /\
  stuck (Dir None [ ("b.whl", File 4 None (Some EACCES)) ]) = true.
Proof.
  split; [reflexivity|].
  destruct (X6_what_is_left_is_stuck sample_world (Path_of_str "dist") None
              [ ("a.whl", File 300 None None);
                ("b.whl", File 4 None (Some EACCES));
                ("c.whl", File 50 None None) ]
              (Dir None [ ("b.whl", File 4 None (Some EACCES)) ]))
    as [H1 [_ H3]]; [reflexivity | reflexivity | reflexivity |].
  split; [exact H1 | apply H3; discriminate].
Defined.

(** X7.  [delete_path_verbose] creates nothing and alters nothing it
    keeps: whatever a path leads to afterwards, it led before to the same
    file, or to a directory of which this one is what is left; and the tree
    still lists every name once. *)
Theorem X7_erase_only_takes_away (w : world) (path : Path)
    (q : list string) (m' : node) :
  wf_world w = true ->
  lookup q (fs (snd (delete_path_verbose path w))) = Some m' ->
  wf_world (snd (delete_path_verbose path w)) = true /\
  exists m, lookup q (fs w) = Some m /\ pruned m' m.
Proof.
  intros Hw Hl. split; [now apply erase_keeps_wf|].
  pose proof (erase_prunes w path Hw) as Hp.
  apply wf_world_inv in Hw as [_ Hwf].
  exact (lookup_pruned q _ _ m' Hp Hwf Hl).
Qed.

Lemma X7_erase_only_takes_away_witness :
  wf_world sample_world = true /\
  exists m,
    lookup ["home"; "u"; "proj"; "target"; "debug"; "app"] (fs sample_world)
    = Some m /\
    pruned (File 900 None (Some EBUSY)) m.
Proof.
  split; [reflexivity|].
  apply (X7_erase_only_takes_away sample_world (Path_of_str "target")
           ["home"; "u"; "proj"; "target"; "debug"; "app"]
           (File 900 None (Some EBUSY)));
    reflexivity.
Defined.

(* ================================================================== *)
(** * The audit trail *)
(* ================================================================== *)

Section Notices.

Implicit Types (es : list (string * node)) (n c : node).

Lemma is_removing_file_removing_file p size :
  is_removing_file (msg_removing_file p size) = true.
Proof. reflexivity. Qed.

Lemma is_removing_file_skipped p : is_removing_file (msg_skipped p) = false.
Proof. reflexivity. Qed.

Lemma is_removing_file_removing_folder p :
  is_removing_file (msg_removing_folder p) = false.
Proof. reflexivity. Qed.

Lemma is_removing_file_removing_root p :
  is_removing_file (msg_removing_root p) = false.
Proof. reflexivity. Qed.

(** The lines of a walk that [f] selects are counted entry by entry,
    although the walk prints them pass by pass. *)
Lemma count_log_cons (f : string -> bool) top name c es :
  List.length (filter f (log_entries top ((name, c) :: es)))
  = ((if is_dir_node c
      then List.length (filter f (walk_log (top // name) c))
           + List.length (filter f (folder_lines (top // name) (walked c)))
      else List.length (filter f (file_lines (top // name) c)))
     + List.length (filter f (log_entries top es)))%nat.
Proof.
  unfold log_entries, walked_into. cbn [lines_on on_entries].
  unfold is_file_node. destruct (is_dir_node c) eqn:E; cbn [negb lines_on];
    rewrite ?is_dir_walked, ?E; cbn [negb];
    rewrite !filter_app, !length_app; lia.
Qed.

Lemma rmdir_error_None flt es : rmdir_error flt es = None -> es = [].
Proof. destruct flt, es; cbn; congruence. Qed.

Lemma notices_of_entries es :
  Forall (fun e => forall top,
            is_dir_node (snd e) = true ->
            Z.of_nat (count_skips (walk_log top (snd e)))
            = faulty_files (snd e) + subdirs (walked (snd e)) /\
            Z.of_nat (List.length (filter is_removing_file
                                     (walk_log top (snd e))))
            = statable_files (snd e)) es ->
  forall top,
    Z.of_nat (count_skips (log_entries top es))
    = sum_on (fun _ => true) faulty_files es
      + sum_on is_dir_node (fun c => 1 + subdirs c) (walked_entries es) /\
    Z.of_nat (List.length (filter is_removing_file (log_entries top es)))
    = sum_on (fun _ => true) statable_files es.
Proof.
  unfold count_skips.
  induction 1 as [|[name c] es Hc _ IHes]; intros top; [now split|].
  destruct (IHes top) as [IH1 IH2]. cbn [snd] in Hc.
  rewrite !count_log_cons, walked_entries_cons, !Nat2Z.inj_add, IH1, IH2.
  cbn [sum_on]. unfold entry_left.
  destruct c as [sz sf uf|f E]; cbn [is_dir_node].
  - destruct sf as [e|], uf as [e'|];
      cbn [file_lines file_left filter faulty_files statable_files sum_on
           is_dir_node];
      rewrite ?is_skip_removing_file, ?is_skip_skipped,
        ?is_removing_file_removing_file, ?is_removing_file_skipped;
      cbn [List.length]; split; lia.
  - destruct (Hc (top // name) eq_refl) as [Hc1 Hc2].
    rewrite !Nat2Z.inj_add, Hc1, Hc2. rewrite walked_Dir.
    cbn [folder_lines folder_left].
    destruct (rmdir_error f (walked_entries E)) as [e|] eqn:Er.
    + cbn [filter sum_on is_dir_node].
      rewrite is_skip_skipped, is_removing_file_skipped.
      cbn [List.length]. split; lia.
    + apply rmdir_error_None in Er. rewrite Er.
      cbn [filter subdirs sum_on].
      rewrite is_skip_removing_folder, is_removing_file_removing_folder.
      cbn [List.length]. split; lia.
Qed.

Lemma notices_of_walk n : forall top,
  is_dir_node n = true ->
  Z.of_nat (count_skips (walk_log top n))
  = faulty_files n + subdirs (walked n) /\
  Z.of_nat (List.length (filter is_removing_file (walk_log top n)))
  = statable_files n.
Proof.
  induction n as [sz sf uf|flt es IH] using node_induction; intros top Hd;
    [discriminate|].
  rewrite walk_log_Dir, walked_Dir. cbn [faulty_files subdirs statable_files].
  now apply notices_of_entries.
Qed.

End Notices.

(** X8.  The lines [delete_path_verbose] prints for a directory account
    for every refusal, once: there is one skip notice for each file that
    [stat] or [unlink] refused and one for each folder the walk could not
    remove, and one "Removing file" line for each file [stat] succeeded on,
    whether or not the file was then unlinked. *)
Theorem X8_one_notice_per_refusal (w : world) (path : Path)
    (flt : option errno) (es : list (string * node)) :
  wf_world w = true ->
  node_at w path = Some (Dir flt es) ->
  exists lines,
    stdout (snd (delete_path_verbose path w)) = stdout w ++ lines /\
    Z.of_nat (count_skips lines)
    = faulty_files (Dir flt es) + subdirs (walked (Dir flt es)) /\
    Z.of_nat (List.length (filter is_removing_file lines))
    = statable_files (Dir flt es).
Proof.
  intros Hw Hnode. apply wf_world_inv in Hw as [_ Hwf].
  rewrite (delete_directory w path flt es Hnode Hwf). cbn [snd stdout].
  eexists. split; [reflexivity|].
  destruct (notices_of_walk (Dir flt es) path eq_refl) as [H1 H2].
  rewrite walk_log_Dir in H1, H2. unfold count_skips in *.
  rewrite !filter_app, !length_app. cbn [filter].
  rewrite is_skip_removing_root, is_removing_file_removing_root.
  cbn [List.length]. rewrite !Nat.add_0_r. now split.
Qed.

Lemma X8_one_notice_per_refusal_witness :
  wf_world sample_world = true /\
  exists lines,
    stdout (snd (delete_path_verbose (Path_of_str "target") sample_world))
    = stdout sample_world ++ lines /\
    Z.of_nat (count_skips lines) = 1 + 1 /\
    Z.of_nat (List.length (filter is_removing_file lines)) = 3.
Proof.
  split; [reflexivity|].
  apply (X8_one_notice_per_refusal sample_world (Path_of_str "target") None
           [ ("debug", Dir None
                [ ("app", File 900 None (Some EBUSY));
                  ("app.d", File 20 None None) ]);
             ("CACHEDIR.TAG", File 43 None None) ]);
    reflexivity.
Defined.

(* ================================================================== *)
(** * Where the bytes go *)
(* ================================================================== *)

Section Accounts.

Implicit Types (es : list (string * node)) (n m c : node).
Implicit Types (p q : list string) (name : string) (v : option node).

Lemma tree_size_nonneg n : 0 <= tree_size n.
Proof.
  induction n as [sz sf uf|flt es IH] using node_induction; [cbn; lia|].
  cbn [tree_size].
  apply (sum_on_le (fun _ => true) tree_size tree_size).
  apply Forall_forall. intros e He. rewrite Forall_forall in IH.
  specialize (IH e He). lia.
Qed.

Lemma tree_size_pruned n' n : pruned n' n -> tree_size n' <= tree_size n.
Proof.
  revert n' n.
  apply (pruned_mut
           (fun n' n => tree_size n' <= tree_size n)
           (fun es' es => sum_on (fun _ => true) tree_size es'
                          <= sum_on (fun _ => true) tree_size es)).
  - intros. lia.
  - intros flt es' es _ IH. exact IH.
  - cbn. lia.
  - intros name c es' es _ IH. cbn [sum_on].
    pose proof (tree_size_nonneg c). lia.
  - intros name c' c es' es _ IHc _ IH. cbn [sum_on]. lia.
Qed.

(** The walk takes away the bytes it counts, and no other. *)
Lemma tree_size_walked_entries es :
  Forall (fun e => is_dir_node (snd e) = true ->
                   tree_size (walked (snd e)) + unlinked_size (snd e)
                   = tree_size (snd e)) es ->
  sum_on (fun _ => true) tree_size (walked_entries es)
  + sum_on (fun _ => true) unlinked_size es
  = sum_on (fun _ => true) tree_size es.
Proof.
  induction 1 as [|[name c] es Hc _ IHes]; [reflexivity|].
  rewrite walked_entries_cons. cbn [sum_on snd] in *. unfold entry_left.
  destruct c as [sz sf uf|f E]; cbn [is_dir_node] in *.
  - destruct sf, uf; cbn [file_left sum_on tree_size unlinked_size]; lia.
  - specialize (Hc eq_refl). rewrite walked_Dir in Hc |- *.
    cbn [folder_left].
    destruct (rmdir_error f (walked_entries E)) as [e|] eqn:Er.
    + cbn [sum_on]. lia.
    + apply rmdir_error_None in Er. rewrite Er in Hc.
      change (tree_size (Dir f [])) with 0 in Hc. lia.
Qed.

Lemma tree_size_walked n :
  is_dir_node n = true ->
  tree_size (walked n) + unlinked_size n = tree_size n.
Proof.
  induction n as [sz sf uf|flt es IH] using node_induction; [discriminate|].
  intros _. rewrite walked_Dir. cbn [tree_size unlinked_size].
  now apply tree_size_walked_entries.
Qed.

Lemma tree_size_walked_all es :
  sum_on (fun _ => true) tree_size (walked_entries es)
  + sum_on (fun _ => true) unlinked_size es
  = sum_on (fun _ => true) tree_size es.
Proof.
  apply tree_size_walked_entries. apply Forall_forall.
  intros e _. apply tree_size_walked.
Qed.

Lemma sum_nonneg es : 0 <= sum_on (fun _ => true) tree_size es.
Proof. exact (tree_size_nonneg (Dir None es)). Qed.

Lemma sum_pruned es' es :
  pruned_entries es' es ->
  sum_on (fun _ => true) tree_size es' <= sum_on (fun _ => true) tree_size es.
Proof.
  intros H. exact (tree_size_pruned _ _ (pruned_dir None es' es H)).
Qed.

(** The bytes counted as freed are gone. *)
Lemma size_after_erase path n :
  size_left (after_erase path n) + unlinked_size n <= tree_size n.
Proof.
  destruct n as [sz sf uf|flt es].
  - destruct sf, uf; cbn; lia.
  - cbn [after_erase tree_size unlinked_size]. unfold after_delete.
    pose proof (sum_pruned _ _ (pruned_rmtree_entries (walked_entries es))) as H1.
    pose proof (tree_size_walked_all es) as H2.
    pose proof (sum_nonneg (snd (rmtree_entries true (walked_entries es)))) as H3.
    destruct (parts path); [cbn [size_left tree_size]; lia|].
    destruct (rmdir_error _ _); cbn [size_left tree_size]; lia.
Qed.

(** ** Trees in which [stat] never fails *)

Lemma stat_faultless_stat_ok n : stat_faultless n = true -> stat_ok n = true.
Proof.
  induction n as [sz sf uf|flt es IH] using node_induction.
  - now destruct sf.
  - cbn [stat_faultless stat_ok]. rewrite !forallb_forall.
    rewrite Forall_forall in IH. intros H e He. apply (IH e He), (H e He).
Qed.

Lemma stat_faultless_lookup q : forall n m,
  stat_faultless n = true -> lookup q n = Some m -> stat_faultless m = true.
Proof.
  induction q as [|name q IH]; intros n m Hn Hl; [now injection Hl as <-|].
  destruct n as [sz sf uf|flt es]; [discriminate|].
  rewrite lookup_cons in Hl.
  destruct (find_entry name es) as [c|] eqn:E; [|discriminate].
  apply (IH c m); [|exact Hl].
  cbn [stat_faultless] in Hn. rewrite forallb_forall in Hn.
  exact (Hn (name, c) (find_entry_In _ _ _ E)).
Qed.

Lemma stat_faultless_pruned n' n :
  pruned n' n -> stat_faultless n = true -> stat_faultless n' = true.
Proof.
  revert n' n.
  apply (pruned_mut
           (fun n' n => stat_faultless n = true -> stat_faultless n' = true)
           (fun es' es =>
              forallb (fun e => stat_faultless (snd e)) es = true ->
              forallb (fun e => stat_faultless (snd e)) es' = true)).
  - trivial.
  - intros flt es' es _ IH. exact IH.
  - trivial.
  - intros name c es' es _ IH. cbn [forallb]. rewrite andb_true_iff.
    intros [_ H]. now apply IH.
  - intros name c' c es' es _ IHc _ IH. cbn [forallb snd].
    rewrite !andb_true_iff. intros [Hc H]. split; [now apply IHc | now apply IH].
Qed.

(** There, what the walk leaves is what [rmtree] leaves. *)
Lemma faultless_walked_entries es :
  Forall (fun e => stat_faultless (snd e) = true ->
                   match entry_left (snd e) with
                   | Some c' => stuck c' = true
                   | None => True
                   end) es ->
  forallb (fun e => stat_faultless (snd e)) es = true ->
  forallb (fun e => stuck (snd e)) (walked_entries es) = true.
Proof.
  induction 1 as [|[name c] es Hc _ IHes]; [reflexivity|].
  cbn [forallb snd] in *. rewrite andb_true_iff. intros [Hfc Hfes].
  rewrite walked_entries_cons. specialize (Hc Hfc).
  destruct (entry_left c) as [c'|]; [|now apply IHes].
  cbn [forallb snd]. now rewrite Hc, IHes.
Qed.

Lemma faultless_walked n :
  stat_faultless n = true ->
  match entry_left n with
  | Some c' => stuck c' = true
  | None => True
  end.
Proof.
  induction n as [sz sf uf|flt es IH] using node_induction; intros Hf.
  - destruct sf; [discriminate|]. now destruct uf.
  - unfold entry_left. cbn [is_dir_node]. rewrite walked_Dir.
    cbn [folder_left].
    destruct (rmdir_error flt (walked_entries es)) eqn:Er; [|exact I].
    cbn [stuck]. rewrite Er. now apply faultless_walked_entries.
Qed.

Lemma faultless_walked_all es :
  forallb (fun e => stat_faultless (snd e)) es = true ->
  forallb (fun e => stuck (snd e)) (walked_entries es) = true.
Proof.
  apply faultless_walked_entries. apply Forall_forall.
  intros e _. apply faultless_walked.
Qed.

Lemma size_after_erase_faultless path n :
  stat_faultless n = true ->
  size_left (after_erase path n) + unlinked_size n = tree_size n.
Proof.
  destruct n as [sz sf uf|flt es]; intros Hf.
  - destruct sf; [discriminate|]. destruct uf; cbn; lia.
  - cbn [after_erase tree_size unlinked_size]. unfold after_delete.
    destruct (stuck_entries_fixed _ (faultless_walked_all es Hf)) as [_ [Hr _]].
    rewrite Hr. cbn [snd].
    pose proof (tree_size_walked_all es) as H2.
    destruct (parts path); [cbn [size_left tree_size]; lia|].
    destruct (rmdir_error flt (walked_entries es)) eqn:Er;
      [cbn [size_left tree_size]; lia|].
    apply rmdir_error_None in Er. rewrite Er in H2.
    cbn [size_left sum_on] in *. lia.
Qed.

(** ** The size of a tree after [put] *)

Lemma sum_put_entry (A : node -> Z) name v c es :
  find_entry name es = Some c ->
  sum_on (fun _ => true) A (put_entry name v es)
  = sum_on (fun _ => true) A es - A c
    + match v with Some c' => A c' | None => 0 end.
Proof.
  induction es as [|[name0 c0] es IH]; [discriminate|].
  cbn [find_entry put_entry].
  destruct (String.eqb name0 name).
  - intros [= ->]. destruct v; cbn [sum_on]; lia.
  - intros H. cbn [sum_on]. rewrite (IH H). lia.
Qed.

Lemma tree_size_put p : forall v n m,
  lookup p n = Some m ->
  p <> [] \/ v <> None ->
  tree_size (put p v n) = tree_size n - tree_size m + size_left v.
Proof.
  induction p as [|name p IH]; intros v n m Hl Hpv.
  - injection Hl as <-. destruct v as [m'|]; cbn [put size_left]; [lia|].
    destruct Hpv; congruence.
  - destruct n as [sz sf uf|flt es]; [discriminate|].
    rewrite lookup_cons in Hl.
    destruct (find_entry name es) as [c|] eqn:E; [|discriminate].
    destruct p as [|name' p].
    + injection Hl as <-. rewrite put_one. cbn [tree_size].
      rewrite (sum_put_entry tree_size name v c es E). now destruct v.
    + rewrite put_cons, E. cbn [tree_size].
      rewrite (sum_put_entry tree_size name _ c es E).
      rewrite (IH v c m Hl) by (left; discriminate). lia.
Qed.

End Accounts.

(** What [delete_path_verbose] does in a well-formed world, where
    [stat] is not refused on the path, in one statement. *)
Lemma erase_accounts w path :
  wf_world w = true ->
  refused_at w path = None ->
  exists freed fs' lines,
    delete_path_verbose path w
    = (Ok freed, mkWorld fs' (cwd w) (stdout w ++ lines)) /\
    0 <= freed /\
    pruned fs' (fs w) /\
    tree_size fs' + freed <= tree_size (fs w) /\
    (stat_faultless (fs w) = true -> tree_size fs' + freed = tree_size (fs w)).
Proof.
  intros Hw Href. pose proof (erase_prunes w path Hw) as Hp.
  apply wf_world_inv in Hw as [Hd Hwf]. unfold refused_at in Href.
  destruct (node_at w path) as [n|] eqn:Hnode.
  - destruct (delete_outcome w path n Hwf Hnode Href) as [lines E].
    rewrite E in Hp |- *. cbn [snd fs] in Hp.
    exists (unlinked_size n), (put (resolve w path) (after_erase path n) (fs w)),
      lines.
    split; [reflexivity|].
    split; [apply unlinked_at_most_measured|]. split; [exact Hp|].
    assert (Hsize : tree_size (put (resolve w path) (after_erase path n) (fs w))
                    = tree_size (fs w) - tree_size n
                      + size_left (after_erase path n)).
    { apply tree_size_put; [exact Hnode|].
      destruct (resolve w path) eqn:Hr; [right | left; discriminate].
      destruct (after_erase_root w path n Hd Hnode Hr) as [m' ->].
      discriminate. }
    rewrite Hsize. pose proof (size_after_erase path n) as Hle.
    split; [lia|]. intros Hf.
    pose proof (size_after_erase_faultless path n
                  (stat_faultless_lookup _ _ _ Hf Hnode)). lia.
  - rewrite (delete_missing w path Hnode).
    exists 0, (fs w), []. rewrite app_nil_r.
    split; [now destruct w|]. split; [lia|]. split; [apply pruned_refl|].
    split; [lia|]. intros _. lia.
Qed.

(** X9.  The bytes [delete_path_verbose] reports as freed are gone from
    the tree: the files of the tree weigh afterwards at most what they
    weighed before less the value returned, and exactly that when [stat]
    fails on no file.  (With such failures the final [rmtree] may remove
    files the walk had skipped, which are not counted.) *)
Theorem X9_freed_bytes_are_gone (w w' : world) (path : Path) (freed : Z) :
  wf_world w = true ->
  delete_path_verbose path w = (Ok freed, w') ->
  0 <= freed /\
  tree_size (fs w') + freed <= tree_size (fs w) /\
  (stat_faultless (fs w) = true ->
   tree_size (fs w') + freed = tree_size (fs w)).
Proof.
  intros Hw Hrun.
  assert (Href : refused_at w path = None).
  { unfold refused_at. destruct (node_at w path) as [n|] eqn:Hnode; trivial.
    destruct (refused n) as [e|] eqn:Hr; trivial.
    rewrite (delete_refused w path n e Hnode Hr) in Hrun. discriminate. }
  destruct (erase_accounts w path Hw Href)
    as (freed0 & fs' & lines & E & H0 & _ & Hle & Heq).
  rewrite E in Hrun. injection Hrun as <- <-. cbn [fs]. now repeat split.
Qed.

Lemma X9_freed_bytes_are_gone_witness :
  wf_world sample_world = true /\
  0 <= 63 /\
  tree_size (fs (snd (delete_path_verbose (Path_of_str "target") sample_world)))
  + 63 <= tree_size (fs sample_world).
Proof.
  split; [reflexivity|].
  destruct (X9_freed_bytes_are_gone sample_world
              (snd (delete_path_verbose (Path_of_str "target") sample_world))
              (Path_of_str "target") 63)
    as [H1 [H2 _]]; [reflexivity | vm_compute; reflexivity |].
  split; [exact H1 | exact H2].
Defined.

(* ================================================================== *)
(** * A whole run *)
(* ================================================================== *)

Section Run.

Variable w0 : world.

Lemma bind_run {A B : Type} (m : M A) (k : A -> M B) w a w1 :
  m w = (Ok a, w1) -> bind m k w = k a w1.
Proof. intros H. unfold bind. now rewrite H. Qed.

Lemma get_size_faultless w path n :
  wf (fs w) = true ->
  node_at w path = Some n ->
  stat_faultless n = true ->
  get_size path w = (Ok (measured n), w).
Proof.
  intros Hwf Hnode Hf. destruct n as [sz sf uf|flt es].
  - destruct sf; [discriminate|].
    unfold get_size, bind. rewrite exists_at, Hnode. cbn [negb].
    rewrite is_file_at, Hnode. unfold stat_st_size. now rewrite Hnode.
  - apply get_size_directory; trivial. now apply stat_faultless_stat_ok.
Qed.

Lemma stat_faultless_refused n : stat_faultless n = true -> refused n = None.
Proof. now destruct n as [sz [e|] uf|flt es]. Qed.

Lemma exists_faultless w p n :
  node_at w p = Some n -> stat_faultless n = true ->
  exists_ p w = (Ok true, w).
Proof.
  intros Hnode Hf. rewrite exists_at, Hnode.
  now destruct n as [sz [e|] uf|flt es].
Qed.

Lemma carried_on_print acc w line :
  carried_on w0 acc w ->
  carried_on w0 acc (mkWorld (fs w) (cwd w) (stdout w ++ [line])).
Proof.
  intros (H1 & H2 & H3 & H4 & H5 & lines & H6).
  repeat split; trivial. cbn [stdout]. exists (lines ++ [line]).
  now rewrite H6, app_assoc.
Qed.

Lemma clean_path_carries p acc w :
  carried_on w0 acc w ->
  exists acc' w', clean_path p acc w = (Ok acc', w') /\ carried_on w0 acc' w'.
Proof.
  intros HI. pose proof HI as (Hw & Hf & Hcwd & Hp & Hsize & lines & Hout).
  unfold clean_path, truthy.
  destruct (node_at w p) as [n|] eqn:Hnode.
  - pose proof (stat_faultless_lookup _ _ _ Hf Hnode) as Hfn.
    rewrite (bind_run _ _ w true w) by exact (exists_faultless w p n Hnode Hfn).
    pose proof (wf_world_inv w Hw) as [Hd Hwf].
    rewrite (bind_run _ _ w (measured n) w)
      by (apply get_size_faultless; trivial).
    destruct (measured n >? 0); [|now exists acc, w].
    assert (Href : refused_at w p = None).
    { unfold refused_at. rewrite Hnode. now apply stat_faultless_refused. }
    destruct (erase_accounts w p Hw Href)
      as (freed & fs' & lines' & E & H0 & Hp' & _ & Heq).
    rewrite (bind_run _ _ _ _ _ E).
    unfold bind, print, ret. cbn [fs cwd stdout].
    eexists. eexists. split; [reflexivity|].
    unfold carried_on. cbn [fs cwd stdout].
    assert (Hw' : wf_world (mkWorld fs' (cwd w) (stdout w ++ lines')) = true).
    { unfold wf_world. cbn [fs]. rewrite (wf_pruned _ _ Hp' Hwf), andb_true_r.
      inversion Hp' as [sz sf uf E1 E2|flt es' es _ E1 E2];
        [now rewrite <- E2 in Hd | reflexivity]. }
    split; [exact Hw'|].
    split; [exact (stat_faultless_pruned _ _ Hp' Hf)|].
    split; [exact Hcwd|].
    split; [exact (pruned_trans _ _ _ Hp' Hp)|].
    split; [specialize (Heq Hf); lia|].
    exists (lines ++ lines' ++ [msg_done p (measured n)]).
    now rewrite Hout, <- !app_assoc.
  - rewrite (bind_run _ _ w false w) by now rewrite exists_at, Hnode.
    now exists acc, w.
Qed.

Lemma for_carries {A : Type} (body : A -> Z -> M Z) (xs : list A) :
  Forall (fun x => forall acc w,
            carried_on w0 acc w ->
            exists acc' w', body x acc w = (Ok acc', w') /\
                            carried_on w0 acc' w') xs ->
  forall acc w,
    carried_on w0 acc w ->
    exists acc' w', for_ xs body acc w = (Ok acc', w') /\ carried_on w0 acc' w'.
Proof.
  induction 1 as [|x xs Hx _ IH]; intros acc w HI; [now exists acc, w|].
  destruct (Hx acc w HI) as (acc1 & w1 & E1 & HI1).
  cbn [for_]. rewrite (bind_run _ _ _ _ _ E1). now apply IH.
Qed.

Lemma clean_category_carries total_tasks i label paths :
  (exists bar, progress_bar i total_tasks = Ok bar) ->
  forall acc w,
    carried_on w0 acc w ->
    exists acc' w',
      clean_category total_tasks (i, (label, paths)) acc w = (Ok acc', w') /\
      carried_on w0 acc' w'.
Proof.
  intros [bar Hbar] acc w HI. unfold clean_category.
  set (header := fstr [newline; "["; str_of_int i; "/"; str_of_int total_tasks;
                       "] Cleaning category: "; label]).
  rewrite (bind_run (print header) _ w tt
             (mkWorld (fs w) (cwd w) (stdout w ++ [header])) eq_refl).
  destruct (for_carries clean_path paths) with (acc := acc)
    (w := mkWorld (fs w) (cwd w) (stdout w ++ [header]))
    as (acc1 & w1 & E1 & HI1).
  { apply Forall_forall. intros p _ acc' w'. apply clean_path_carries. }
  { now apply carried_on_print. }
  rewrite (bind_run _ _ _ _ _ E1).
  rewrite (bind_run (lift (progress_bar i total_tasks)) _ w1 bar w1)
    by (unfold lift; now rewrite Hbar).
  rewrite (bind_run (print (fstr ["   "; bar])) _ w1 tt
             (mkWorld (fs w1) (cwd w1) (stdout w1 ++ [fstr ["   "; bar]]))
             eq_refl).
  exists acc1. eexists. split; [reflexivity|]. now apply carried_on_print.
Qed.

End Run.

(** X10.  In a tree where [stat] fails on no file, [clean_all_verbose]
    runs to its end whatever the environment: it raises nothing, it
    creates nothing, the total it returns is exactly the weight of the
    files that are gone from the tree, and the three lines it prints last
    report that total. *)
Theorem X10_run_completes (env : environ) (w : world) :
  wf_world w = true ->
  stat_faultless (fs w) = true ->
  exists total w' lines,
    clean_all_verbose env w = (Ok total, w') /\
    tree_size (fs w') + total = tree_size (fs w) /\
    pruned (fs w') (fs w) /\
    stdout w' = stdout w ++ lines ++ closing_lines total.
Proof.
  intros Hw Hf.
  assert (HI : carried_on w 0 w).
  { repeat split; trivial; [apply pruned_refl | lia |].
    exists []. now rewrite app_nil_r. }
  unfold clean_all_verbose.
  change (Z.of_nat (List.length (map fst (CACHE_LOCATIONS env (cwd w)))))
    with 7.
  destruct (for_carries w (clean_category 7)
              (enumerate 1 (CACHE_LOCATIONS env (cwd w)))) with (acc := 0) (w := w)
    as (total & w1 & E & HI1); [|exact HI|].
  { unfold CACHE_LOCATIONS. cbn [enumerate].
    repeat (apply Forall_cons;
            [apply clean_category_carries; vm_compute; eexists; reflexivity|]).
    apply Forall_nil. }
  rewrite (bind_run _ _ _ _ _ E).
  destruct HI1 as (_ & _ & _ & Hp & Hsize & lines & Hout).
  unfold bind, print, ret. cbn [fs cwd stdout].
  exists total. eexists. exists lines. split; [reflexivity|].
  cbn [fs stdout]. split; [exact Hsize|]. split; [exact Hp|].
  rewrite Hout. unfold closing_lines. now rewrite <- !app_assoc.
Qed.

Lemma X10_run_completes_witness :
  wf_world job_world = true /\
  stat_faultless (fs job_world) = true /\
  exists total w' lines,
    clean_all_verbose sample_env job_world = (Ok total, w') /\
    tree_size (fs w') + total = 15 /\
    pruned (fs w') (fs job_world) /\
    stdout w' = stdout job_world ++ lines ++ closing_lines total.
Proof.
  split; [reflexivity|]. split; [reflexivity|].
  apply (X10_run_completes sample_env job_world); reflexivity.
Defined.

(** ** Paths the walker passes over *)

Lemma clean_path_quiet w p :
  wf (fs w) = true ->
  nothing_to_clean w p = true ->
  forall out total,
    clean_path p total (mkWorld (fs w) (cwd w) out)
    = (Ok total, mkWorld (fs w) (cwd w) out).
Proof.
  intros Hwf Hq out total. set (w' := mkWorld (fs w) (cwd w) out).
  assert (Hsame : node_at w' p = node_at w p) by reflexivity.
  unfold nothing_to_clean in Hq. unfold clean_path, truthy.
  destruct (node_at w p) as [[sz sf uf|flt es]|] eqn:Hnode.
  - destruct sf; [discriminate|]. apply Z.eqb_eq in Hq.
    rewrite (bind_run _ _ w' true w') by now rewrite exists_at, Hsame.
    rewrite (bind_run _ _ w' 0 w'); [reflexivity|].
    unfold get_size, bind. rewrite exists_at, Hsame. cbn [negb].
    rewrite is_file_at, Hsame. unfold stat_st_size. now rewrite Hsame, Hq.
  - apply andb_true_iff in Hq as [Hok Hzero]. apply Z.eqb_eq in Hzero.
    rewrite (bind_run _ _ w' true w') by now rewrite exists_at, Hsame.
    rewrite (bind_run _ _ w' (measured (Dir flt es)) w')
      by now apply get_size_directory.
    now rewrite Hzero.
  - now rewrite (bind_run _ _ w' false w')
      by now rewrite exists_at, Hsame.
Qed.

Lemma for_quiet w paths :
  wf (fs w) = true ->
  forallb (nothing_to_clean w) paths = true ->
  forall out total,
    for_ paths clean_path total (mkWorld (fs w) (cwd w) out)
    = (Ok total, mkWorld (fs w) (cwd w) out).
Proof.
  intros Hwf. induction paths as [|p paths IH]; intros Hq out total;
    [reflexivity|].
  cbn [forallb] in Hq. apply andb_true_iff in Hq as [Hp Hq].
  cbn [for_]. rewrite (bind_run _ _ _ _ _ (clean_path_quiet w p Hwf Hp out total)).
  now apply IH.
Qed.

Lemma clean_category_quiet w total_tasks i label paths bar :
  wf (fs w) = true ->
  progress_bar i total_tasks = Ok bar ->
  forallb (nothing_to_clean w) paths = true ->
  forall out total,
    clean_category total_tasks (i, (label, paths)) total
      (mkWorld (fs w) (cwd w) out)
    = (Ok total,
       mkWorld (fs w) (cwd w) (out ++ quiet_category total_tasks i label)).
Proof.
  intros Hwf Hbar Hq out total. unfold clean_category, quiet_category.
  rewrite Hbar.
  set (header := fstr [newline; "["; str_of_int i; "/"; str_of_int total_tasks;
                       "] Cleaning category: "; label]).
  rewrite (bind_run (print header) _ (mkWorld (fs w) (cwd w) out) tt
             (mkWorld (fs w) (cwd w) (out ++ [header])) eq_refl).
  rewrite (bind_run _ _ _ _ _ (for_quiet w paths Hwf Hq (out ++ [header]) total)).
  rewrite (bind_run (lift (Ok bar)) _
             (mkWorld (fs w) (cwd w) (out ++ [header])) bar _ eq_refl).
  unfold bind, print, ret. cbn [fs cwd stdout].
  now rewrite <- app_assoc.
Qed.

Lemma quiet_categories w total_tasks (tasks : list (Z * (string * list Path))) :
  wf (fs w) = true ->
  Forall (fun task =>
            (exists bar, progress_bar (fst task) total_tasks = Ok bar) /\
            forallb (nothing_to_clean w) (snd (snd task)) = true) tasks ->
  forall out total,
    for_ tasks (clean_category total_tasks) total (mkWorld (fs w) (cwd w) out)
    = (Ok total,
       mkWorld (fs w) (cwd w)
         (out ++ flat_map (fun task => quiet_category total_tasks (fst task)
                                         (fst (snd task))) tasks)).
Proof.
  intros Hwf. induction 1 as [|[i [label paths]] tasks [[bar Hbar] Hq] _ IH];
    intros out total.
  - cbn [for_ flat_map]. now rewrite app_nil_r.
  - cbn [fst snd] in Hbar, Hq. cbn [for_ flat_map fst snd].
    rewrite (bind_run _ _ _ _ _
               (clean_category_quiet w total_tasks i label paths bar
                  Hwf Hbar Hq out total)).
    rewrite IH. now rewrite <- app_assoc.
Qed.

(** X11.  A path in which [get_size] finds no byte is left alone: a
    missing path, an empty file, a directory that holds only empty files
    and directories.  The walker erases nothing of it, prints nothing and
    leaves the total as it is. *)
Theorem X11_nothing_measured_nothing_erased (w : world) (p : Path)
    (total : Z) :
  wf_world w = true ->
  nothing_to_clean w p = true ->
  clean_path p total w = (Ok total, w).
Proof.
  intros Hw Hq. apply wf_world_inv in Hw as [_ Hwf].
  pose proof (clean_path_quiet w p Hwf Hq (stdout w) total) as H.
  now destruct w.
Qed.

Lemma X11_nothing_measured_nothing_erased_witness :
  wf_world idle_world = true /\
  nothing_to_clean idle_world (Path_of_str "logs") = true /\
  clean_path (Path_of_str "logs") 7 idle_world = (Ok 7, idle_world).
Proof.
  split; [reflexivity|]. split; [reflexivity|].
  apply (X11_nothing_measured_nothing_erased idle_world (Path_of_str "logs") 7);
    reflexivity.
Defined.

(** X12.  When [get_size] finds no byte in any path of the catalogue, a
    run of [clean_all_verbose] leaves the file system as it is, returns 0,
    and prints the header and the progress bar of each of the seven
    categories and then a total of "0.0B". *)
Theorem X12_quiet_run (env : environ) (w : world) :
  wf_world w = true ->
  forallb (fun task => forallb (nothing_to_clean w) (snd task))
    (CACHE_LOCATIONS env (cwd w)) = true ->
  clean_all_verbose env w
  = (Ok 0, mkWorld (fs w) (cwd w) (stdout w ++ quiet_report)).
Proof.
  intros Hw Hq. apply wf_world_inv in Hw as [_ Hwf].
  rewrite forallb_forall in Hq.
  assert (E : for_ (enumerate 1 (CACHE_LOCATIONS env (cwd w)))
                (clean_category 7) 0 w
              = (Ok 0,
                 mkWorld (fs w) (cwd w)
                   (stdout w
                    ++ flat_map (fun task : Z * string =>
                                   quiet_category 7 (fst task) (snd task))
                         (enumerate 1
                            [ "Android / Gradle"; "Node.js"; "Maven / Kotlin";
                              "Python"; "Rust (Cargo)"; "Go";
                              "System Temp" ])))).
  { pose proof (quiet_categories w 7
                  (enumerate 1 (CACHE_LOCATIONS env (cwd w))) Hwf) as H.
    assert (Hw0 : mkWorld (fs w) (cwd w) (stdout w) = w) by now destruct w.
    specialize (fun HF => H HF (stdout w) 0). rewrite Hw0 in H.
    apply H. unfold CACHE_LOCATIONS. cbn [enumerate].
    repeat (apply Forall_cons;
            [split;
             [cbn [fst]; vm_compute; eexists; reflexivity
             |apply Hq; unfold CACHE_LOCATIONS; cbn [snd In];
              repeat first [left; reflexivity | right]]|]).
    apply Forall_nil. }
  unfold clean_all_verbose.
  change (Z.of_nat (List.length (map fst (CACHE_LOCATIONS env (cwd w)))))
    with 7.
  rewrite (bind_run _ _ _ _ _ E).
  unfold bind, print, ret. cbn [fs cwd stdout].
  unfold quiet_report, closing_lines. rewrite <- !app_assoc. reflexivity.
Qed.

Lemma X12_quiet_run_witness :
  wf_world idle_world = true /\
  clean_all_verbose sample_env idle_world
  = (Ok 0, mkWorld (fs idle_world) (cwd idle_world)
             (stdout idle_world ++ quiet_report)).
Proof.
  split; [reflexivity|].
  apply (X12_quiet_run sample_env idle_world); reflexivity.
Defined.

(* ================================================================== *)
(** * Sizes below 1024 *)
(* ================================================================== *)

Lemma string_app_assoc (a b c : string) :
  ((a ++ b) ++ c)%string = (a ++ (b ++ c))%string.
Proof. induction a as [|x a IH]; cbn; [reflexivity | now rewrite IH]. Qed.

Lemma round_half_even_tenths (n : Z) : round_half_even (inject_Z n * 10) = n * 10.
Proof.
  unfold round_half_even.
  assert (Hf : Qfloor (inject_Z n * 10) = n * 10).
  { unfold Qfloor, Qmult, inject_Z. cbn [Qnum Qden Pos.mul]. apply Z.div_1_r. }
  rewrite Hf.
  assert (Hc : (inject_Z n * 10 - inject_Z (n * 10) ?= 1 # 2)%Q = Lt).
  { unfold Qcompare, Qminus, Qplus, Qopp, Qmult, inject_Z.
    cbn [Qnum Qden Pos.mul]. apply Z.compare_lt_iff. lia. }
  now rewrite Hc.
Qed.

(** X13.  A whole number of bytes below 1024 is printed in full, with
    ".0B" after it: [sizeof_fmt] divides nothing and rounds nothing
    away. *)
Theorem X13_bytes_below_1024 (n : Z) :
  0 <= n < 1024 ->
  sizeof_fmt (inject_Z n) "B" = (str_of_int n ++ ".0B")%string.
Proof.
  intros Hn. unfold sizeof_fmt. cbn [sizeof_fmt_units].
  assert (Hlt : Qle_bool 1024 (Qabs (inject_Z n)) = false).
  { unfold Qle_bool, Qabs, inject_Z. cbn [Qnum Qden]. apply Z.leb_gt. lia. }
  rewrite Hlt. cbn [negb]. unfold format_1f.
  rewrite round_half_even_tenths.
  assert (Hsign : match (inject_Z n ?= 0)%Q with Lt => "-" | _ => "" end = "").
  { unfold Qcompare, inject_Z. cbn [Qnum Qden].
    destruct (Z.compare_spec (n * 1) (0 * 1)); trivial. lia. }
  rewrite Hsign.
  replace (Z.abs (n * 10) / 10) with n
    by (rewrite Z.abs_eq by lia; now rewrite Z.div_mul).
  replace (Z.abs (n * 10) mod 10) with 0
    by (rewrite Z.abs_eq by lia; now rewrite Z.mod_mul).
  change (str_of_int 0) with "0".
  unfold fstr. cbn [String.concat append].
  now rewrite string_app_assoc.
Qed.

Lemma X13_bytes_below_1024_witness :
  0 <= 512 < 1024 /\ sizeof_fmt (inject_Z 512) "B" = "512.0B".
Proof.
  split; [lia|]. apply (X13_bytes_below_1024 512). lia.
Defined.
